(** * A shallow embedding of the loup-garou session engine (src/main.py)

    The Discord bot keeps one [GameState] per guild in the global dictionary
    [GAMES]; every slash command is a handler that looks the game up, checks
    its guards, mutates the game in place and answers the interaction.  The
    embedding keeps that shape: a handler is a function from the interaction
    and the registry to a reply and the new registry.  Messages sent to the
    room or by DM are not part of the state and are left out; the reply
    records which [send_message] branch answered the command.

    Seven handlers look up the room of the game with [channel], whose
    [assert] fails once the guild has lost that channel.  The handlers of
    the part [Commands] are the handlers in a guild that still has the
    room; the part [The room of the game] gives the same handlers with the
    lookup where the source has it, over the set of text channels of the
    guild, and the two are compared in the properties.

    Conventions.
    - Identities are Discord snowflakes, modelled as [Z]; [Optional[int]] is
      [option Z].  Python's truth test [if x:] on an [Optional[int]] is
      [truthy]: false on [None] and on [0].
    - The string-typed enumerations of the source (roles, phases, vote
      kinds) are inductive types carrying the source's spelling.
    - Dictionaries are [gmap]s, sets are [gset]s.
    - [random.shuffle] is a parameter of the development, known only to
      return a permutation of its argument. *)

From Stdlib Require Import ZArith List Bool Lia Permutation.
From stdpp Require Import gmap list fin_maps fin_sets.

Open Scope Z_scope.

#[local] Set Warnings "-clear-no-such-hyp".

(** ** Roles *)

Inductive Role : Type :=
  | loup_garou | loup_garou_noir | sorciere | voyante | petite_fille
  | garde | chasseur | cupidon | villageois.

#[global] Instance Role_eq_dec : EqDecision Role.
Proof. solve_decision. Defined.

Definition WOLF_ROLES : list Role := [loup_garou; loup_garou_noir].

Definition role_eqb (a b : Role) : bool := bool_decide (a = b).

(** ** Game state *)

Inductive Phase : Type := Lobby | Night | Day | Ended.

#[global] Instance Phase_eq_dec : EqDecision Phase.
Proof. solve_decision. Defined.

(** [VoteState.kind] is [""] until a vote is opened. *)
Inductive VoteKind : Type := kind_unset | mayor | daykill.

#[global] Instance VoteKind_eq_dec : EqDecision VoteKind.
Proof. solve_decision. Defined.

Record PlayerState : Type := {
  user_id : Z;
  role : option Role;
  alive : bool;
  lover_id : option Z;
  infected : bool
}.

Record VoteState : Type := {
  active : bool;
  kind : VoteKind;
  votes : gmap Z Z
}.

Record GameState : Type := {
  guild_id : Z;
  channel_id : Z;
  created_by : Z;
  started : bool;
  phase : Phase;
  day : Z;
  players : gmap Z PlayerState;
  mayor_id : option Z;
  protected_id : option Z;
  seer_target_id : option Z;
  wolf_target_id : option Z;
  witch_heal_used : bool;
  witch_kill_used : bool;
  witch_heal_target_id : option Z;
  witch_kill_target_id : option Z;
  cupid_done : bool;
  cupid_targets : list Z;
  black_infect_used : bool;
  black_infect_target_id : option Z;
  vote : VoteState
}.

#[global] Instance PlayerState_eq_dec : EqDecision PlayerState.
Proof. solve_decision. Defined.

#[global] Instance VoteState_eq_dec : EqDecision VoteState.
Proof. solve_decision. Defined.

#[global] Instance GameState_eq_dec : EqDecision GameState.
Proof. solve_decision. Defined.

(** [PlayerState(user_id=uid)] and [VoteState()] with the dataclass defaults. *)
Definition new_player (uid : Z) : PlayerState :=
  {| user_id := uid; role := None; alive := true; lover_id := None;
     infected := false |}.

Definition new_vote : VoteState :=
  {| active := false; kind := kind_unset; votes := ∅ |}.

Definition new_game (gid cid owner : Z) : GameState :=
  {| guild_id := gid; channel_id := cid; created_by := owner;
     started := false; phase := Lobby; day := 0; players := ∅;
     mayor_id := None; protected_id := None; seer_target_id := None;
     wolf_target_id := None; witch_heal_used := false;
     witch_kill_used := false; witch_heal_target_id := None;
     witch_kill_target_id := None; cupid_done := false; cupid_targets := [];
     black_infect_used := false; black_infect_target_id := None;
     vote := new_vote |}.

(** Attribute assignment, one function per mutated attribute. *)
Definition set_role (v : option Role) (p : PlayerState) : PlayerState :=
  {| user_id := user_id p; role := v; alive := alive p;
     lover_id := lover_id p; infected := infected p  |}.

Definition set_alive (v : bool) (p : PlayerState) : PlayerState :=
  {| user_id := user_id p; role := role p; alive := v;
     lover_id := lover_id p; infected := infected p  |}.

Definition set_lover_id (v : option Z) (p : PlayerState) : PlayerState :=
  {| user_id := user_id p; role := role p; alive := alive p;
     lover_id := v; infected := infected p  |}.

Definition set_infected (v : bool) (p : PlayerState) : PlayerState :=
  {| user_id := user_id p; role := role p; alive := alive p;
     lover_id := lover_id p; infected := v  |}.

Definition set_started (v : bool) (g : GameState) : GameState :=
  {| guild_id := guild_id g; channel_id := channel_id g; created_by :=
     created_by g; started := v; phase := phase g; day := day g; players
     := players g; mayor_id := mayor_id g; protected_id := protected_id g;
     seer_target_id := seer_target_id g; wolf_target_id := wolf_target_id
     g; witch_heal_used := witch_heal_used g; witch_kill_used :=
     witch_kill_used g; witch_heal_target_id := witch_heal_target_id g;
     witch_kill_target_id := witch_kill_target_id g; cupid_done :=
     cupid_done g; cupid_targets := cupid_targets g; black_infect_used :=
     black_infect_used g; black_infect_target_id := black_infect_target_id
     g; vote := vote g |}.

Definition set_phase (v : Phase) (g : GameState) : GameState :=
  {| guild_id := guild_id g; channel_id := channel_id g; created_by :=
     created_by g; started := started g; phase := v; day := day g; players
     := players g; mayor_id := mayor_id g; protected_id := protected_id g;
     seer_target_id := seer_target_id g; wolf_target_id := wolf_target_id
     g; witch_heal_used := witch_heal_used g; witch_kill_used :=
     witch_kill_used g; witch_heal_target_id := witch_heal_target_id g;
     witch_kill_target_id := witch_kill_target_id g; cupid_done :=
     cupid_done g; cupid_targets := cupid_targets g; black_infect_used :=
     black_infect_used g; black_infect_target_id := black_infect_target_id
     g; vote := vote g |}.

Definition set_day (v : Z) (g : GameState) : GameState :=
  {| guild_id := guild_id g; channel_id := channel_id g; created_by :=
     created_by g; started := started g; phase := phase g; day := v;
     players := players g; mayor_id := mayor_id g; protected_id :=
     protected_id g; seer_target_id := seer_target_id g; wolf_target_id :=
     wolf_target_id g; witch_heal_used := witch_heal_used g;
     witch_kill_used := witch_kill_used g; witch_heal_target_id :=
     witch_heal_target_id g; witch_kill_target_id := witch_kill_target_id
     g; cupid_done := cupid_done g; cupid_targets := cupid_targets g;
     black_infect_used := black_infect_used g; black_infect_target_id :=
     black_infect_target_id g; vote := vote g |}.

Definition set_players (v : gmap Z PlayerState) (g : GameState) : GameState :=
  {| guild_id := guild_id g; channel_id := channel_id g; created_by :=
     created_by g; started := started g; phase := phase g; day := day g;
     players := v; mayor_id := mayor_id g; protected_id := protected_id g;
     seer_target_id := seer_target_id g; wolf_target_id := wolf_target_id
     g; witch_heal_used := witch_heal_used g; witch_kill_used :=
     witch_kill_used g; witch_heal_target_id := witch_heal_target_id g;
     witch_kill_target_id := witch_kill_target_id g; cupid_done :=
     cupid_done g; cupid_targets := cupid_targets g; black_infect_used :=
     black_infect_used g; black_infect_target_id := black_infect_target_id
     g; vote := vote g |}.

Definition set_mayor_id (v : option Z) (g : GameState) : GameState :=
  {| guild_id := guild_id g; channel_id := channel_id g; created_by :=
     created_by g; started := started g; phase := phase g; day := day g;
     players := players g; mayor_id := v; protected_id := protected_id g;
     seer_target_id := seer_target_id g; wolf_target_id := wolf_target_id
     g; witch_heal_used := witch_heal_used g; witch_kill_used :=
     witch_kill_used g; witch_heal_target_id := witch_heal_target_id g;
     witch_kill_target_id := witch_kill_target_id g; cupid_done :=
     cupid_done g; cupid_targets := cupid_targets g; black_infect_used :=
     black_infect_used g; black_infect_target_id := black_infect_target_id
     g; vote := vote g |}.

Definition set_protected_id (v : option Z) (g : GameState) : GameState :=
  {| guild_id := guild_id g; channel_id := channel_id g; created_by :=
     created_by g; started := started g; phase := phase g; day := day g;
     players := players g; mayor_id := mayor_id g; protected_id := v;
     seer_target_id := seer_target_id g; wolf_target_id := wolf_target_id
     g; witch_heal_used := witch_heal_used g; witch_kill_used :=
     witch_kill_used g; witch_heal_target_id := witch_heal_target_id g;
     witch_kill_target_id := witch_kill_target_id g; cupid_done :=
     cupid_done g; cupid_targets := cupid_targets g; black_infect_used :=
     black_infect_used g; black_infect_target_id := black_infect_target_id
     g; vote := vote g |}.

Definition set_seer_target_id (v : option Z) (g : GameState) : GameState :=
  {| guild_id := guild_id g; channel_id := channel_id g; created_by :=
     created_by g; started := started g; phase := phase g; day := day g;
     players := players g; mayor_id := mayor_id g; protected_id :=
     protected_id g; seer_target_id := v; wolf_target_id := wolf_target_id
     g; witch_heal_used := witch_heal_used g; witch_kill_used :=
     witch_kill_used g; witch_heal_target_id := witch_heal_target_id g;
     witch_kill_target_id := witch_kill_target_id g; cupid_done :=
     cupid_done g; cupid_targets := cupid_targets g; black_infect_used :=
     black_infect_used g; black_infect_target_id := black_infect_target_id
     g; vote := vote g |}.

Definition set_wolf_target_id (v : option Z) (g : GameState) : GameState :=
  {| guild_id := guild_id g; channel_id := channel_id g; created_by :=
     created_by g; started := started g; phase := phase g; day := day g;
     players := players g; mayor_id := mayor_id g; protected_id :=
     protected_id g; seer_target_id := seer_target_id g; wolf_target_id :=
     v; witch_heal_used := witch_heal_used g; witch_kill_used :=
     witch_kill_used g; witch_heal_target_id := witch_heal_target_id g;
     witch_kill_target_id := witch_kill_target_id g; cupid_done :=
     cupid_done g; cupid_targets := cupid_targets g; black_infect_used :=
     black_infect_used g; black_infect_target_id := black_infect_target_id
     g; vote := vote g |}.

Definition set_witch_heal_used (v : bool) (g : GameState) : GameState :=
  {| guild_id := guild_id g; channel_id := channel_id g; created_by :=
     created_by g; started := started g; phase := phase g; day := day g;
     players := players g; mayor_id := mayor_id g; protected_id :=
     protected_id g; seer_target_id := seer_target_id g; wolf_target_id :=
     wolf_target_id g; witch_heal_used := v; witch_kill_used :=
     witch_kill_used g; witch_heal_target_id := witch_heal_target_id g;
     witch_kill_target_id := witch_kill_target_id g; cupid_done :=
     cupid_done g; cupid_targets := cupid_targets g; black_infect_used :=
     black_infect_used g; black_infect_target_id := black_infect_target_id
     g; vote := vote g |}.

Definition set_witch_kill_used (v : bool) (g : GameState) : GameState :=
  {| guild_id := guild_id g; channel_id := channel_id g; created_by :=
     created_by g; started := started g; phase := phase g; day := day g;
     players := players g; mayor_id := mayor_id g; protected_id :=
     protected_id g; seer_target_id := seer_target_id g; wolf_target_id :=
     wolf_target_id g; witch_heal_used := witch_heal_used g;
     witch_kill_used := v; witch_heal_target_id := witch_heal_target_id g;
     witch_kill_target_id := witch_kill_target_id g; cupid_done :=
     cupid_done g; cupid_targets := cupid_targets g; black_infect_used :=
     black_infect_used g; black_infect_target_id := black_infect_target_id
     g; vote := vote g |}.

Definition set_witch_heal_target_id (v : option Z) (g : GameState) : GameState :=
  {| guild_id := guild_id g; channel_id := channel_id g; created_by :=
     created_by g; started := started g; phase := phase g; day := day g;
     players := players g; mayor_id := mayor_id g; protected_id :=
     protected_id g; seer_target_id := seer_target_id g; wolf_target_id :=
     wolf_target_id g; witch_heal_used := witch_heal_used g;
     witch_kill_used := witch_kill_used g; witch_heal_target_id := v;
     witch_kill_target_id := witch_kill_target_id g; cupid_done :=
     cupid_done g; cupid_targets := cupid_targets g; black_infect_used :=
     black_infect_used g; black_infect_target_id := black_infect_target_id
     g; vote := vote g |}.

Definition set_witch_kill_target_id (v : option Z) (g : GameState) : GameState :=
  {| guild_id := guild_id g; channel_id := channel_id g; created_by :=
     created_by g; started := started g; phase := phase g; day := day g;
     players := players g; mayor_id := mayor_id g; protected_id :=
     protected_id g; seer_target_id := seer_target_id g; wolf_target_id :=
     wolf_target_id g; witch_heal_used := witch_heal_used g;
     witch_kill_used := witch_kill_used g; witch_heal_target_id :=
     witch_heal_target_id g; witch_kill_target_id := v; cupid_done :=
     cupid_done g; cupid_targets := cupid_targets g; black_infect_used :=
     black_infect_used g; black_infect_target_id := black_infect_target_id
     g; vote := vote g |}.

Definition set_cupid_done (v : bool) (g : GameState) : GameState :=
  {| guild_id := guild_id g; channel_id := channel_id g; created_by :=
     created_by g; started := started g; phase := phase g; day := day g;
     players := players g; mayor_id := mayor_id g; protected_id :=
     protected_id g; seer_target_id := seer_target_id g; wolf_target_id :=
     wolf_target_id g; witch_heal_used := witch_heal_used g;
     witch_kill_used := witch_kill_used g; witch_heal_target_id :=
     witch_heal_target_id g; witch_kill_target_id := witch_kill_target_id
     g; cupid_done := v; cupid_targets := cupid_targets g;
     black_infect_used := black_infect_used g; black_infect_target_id :=
     black_infect_target_id g; vote := vote g |}.

Definition set_cupid_targets (v : list Z) (g : GameState) : GameState :=
  {| guild_id := guild_id g; channel_id := channel_id g; created_by :=
     created_by g; started := started g; phase := phase g; day := day g;
     players := players g; mayor_id := mayor_id g; protected_id :=
     protected_id g; seer_target_id := seer_target_id g; wolf_target_id :=
     wolf_target_id g; witch_heal_used := witch_heal_used g;
     witch_kill_used := witch_kill_used g; witch_heal_target_id :=
     witch_heal_target_id g; witch_kill_target_id := witch_kill_target_id
     g; cupid_done := cupid_done g; cupid_targets := v; black_infect_used
     := black_infect_used g; black_infect_target_id :=
     black_infect_target_id g; vote := vote g |}.

Definition set_black_infect_used (v : bool) (g : GameState) : GameState :=
  {| guild_id := guild_id g; channel_id := channel_id g; created_by :=
     created_by g; started := started g; phase := phase g; day := day g;
     players := players g; mayor_id := mayor_id g; protected_id :=
     protected_id g; seer_target_id := seer_target_id g; wolf_target_id :=
     wolf_target_id g; witch_heal_used := witch_heal_used g;
     witch_kill_used := witch_kill_used g; witch_heal_target_id :=
     witch_heal_target_id g; witch_kill_target_id := witch_kill_target_id
     g; cupid_done := cupid_done g; cupid_targets := cupid_targets g;
     black_infect_used := v; black_infect_target_id :=
     black_infect_target_id g; vote := vote g |}.

Definition set_black_infect_target_id (v : option Z) (g : GameState) : GameState :=
  {| guild_id := guild_id g; channel_id := channel_id g; created_by :=
     created_by g; started := started g; phase := phase g; day := day g;
     players := players g; mayor_id := mayor_id g; protected_id :=
     protected_id g; seer_target_id := seer_target_id g; wolf_target_id :=
     wolf_target_id g; witch_heal_used := witch_heal_used g;
     witch_kill_used := witch_kill_used g; witch_heal_target_id :=
     witch_heal_target_id g; witch_kill_target_id := witch_kill_target_id
     g; cupid_done := cupid_done g; cupid_targets := cupid_targets g;
     black_infect_used := black_infect_used g; black_infect_target_id :=
     v; vote := vote g |}.

Definition set_vote (v : VoteState) (g : GameState) : GameState :=
  {| guild_id := guild_id g; channel_id := channel_id g; created_by :=
     created_by g; started := started g; phase := phase g; day := day g;
     players := players g; mayor_id := mayor_id g; protected_id :=
     protected_id g; seer_target_id := seer_target_id g; wolf_target_id :=
     wolf_target_id g; witch_heal_used := witch_heal_used g;
     witch_kill_used := witch_kill_used g; witch_heal_target_id :=
     witch_heal_target_id g; witch_kill_target_id := witch_kill_target_id
     g; cupid_done := cupid_done g; cupid_targets := cupid_targets g;
     black_infect_used := black_infect_used g; black_infect_target_id :=
     black_infect_target_id g; vote := v |}.

(** ** Helpers *)

(** [if x:] on an [Optional[int]]. *)
Definition truthy (x : option Z) : bool :=
  match x with
  | Some i => negb (i =? 0)
  | None => false
  end.

(** [k in d] on a dictionary. *)
Definition contains {V : Type} (d : gmap Z V) (k : Z) : bool :=
  bool_decide (is_Some (d !! k)).

Definition get_game (GAMES : gmap Z GameState) (guild : Z) : option GameState :=
  GAMES !! guild.

Definition is_wolf (r : option Role) : bool :=
  match r with
  | Some r' => bool_decide (r' ∈ WOLF_ROLES)
  | None => false
  end.

(** [game.players.values()] and [alive_ids]. *)
Definition player_values (game : GameState) : list PlayerState :=
  (map_to_list (players game)).*2.

Definition alive_ids (game : GameState) : list Z :=
  (filter (λ kp : Z * PlayerState, alive kp.2 = true)
          (map_to_list (players game))).*1.

(** ** Victory evaluation *)

Inductive Winner : Type := village_wins | wolves_win.

Definition living_wolves (game : GameState) : Z :=
  let alive_ := filter (λ p, alive p = true) (player_values game) in
  Z.of_nat (length (filter (λ p, is_wolf (role p) = true) alive_)).

Definition living_others (game : GameState) : Z :=
  let alive_ := filter (λ p, alive p = true) (player_values game) in
  Z.of_nat (length (filter (λ p, is_wolf (role p) = false) alive_)).

Definition check_victory (game : GameState) : option Winner :=
  let wolves := living_wolves game in
  let others := living_others game in
  if (wolves =? 0) && started game then Some village_wins
  else if (wolves >=? others) && started game && (wolves >? 0)
       then Some wolves_win
  else None.

(** ** Role distribution *)

Inductive Exception : Type := ValueError | IndexError | AssertionError.

Inductive result (A : Type) : Type :=
  | Ok (a : A)
  | Raise (e : Exception).
Arguments Ok {A} a.
Arguments Raise {A} e.

(** [while len(roles) < n: roles.append("villageois")]; every round makes the
    list one longer, so [n] rounds are always enough. *)
Fixpoint pad_villageois (rounds : nat) (n : Z) (roles : list Role) : list Role :=
  match rounds with
  | O => roles
  | S rounds' =>
      if Z.of_nat (length roles) <? n
      then pad_villageois rounds' n (roles ++ [villageois])
      else roles
  end.

Definition wolves_for (n : Z) : list Role :=
  if n <=? 9 then [loup_garou; loup_garou]
  else if n <=? 12 then [loup_garou; loup_garou_noir; loup_garou]
  else [loup_garou; loup_garou_noir; loup_garou; loup_garou].

(** The role list before [random.shuffle]. *)
Definition role_table (n : Z) : list Role :=
  let roles := [voyante; sorciere; garde; chasseur; cupidon] in
  let roles := roles ++ wolves_for n in
  let roles := if n >=? 10 then roles ++ [petite_fille] else roles in
  pad_villageois (Z.to_nat n) n roles.

Section Shuffle.

(** [random.shuffle]: the permutation it picks is not determined by the
    program, so every definition below works for whichever is picked. *)
Variable shuffle : ∀ A : Type, list A → list A.

Definition role_distribution (n : Z) : result (list Role) :=
  if (n <? 8) || (n >? 15) then Raise ValueError
  else Ok (shuffle Role (role_table n)).

End Shuffle.

(** ** Vote tally *)

Definition ballot_weight (game : GameState) (voter : Z) : Z :=
  if truthy (mayor_id game) && bool_decide (Some voter = mayor_id game)
     && bool_decide (kind (vote game) = daykill)
  then 2 else 1.

(** One round of the counting loop:
    [counts[target] = counts.get(target, 0) + weight]. *)
Definition count_ballot (game : GameState) (counts : gmap Z Z)
    (ballot : Z * Z) : gmap Z Z :=
  let '(voter, target) := ballot in
  <[target := default 0 (counts !! target) + ballot_weight game voter]> counts.

Definition count_ballots (game : GameState) (ballots : list (Z * Z)) : gmap Z Z :=
  foldl (count_ballot game) ∅ ballots.

(** [max] of a list of integers; Python raises on the empty list, which
    [tally_votes] excludes before it asks. *)
Definition max_of (l : list Z) : Z :=
  match l with
  | [] => 0
  | x :: l' => foldl Z.max x l'
  end.

Definition tally_votes (game : GameState) : option Z * gmap Z Z :=
  let counts := count_ballots game (map_to_list (votes (vote game))) in
  if bool_decide (counts = ∅) then (None, counts)
  else
    let best := max_of (map_to_list counts).*2 in
    let top := (filter (λ tc : Z * Z, tc.2 = best) (map_to_list counts)).*1 in
    match top with
    | [t] => (Some t, counts)
    | _ => (None, counts)
    end.

(** ** Death propagation

    The closure loop is written twice in the source, in [lg_finish_night]
    and in [lg_vote_end], with the same body.  The stack is a Python list
    used from its end: the head of the Rocq list is the top of the stack. *)

Definition lover_alive (players : gmap Z PlayerState) (lover : option Z) : bool :=
  truthy lover &&
  match lover with
  | Some l =>
      match players !! l with
      | Some q => alive q
      | None => false
      end
  | None => false
  end.

Fixpoint expand_loop (rounds : nat) (players : gmap Z PlayerState)
    (final : gset Z) (stack : list Z) : option (gset Z) :=
  match rounds with
  | O => None
  | S rounds' =>
      match stack with
      | [] => Some final
      | d :: stack' =>
          if bool_decide (d ∈ final) then expand_loop rounds' players final stack'
          else
            match players !! d with
            | None => expand_loop rounds' players final stack'
            | Some p =>
                if negb (alive p) then expand_loop rounds' players final stack'
                else
                  let final' := final ∪ {[d]} in
                  match lover_id p with
                  | Some lover =>
                      if lover_alive players (Some lover)
                      then expand_loop rounds' players final' (lover :: stack')
                      else expand_loop rounds' players final' stack'
                  | None => expand_loop rounds' players final' stack'
                  end
            end
      end
  end.

(** Rounds that the loop cannot exceed: a round either shortens the stack
    or finalizes one more living player without lengthening it. *)
Definition expand_rounds (players : gmap Z PlayerState) (stack : list Z) : nat :=
  (2 * size players + length stack + 1)%nat.

(** [stack = list(deaths)] followed by the loop.  Python does not fix the
    order in which a set is listed; [elements] is one such order and
    [expand_from] takes any. *)
Definition expand_from (players : gmap Z PlayerState) (stack : list Z) : gset Z :=
  default ∅ (expand_loop (expand_rounds players stack) players ∅ stack).

Definition Expand (players : gmap Z PlayerState) (deaths : gset Z) : gset Z :=
  expand_from players (reverse (elements deaths)).

(** [for d in final: game.players[d].alive = False] *)
Definition mark_dead (final : gset Z) (players : gmap Z PlayerState)
    : gmap Z PlayerState :=
  foldr (λ d m, alter (set_alive false) d m) players (elements final).

(** ** Night resolution: the body of [lg_finish_night]

    The command keeps the tentative victim in a local variable next to the
    game it mutates; each step takes and returns the pair. *)

Definition base_victim (game : GameState) : option Z :=
  let victim_id := wolf_target_id game in
  if truthy victim_id && bool_decide (protected_id game = victim_id)
  then None else victim_id.

Definition witch_heal (st : GameState * option Z) : GameState * option Z :=
  let '(game, victim_id) := st in
  if truthy (witch_heal_target_id game) && negb (witch_heal_used game) then
    let victim_id :=
      if bool_decide (victim_id = witch_heal_target_id game)
      then None else victim_id in
    (set_witch_heal_used true game, victim_id)
  else st.

Definition infect_player (p : PlayerState) : PlayerState :=
  set_infected true (set_role (Some loup_garou) p).

Definition black_infect (st : GameState * option Z) : GameState * option Z :=
  let '(game, victim_id) := st in
  let infect_id := black_infect_target_id game in
  if truthy infect_id && negb (black_infect_used game) then
    match infect_id with
    | Some i =>
        match players game !! i with
        | Some p =>
            if alive p && negb (is_wolf (role p)) then
              let game :=
                set_black_infect_used true
                  (set_players (alter infect_player i (players game)) game) in
              let victim_id :=
                if bool_decide (victim_id = infect_id) then None else victim_id in
              (game, victim_id)
            else st
        | None => st
        end
    | None => st
    end
  else st.

Definition id_set (x : option Z) : gset Z :=
  match x with
  | Some i => {[i]}
  | None => ∅
  end.

(** The wolves' victim and the poison, added to [deaths] in that order. *)
Definition direct_kills (st : GameState * option Z) : GameState * gset Z :=
  let '(game, victim_id) := st in
  let deaths : gset Z := if truthy victim_id then id_set victim_id else ∅ in
  if truthy (witch_kill_target_id game) && negb (witch_kill_used game)
  then (set_witch_kill_used true game, deaths ∪ id_set (witch_kill_target_id game))
  else (game, deaths).

(** Steps in the order of the source text: guard, heal, infection, poison. *)
Definition night_effects (game : GameState) : GameState * gset Z :=
  direct_kills (black_infect (witch_heal (game, base_victim game))).

Definition apply_deaths (game : GameState) (deaths : gset Z) : GameState * gset Z :=
  let final_deaths := Expand (players game) deaths in
  (set_players (mark_dead final_deaths (players game)) game, final_deaths).

(** Everything [lg_finish_night] does to the game once its guards passed,
    up to the victory check; also the set announced as dead. *)
Definition finish_night (game : GameState) : GameState * gset Z :=
  let '(game, deaths) := night_effects game in
  let '(game, final_deaths) := apply_deaths game deaths in
  let game := set_day (day game + 1) game in
  let game := set_phase Day game in
  (game, final_deaths).

(** ** The night as the specification numbers it (§4.3, steps 1 to 6)

    A second model of the night, written from the specification's words:
    the steps run against the [NightActions] record, in the numbered order,
    and the session they change is the game.  It shares no step with the
    model above. *)

Record NightActions : Type := {
  wolves_target : option Z;
  protect_target : option Z;
  infect_target : option Z;
  heal_target : option Z;
  poison_target : option Z
}.

(** A slot holds a target when an identity is stored in it; the identity 0,
    which no participant has, reads as an empty slot. *)
Definition submitted (slot : option Z) : option Z :=
  match slot with
  | Some i => if bool_decide (i = 0) then None else Some i
  | None => None
  end.

(** The [NightActions] record of a game. *)
Definition night_actions (game : GameState) : NightActions :=
  {| wolves_target := submitted (wolf_target_id game);
     protect_target := submitted (protected_id game);
     infect_target := submitted (black_infect_target_id game);
     heal_target := submitted (witch_heal_target_id game);
     poison_target := submitted (witch_kill_target_id game) |}.

(** Step 1: the tentative victim is the wolves' submitted target. *)
Definition spec_tentative_victim (a : NightActions) : option Z :=
  wolves_target a.

(** Step 2: the guard's protect target equals the tentative victim: the
    victim is cleared. *)
Definition spec_guard (a : NightActions) (victim : option Z) : option Z :=
  if bool_decide (protect_target a = victim) then None else victim.

(** Step 3: the infection, once per game, of a living participant who is
    not a wolf: the role becomes the base wolf role, [infected] is set, and
    a pending victim who is the target is cleared. *)
Definition spec_converted (p : PlayerState) : PlayerState :=
  {| user_id := user_id p; role := Some loup_garou; alive := alive p;
     lover_id := lover_id p; infected := true |}.

Definition spec_non_wolf (p : PlayerState) : bool :=
  bool_decide (role p ≠ Some loup_garou ∧ role p ≠ Some loup_garou_noir).

Definition spec_infection (a : NightActions) (st : GameState * option Z)
    : GameState * option Z :=
  let '(session, victim) := st in
  match infect_target a with
  | Some i =>
      if black_infect_used session then st
      else
        match players session !! i with
        | Some p =>
            if alive p && spec_non_wolf p then
              (set_black_infect_used true
                 (set_players (<[i := spec_converted p]> (players session))
                    session),
               if bool_decide (victim = Some i) then None else victim)
            else st
        | None => st
        end
  | None => st
  end.

(** Step 4: the heal, once per game: consumed whatever it changes, and the
    victim pending at this point is cleared when the heal names them. *)
Definition spec_heal (a : NightActions) (st : GameState * option Z)
    : GameState * option Z :=
  let '(session, victim) := st in
  match heal_target a with
  | Some h =>
      if witch_heal_used session then st
      else (set_witch_heal_used true session,
            if bool_decide (victim = Some h) then None else victim)
  | None => st
  end.

(** Steps 5 and 6: the poison, once per game, adds its target whatever the
    guard and the infection did; the direct kills are the victim still set
    and the poison target. *)
Definition spec_direct_kills (a : NightActions) (st : GameState * option Z)
    : GameState * gset Z :=
  let '(session, victim) := st in
  let of_victim : gset Z :=
    match victim with
    | Some v => {[v]}
    | None => ∅
    end in
  match poison_target a with
  | Some t =>
      if witch_kill_used session then (session, of_victim)
      else (set_witch_kill_used true session, of_victim ∪ {[t]})
  | None => (session, of_victim)
  end.

Definition spec_night (a : NightActions) (session : GameState)
    : GameState * gset Z :=
  spec_direct_kills a
    (spec_heal a
       (spec_infection a
          (session, spec_guard a (spec_tentative_victim a)))).

(** ** Commands

    What a handler reads from [discord.Interaction]: the guild (absent in a
    private conversation), the channel when it is a text channel, and the
    caller.

    The handlers of this part run in a guild that still has the room of the
    game, so that [channel] returns; [lg_start_in] and the handlers next to
    it below are the handlers in any guild. *)

Record Interaction : Type := {
  i_guild : option Z;
  i_text_channel : option Z;
  i_user : Z
}.

(** The refusals a handler answers with before it touches the game. *)
Inductive Rejection : Type :=
  | no_guild              (* "Serveur introuvable." *)
  | game_already_active   (* "Il y a déjà une partie active sur ce serveur." *)
  | no_game               (* "Aucune partie." *)
  | already_started       (* "La partie a déjà commencé." / "Déjà lancé." *)
  | already_joined        (* "Tu es déjà dans la partie." *)
  | not_joined            (* "Tu n'es pas dans la partie." *)
  | not_creator           (* "Seul le créateur de la partie peut ..." *)
  | bad_party_size        (* "Il faut entre 8 et 15 joueurs." *)
  | not_night             (* "Tu n'es pas en phase nuit." *)
  | not_day               (* "... se fait pendant le jour." *)
  | no_vote               (* "Aucun vote en cours." *)
  | voter_not_playing     (* "Tu n'es pas (ou plus) dans la partie." *)
  | invalid_target        (* "Cible invalide (pas dans la partie ou déjà mort)." *)
  | not_your_menu         (* "Ce menu n'est pas pour toi." *)
  | unknown_action.       (* "Action inconnue." *)

Inductive Done : Type :=
  | created | joined | left | game_started | resolving | night_applied
  | game_over | mayor_vote_open | day_vote_open | vote_recorded
  | mayor_vote_closed | vote_applied | game_stopped | choice_recorded.

Inductive Reply : Type :=
  | Rejected (why : Rejection)
  | Accepted (what : Done)
  | Raised (e : Exception).

Definition is_rejection (r : Reply) : bool :=
  match r with
  | Rejected _ => true
  | _ => false
  end.

Definition Handler : Type :=
  Interaction → gmap Z GameState → Reply * gmap Z GameState.

Definition lg_create : Handler := λ it GAMES,
  match i_guild it, i_text_channel it with
  | Some gid, Some cid =>
      match GAMES !! gid with
      | Some old =>
          if negb (bool_decide (phase old = Ended))
          then (Rejected game_already_active, GAMES)
          else (Accepted created, <[gid := new_game gid cid (i_user it)]> GAMES)
      | None => (Accepted created, <[gid := new_game gid cid (i_user it)]> GAMES)
      end
  | _, _ => (Rejected no_guild, GAMES)
  end.

Definition lg_join : Handler := λ it GAMES,
  match i_guild it with
  | None => (Rejected no_guild, GAMES)
  | Some gid =>
      match get_game GAMES gid with
      | None => (Rejected no_game, GAMES)
      | Some game =>
          if bool_decide (phase game = Ended) then (Rejected no_game, GAMES)
          else if started game then (Rejected already_started, GAMES)
          else
            let uid := i_user it in
            if contains (players game) uid then (Rejected already_joined, GAMES)
            else
              let game := set_players (<[uid := new_player uid]> (players game)) game in
              (Accepted joined, <[gid := game]> GAMES)
      end
  end.

Definition lg_leave : Handler := λ it GAMES,
  match i_guild it with
  | None => (Rejected no_guild, GAMES)
  | Some gid =>
      match get_game GAMES gid with
      | None => (Rejected no_game, GAMES)
      | Some game =>
          if bool_decide (phase game = Ended) then (Rejected no_game, GAMES)
          else if started game then (Rejected already_started, GAMES)
          else
            let uid := i_user it in
            if contains (players game) uid then
              let game := set_players (delete uid (players game)) game in
              (Accepted left, <[gid := game]> GAMES)
            else (Rejected not_joined, GAMES)
      end
  end.

(** The state part of [send_night_actions]: the night storage is reset.  The
    prompts it sends are the menus whose answers arrive through [callback]. *)
Definition send_night_actions (game : GameState) : GameState :=
  let game := set_protected_id None game in
  let game := set_seer_target_id None game in
  let game := set_wolf_target_id None game in
  let game := set_witch_heal_target_id None game in
  let game := set_witch_kill_target_id None game in
  set_black_infect_target_id None game.

(** [for (pid, pstate), role in zip(items, roles): pstate.role = role] *)
Definition assign_roles (players : gmap Z PlayerState)
    (items : list (Z * PlayerState)) (roles : list Role) : gmap Z PlayerState :=
  foldl (λ m ir, alter (set_role (Some ir.2)) ir.1.1 m) players (zip items roles).

Section Start.

Variable shuffle : ∀ A : Type, list A → list A.

Definition lg_start : Handler := λ it GAMES,
  match i_guild it with
  | None => (Rejected no_guild, GAMES)
  | Some gid =>
      match get_game GAMES gid with
      | None => (Rejected no_game, GAMES)
      | Some game =>
          if bool_decide (phase game = Ended) then (Rejected no_game, GAMES)
          else if negb (bool_decide (i_user it = created_by game))
          then (Rejected not_creator, GAMES)
          else if started game then (Rejected already_started, GAMES)
          else
            let n := Z.of_nat (size (players game)) in
            if (n <? 8) || (n >? 15) then (Rejected bad_party_size, GAMES)
            else
              match role_distribution shuffle n with
              | Raise e => (Raised e, GAMES)
              | Ok roles =>
                  let items := shuffle _ (map_to_list (players game)) in
                  let game :=
                    set_players (assign_roles (players game) items roles) game in
                  let game := set_started true game in
                  let game := set_phase Night game in
                  let game := set_day 0 game in
                  let game := send_night_actions game in
                  (Accepted game_started, <[gid := game]> GAMES)
              end
      end
  end.

End Start.

(** The Cupidon pairing, applied by every [lg_resolve_night]. *)
Definition apply_cupidon (game : GameState) : GameState :=
  if cupid_done game then
    match cupid_targets game with
    | [a; b] =>
        if contains (players game) a && contains (players game) b then
          let ps := alter (set_lover_id (Some b)) a (players game) in
          let ps := alter (set_lover_id (Some a)) b ps in
          set_players ps game
        else game
    | _ => game
    end
  else game.

Definition lg_resolve_night : Handler := λ it GAMES,
  match i_guild it with
  | None => (Rejected no_guild, GAMES)
  | Some gid =>
      match get_game GAMES gid with
      | None => (Rejected no_game, GAMES)
      | Some game =>
          if bool_decide (phase game = Ended) then (Rejected no_game, GAMES)
          else if negb (bool_decide (i_user it = created_by game))
          then (Rejected not_creator, GAMES)
          else if negb (bool_decide (phase game = Night))
          then (Rejected not_night, GAMES)
          else (Accepted resolving, <[gid := apply_cupidon game]> GAMES)
      end
  end.

Definition lg_finish_night : Handler := λ it GAMES,
  match i_guild it with
  | None => (Rejected no_guild, GAMES)
  | Some gid =>
      match get_game GAMES gid with
      | None => (Rejected no_game, GAMES)
      | Some game =>
          if bool_decide (phase game = Ended) then (Rejected no_game, GAMES)
          else if negb (bool_decide (i_user it = created_by game))
          then (Rejected not_creator, GAMES)
          else if negb (bool_decide (phase game = Night))
          then (Rejected not_night, GAMES)
          else
            let '(game, _) := finish_night game in
            match check_victory game with
            | Some _ =>
                (Accepted game_over, <[gid := set_phase Ended game]> GAMES)
            | None => (Accepted night_applied, <[gid := game]> GAMES)
            end
      end
  end.

Definition open_vote (k : VoteKind) : Handler := λ it GAMES,
  match i_guild it with
  | None => (Rejected no_guild, GAMES)
  | Some gid =>
      match get_game GAMES gid with
      | None => (Rejected no_game, GAMES)
      | Some game =>
          if bool_decide (phase game = Ended) then (Rejected no_game, GAMES)
          else if negb (bool_decide (i_user it = created_by game))
          then (Rejected not_creator, GAMES)
          else if negb (bool_decide (phase game = Day))
          then (Rejected not_day, GAMES)
          else
            let game := set_vote {| active := true; kind := k; votes := ∅ |} game in
            (Accepted (if bool_decide (k = mayor) then mayor_vote_open
                       else day_vote_open),
             <[gid := game]> GAMES)
      end
  end.

Definition lg_mayor_start : Handler := open_vote mayor.
Definition lg_dayvote_start : Handler := open_vote daykill.

Definition alive_in (players : gmap Z PlayerState) (i : Z) : bool :=
  match players !! i with
  | Some p => alive p
  | None => false
  end.

Definition lg_vote (cible : Z) : Handler := λ it GAMES,
  match i_guild it with
  | None => (Rejected no_guild, GAMES)
  | Some gid =>
      match get_game GAMES gid with
      | None => (Rejected no_game, GAMES)
      | Some game =>
          if bool_decide (phase game = Ended) then (Rejected no_game, GAMES)
          else if negb (active (vote game)) then (Rejected no_vote, GAMES)
          else if negb (alive_in (players game) (i_user it))
          then (Rejected voter_not_playing, GAMES)
          else if negb (alive_in (players game) cible)
          then (Rejected invalid_target, GAMES)
          else
            let v := vote game in
            let v := {| active := active v; kind := kind v;
                        votes := <[i_user it := cible]> (votes v) |} in
            (Accepted vote_recorded, <[gid := set_vote v game]> GAMES)
      end
  end.

Definition close_vote (v : VoteState) : VoteState :=
  {| active := false; kind := kind v; votes := votes v |}.

Definition lg_vote_end : Handler := λ it GAMES,
  match i_guild it with
  | None => (Rejected no_guild, GAMES)
  | Some gid =>
      match get_game GAMES gid with
      | None => (Rejected no_game, GAMES)
      | Some game =>
          if bool_decide (phase game = Ended) then (Rejected no_game, GAMES)
          else if negb (bool_decide (i_user it = created_by game))
          then (Rejected not_creator, GAMES)
          else if negb (active (vote game)) then (Rejected no_vote, GAMES)
          else
            let '(winner_id, _) := tally_votes game in
            let game := set_vote (close_vote (vote game)) game in
            if bool_decide (kind (vote game) = mayor) then
              let game :=
                match winner_id with
                | None => game
                | Some w => set_mayor_id (Some w) game
                end in
              (Accepted mayor_vote_closed, <[gid := game]> GAMES)
            else
              let game :=
                match winner_id with
                | None => game
                | Some w => (apply_deaths game {[w]}).1
                end in
              match check_victory game with
              | Some _ =>
                  (Accepted game_over, <[gid := set_phase Ended game]> GAMES)
              | None =>
                  let game := set_phase Night game in
                  let game := send_night_actions game in
                  (Accepted vote_applied, <[gid := game]> GAMES)
              end
      end
  end.

Definition lg_end : Handler := λ it GAMES,
  match i_guild it with
  | None => (Rejected no_guild, GAMES)
  | Some gid =>
      match get_game GAMES gid with
      | None => (Rejected no_game, GAMES)
      | Some game =>
          if negb (bool_decide (i_user it = created_by game))
          then (Rejected not_creator, GAMES)
          else (Accepted game_stopped, <[gid := set_phase Ended game]> GAMES)
      end
  end.

(** ** Night-action menus: [TargetSelect.callback]

    A menu is made for one actor and one action key and keeps the game it
    was made for.  [selected] is what the actor picked; [selected[0]] raises
    on an empty pick, which the menu's [min_values=1] excludes. *)

Inductive ActionKey : Type :=
  | seer | guard | wolves | witch_heal_key | witch_kill_key | cupidon_key
  | black_infect_key | other_key.

Definition callback (actor_id : Z) (action_key : ActionKey) (user : Z)
    (selected : list Z) (game : GameState) : Reply * GameState :=
  if negb (bool_decide (user = actor_id)) then (Rejected not_your_menu, game)
  else
    match action_key, selected with
    | cupidon_key, _ =>
        (Accepted choice_recorded,
         set_cupid_done true (set_cupid_targets selected game))
    | other_key, _ => (Rejected unknown_action, game)
    | _, [] => (Raised IndexError, game)
    | seer, x :: _ => (Accepted choice_recorded, set_seer_target_id (Some x) game)
    | guard, x :: _ => (Accepted choice_recorded, set_protected_id (Some x) game)
    | wolves, x :: _ => (Accepted choice_recorded, set_wolf_target_id (Some x) game)
    | witch_heal_key, x :: _ =>
        (Accepted choice_recorded, set_witch_heal_target_id (Some x) game)
    | witch_kill_key, x :: _ =>
        (Accepted choice_recorded, set_witch_kill_target_id (Some x) game)
    | black_infect_key, x :: _ =>
        (Accepted choice_recorded, set_black_infect_target_id (Some x) game)
    end.

(** A menu answered while its game is the one registered for the guild: the
    menu mutates the very object the registry holds. *)
Definition submit (gid actor_id : Z) (action_key : ActionKey) (user : Z)
    (selected : list Z) (GAMES : gmap Z GameState)
    : option (Reply * gmap Z GameState) :=
  game ← get_game GAMES gid;
  let '(r, game') := callback actor_id action_key user selected game in
  Some (r, <[gid := game']> GAMES).

(** ** The inbound operations as one command type *)

Inductive Command : Type :=
  | Create | Join | Leave | Start | ResolveNight | FinishNight
  | MayorStart | DayvoteStart | Vote (cible : Z) | VoteEnd.

Definition run (shuffle : ∀ A : Type, list A → list A) (c : Command) : Handler :=
  match c with
  | Create => lg_create
  | Join => lg_join
  | Leave => lg_leave
  | Start => lg_start shuffle
  | ResolveNight => lg_resolve_night
  | FinishNight => lg_finish_night
  | MayorStart => lg_mayor_start
  | DayvoteStart => lg_dayvote_start
  | Vote cible => lg_vote cible
  | VoteEnd => lg_vote_end
  end.

(** ** The room of the game: [channel]

    [channel(game, guild)] asks the guild for the channel the game was
    created in and asserts that it is a text channel.  [rooms] is the set
    of text channels the guild of the interaction has when the command
    runs; the room of a game is missing from it once the channel is
    deleted.  The handlers below place the lookup where the source has it:
    before anything is written in [lg_resolve_night], [lg_finish_night] and
    [lg_vote_end], after the writes in [lg_start], [lg_mayor_start],
    [lg_dayvote_start] and [lg_end].  The game is mutated in place, so what
    a handler wrote before the [assert] failed stays in the registry. *)

Definition channel (game : GameState) (rooms : gset Z) : result Z :=
  if bool_decide (channel_id game ∈ rooms) then Ok (channel_id game)
  else Raise AssertionError.

Section StartIn.

Variable shuffle : ∀ A : Type, list A → list A.

Definition lg_start_in (rooms : gset Z) : Handler := λ it GAMES,
  match i_guild it with
  | None => (Rejected no_guild, GAMES)
  | Some gid =>
      match get_game GAMES gid with
      | None => (Rejected no_game, GAMES)
      | Some game =>
          if bool_decide (phase game = Ended) then (Rejected no_game, GAMES)
          else if negb (bool_decide (i_user it = created_by game))
          then (Rejected not_creator, GAMES)
          else if started game then (Rejected already_started, GAMES)
          else
            let n := Z.of_nat (size (players game)) in
            if (n <? 8) || (n >? 15) then (Rejected bad_party_size, GAMES)
            else
              match role_distribution shuffle n with
              | Raise e => (Raised e, GAMES)
              | Ok roles =>
                  let items := shuffle _ (map_to_list (players game)) in
                  let game :=
                    set_players (assign_roles (players game) items roles) game in
                  let game := set_started true game in
                  let game := set_phase Night game in
                  let game := set_day 0 game in
                  match channel game rooms with
                  | Raise e => (Raised e, <[gid := game]> GAMES)
                  | Ok _ =>
                      let game := send_night_actions game in
                      (Accepted game_started, <[gid := game]> GAMES)
                  end
              end
      end
  end.

End StartIn.

Definition lg_resolve_night_in (rooms : gset Z) : Handler := λ it GAMES,
  match i_guild it with
  | None => (Rejected no_guild, GAMES)
  | Some gid =>
      match get_game GAMES gid with
      | None => (Rejected no_game, GAMES)
      | Some game =>
          if bool_decide (phase game = Ended) then (Rejected no_game, GAMES)
          else if negb (bool_decide (i_user it = created_by game))
          then (Rejected not_creator, GAMES)
          else if negb (bool_decide (phase game = Night))
          then (Rejected not_night, GAMES)
          else
            match channel game rooms with
            | Raise e => (Raised e, GAMES)
            | Ok _ => (Accepted resolving, <[gid := apply_cupidon game]> GAMES)
            end
      end
  end.

Definition lg_finish_night_in (rooms : gset Z) : Handler := λ it GAMES,
  match i_guild it with
  | None => (Rejected no_guild, GAMES)
  | Some gid =>
      match get_game GAMES gid with
      | None => (Rejected no_game, GAMES)
      | Some game =>
          if bool_decide (phase game = Ended) then (Rejected no_game, GAMES)
          else if negb (bool_decide (i_user it = created_by game))
          then (Rejected not_creator, GAMES)
          else if negb (bool_decide (phase game = Night))
          then (Rejected not_night, GAMES)
          else
            match channel game rooms with
            | Raise e => (Raised e, GAMES)
            | Ok _ =>
                let '(game, _) := finish_night game in
                match check_victory game with
                | Some _ =>
                    (Accepted game_over, <[gid := set_phase Ended game]> GAMES)
                | None => (Accepted night_applied, <[gid := game]> GAMES)
                end
            end
      end
  end.

Definition open_vote_in (k : VoteKind) (rooms : gset Z) : Handler :=
  λ it GAMES,
  match i_guild it with
  | None => (Rejected no_guild, GAMES)
  | Some gid =>
      match get_game GAMES gid with
      | None => (Rejected no_game, GAMES)
      | Some game =>
          if bool_decide (phase game = Ended) then (Rejected no_game, GAMES)
          else if negb (bool_decide (i_user it = created_by game))
          then (Rejected not_creator, GAMES)
          else if negb (bool_decide (phase game = Day))
          then (Rejected not_day, GAMES)
          else
            let game := set_vote {| active := true; kind := k; votes := ∅ |} game in
            match channel game rooms with
            | Raise e => (Raised e, <[gid := game]> GAMES)
            | Ok _ =>
                (Accepted (if bool_decide (k = mayor) then mayor_vote_open
                           else day_vote_open),
                 <[gid := game]> GAMES)
            end
      end
  end.

Definition lg_mayor_start_in : gset Z → Handler := open_vote_in mayor.
Definition lg_dayvote_start_in : gset Z → Handler := open_vote_in daykill.

Definition lg_vote_end_in (rooms : gset Z) : Handler := λ it GAMES,
  match i_guild it with
  | None => (Rejected no_guild, GAMES)
  | Some gid =>
      match get_game GAMES gid with
      | None => (Rejected no_game, GAMES)
      | Some game =>
          if bool_decide (phase game = Ended) then (Rejected no_game, GAMES)
          else if negb (bool_decide (i_user it = created_by game))
          then (Rejected not_creator, GAMES)
          else if negb (active (vote game)) then (Rejected no_vote, GAMES)
          else
            match channel game rooms with
            | Raise e => (Raised e, GAMES)
            | Ok _ =>
                let '(winner_id, _) := tally_votes game in
                let game := set_vote (close_vote (vote game)) game in
                if bool_decide (kind (vote game) = mayor) then
                  let game :=
                    match winner_id with
                    | None => game
                    | Some w => set_mayor_id (Some w) game
                    end in
                  (Accepted mayor_vote_closed, <[gid := game]> GAMES)
                else
                  let game :=
                    match winner_id with
                    | None => game
                    | Some w => (apply_deaths game {[w]}).1
                    end in
                  match check_victory game with
                  | Some _ =>
                      (Accepted game_over, <[gid := set_phase Ended game]> GAMES)
                  | None =>
                      let game := set_phase Night game in
                      let game := send_night_actions game in
                      (Accepted vote_applied, <[gid := game]> GAMES)
                  end
            end
      end
  end.

Definition lg_end_in (rooms : gset Z) : Handler := λ it GAMES,
  match i_guild it with
  | None => (Rejected no_guild, GAMES)
  | Some gid =>
      match get_game GAMES gid with
      | None => (Rejected no_game, GAMES)
      | Some game =>
          if negb (bool_decide (i_user it = created_by game))
          then (Rejected not_creator, GAMES)
          else
            let game := set_phase Ended game in
            match channel game rooms with
            | Raise e => (Raised e, <[gid := game]> GAMES)
            | Ok _ => (Accepted game_stopped, <[gid := game]> GAMES)
            end
      end
  end.

Definition run_in (shuffle : ∀ A : Type, list A → list A) (rooms : gset Z)
    (c : Command) : Handler :=
  match c with
  | Create => lg_create
  | Join => lg_join
  | Leave => lg_leave
  | Start => lg_start_in shuffle rooms
  | ResolveNight => lg_resolve_night_in rooms
  | FinishNight => lg_finish_night_in rooms
  | MayorStart => lg_mayor_start_in rooms
  | DayvoteStart => lg_dayvote_start_in rooms
  | Vote cible => lg_vote cible
  | VoteEnd => lg_vote_end_in rooms
  end.

(** The guild of the interaction still has the room of its game. *)
Definition room_found (rooms : gset Z) (it : Interaction)
    (GAMES : gmap Z GameState) : Prop :=
  ∀ gid game,
    i_guild it = Some gid → GAMES !! gid = Some game →
    channel_id game ∈ rooms.

Definition is_accepted (r : Reply) : bool :=
  match r with
  | Accepted _ => true
  | _ => false
  end.

(** ** Notions the statements below are phrased with *)

(** How often a role occurs in a distribution. *)
Definition count (r : Role) (roles : list Role) : Z :=
  Z.of_nat (count_occ Role_eq_dec roles r).

(** A tracked participant who is alive. *)
Definition living (players : gmap Z PlayerState) (i : Z) : Prop :=
  ∃ p, players !! i = Some p ∧ alive p = true.

(** [l] is the bonded partner recorded for [d]. *)
Definition bonded (players : gmap Z PlayerState) (d l : Z) : Prop :=
  ∃ p, players !! d = Some p ∧ lover_id p = Some l.

(** Identities reachable from the direct kills [D] through chains of living
    bonded partners. *)
Inductive reach (players : gmap Z PlayerState) (D : gset Z) : Z → Prop :=
  | reach_direct d :
      d ∈ D → living players d → reach players D d
  | reach_bond d l :
      reach players D d → bonded players d l → living players l →
      reach players D l.

(** The walk the loop makes: like [reach], with the truth test the source
    applies to the partner's identity before it follows the bond. *)
Inductive chain (players : gmap Z PlayerState) (D : gset Z) : Z → Prop :=
  | chain_direct d :
      d ∈ D → living players d → chain players D d
  | chain_bond d l :
      chain players D d → bonded players d l → living players l → l ≠ 0 →
      chain players D l.

(** Living participants not finalized yet: what the loop can still add. *)
Definition pending (players : gmap Z PlayerState) (final : gset Z) : gset Z :=
  dom (filter (λ kp : Z * PlayerState, alive kp.2 = true) players) ∖ final.

(** Discord never hands out the identity 0, the one integer Python's truth
    test takes for an absent value. *)
Definition no_zero_id (players : gmap Z PlayerState) : Prop :=
  players !! 0 = None.

(** What the poison adds to the direct kills: its target, when one was
    submitted and the potion is still there. *)
Definition poison_of (game : GameState) : gset Z :=
  if truthy (witch_kill_target_id game) && negb (witch_kill_used game)
  then id_set (witch_kill_target_id game) else ∅.

(** The living participants of one faction: the wolves ([wolf = true]) or
    everybody else. *)
Definition living_of_faction (wolf : bool) (game : GameState)
    : gmap Z PlayerState :=
  filter (λ kp : Z * PlayerState,
            alive kp.2 = true ∧ is_wolf (role kp.2) = wolf) (players game).

(** The total weight of the ballots cast for [t], summed over the voters. *)
Definition total_in (game : GameState) (ballots : list (Z * Z)) (t : Z) : Z :=
  foldr Z.add 0
    ((λ b : Z * Z, ballot_weight game b.1)
       <$> filter (λ b : Z * Z, b.2 = t) ballots).

Definition ballot_total (game : GameState) (t : Z) : Z :=
  total_in game (map_to_list (votes (vote game))) t.

(** ** Sessions used to exercise the statements *)

Definition player (uid : Z) (r : Role) (a : bool) (lover : option Z)
    : PlayerState :=
  {| user_id := uid; role := Some r; alive := a; lover_id := lover;
     infected := false |}.

(** A started game of guild 1, created by 101, in its night phase. *)
Definition night_game (ps : list PlayerState) : GameState :=
  set_players (list_to_map ((λ p, (user_id p, p)) <$> ps))
    (set_started true (set_phase Night (new_game 1 2 101))).

Definition table8 : list PlayerState :=
  [ player 101 voyante true None; player 102 sorciere true None;
    player 103 garde true None; player 104 chasseur true None;
    player 105 cupidon true None; player 106 loup_garou true None;
    player 107 loup_garou_noir true None; player 108 villageois true None ].

(** A command typed by [u] in the text channel 2 of guild 1; 101 created
    the game. *)
Definition caller (u : Z) : Interaction :=
  {| i_guild := Some 1; i_text_channel := Some 2; i_user := u |}.

Definition owner_call : Interaction := caller 101.

(** Players 1 and 2 are bonded and alive, 3 and 4 are bonded and 4 is dead. *)
Definition bonded_players : gmap Z PlayerState :=
  list_to_map ((λ p, (user_id p, p)) <$>
    [ player 1 villageois true (Some 2); player 2 loup_garou true (Some 1);
      player 3 voyante true (Some 4); player 4 garde false (Some 3) ]).

(** The wolves and the black wolf both pick the villager 108. *)
Definition infection_night : GameState :=
  set_black_infect_target_id (Some 108)
    (set_wolf_target_id (Some 108) (night_game table8)).

(** The same night, with the witch poisoning 108 as well. *)
Definition infected_and_poisoned : GameState :=
  set_witch_kill_target_id (Some 108) infection_night.

(** The wolves pick 108 and the witch heals 108. *)
Definition heal_night : GameState :=
  set_witch_heal_target_id (Some 108)
    (set_wolf_target_id (Some 108) (night_game table8)).

(** The hunter 104 is already dead; the witch poisons him and the wolves
    pick 108. *)
Definition poison_dead_night : GameState :=
  set_witch_kill_target_id (Some 104)
    (set_wolf_target_id (Some 108)
       (night_game
          [ player 101 voyante true None; player 102 sorciere true None;
            player 103 garde true None; player 104 chasseur false None;
            player 105 cupidon true None; player 106 loup_garou true None;
            player 107 loup_garou_noir true None;
            player 108 villageois true None ])).

(** Votes of a day: [ballots] maps each voter to the target of the ballot. *)
Definition vote_round (k : VoteKind) (mayor_ : option Z)
    (ballots : list (Z * Z)) : GameState :=
  set_mayor_id mayor_
    (set_vote {| active := true; kind := k; votes := list_to_map ballots |}
       (set_phase Day (night_game table8))).

(** Create, eight joins and start in guild 1, the shuffle leaving every
    list as it is: 102 is dealt the Cupidon. *)
Definition first_night : gmap Z GameState :=
  let GAMES := (lg_create (caller 101) ∅).2 in
  let GAMES :=
    foldl (λ G u, (lg_join (caller u) G).2) GAMES
      [101; 102; 103; 104; 105; 106; 107; 108] in
  (lg_start (λ _ l, l) (caller 101) GAMES).2.

(** The Cupidon 102 answers the menu sent on the first night. *)
Definition answer_cupidon (selected : list Z) (GAMES : gmap Z GameState)
    : gmap Z GameState :=
  match submit 1 102 cupidon_key 102 selected GAMES with
  | Some (_, GAMES') => GAMES'
  | None => GAMES
  end.

(** Two answers, each followed by [lg_resolve_night], in the first night. *)
Definition rebound_night : gmap Z GameState :=
  let GAMES := answer_cupidon [101; 103] first_night in
  let GAMES := (lg_resolve_night (caller 101) GAMES).2 in
  let GAMES := answer_cupidon [101; 104] GAMES in
  (lg_resolve_night (caller 101) GAMES).2.

(** Two living wolves, two living villagers and a dead guard. *)
Definition two_against_two : GameState :=
  night_game [ player 101 loup_garou true None; player 102 loup_garou true None;
               player 103 voyante true None; player 104 villageois true None;
               player 105 garde false None ].

(** ** The accepted branch of each command, as a function on the game

    What a handler writes back once all its guards have passed.  The
    lemmas of the last part show that each handler either refuses and
    returns the registry, or registers the game given here. *)

Definition join_game (uid : Z) (game : GameState) : GameState :=
  set_players (<[uid := new_player uid]> (players game)) game.

Definition leave_game (uid : Z) (game : GameState) : GameState :=
  set_players (delete uid (players game)) game.

Definition start_game (shuffle : ∀ A : Type, list A → list A)
    (game : GameState) : GameState :=
  let n := Z.of_nat (size (players game)) in
  let roles := shuffle Role (role_table n) in
  let items := shuffle _ (map_to_list (players game)) in
  let game := set_players (assign_roles (players game) items roles) game in
  let game := set_started true game in
  let game := set_phase Night game in
  let game := set_day 0 game in
  send_night_actions game.

(** What [lg_start] has written when it looks up the room: the roles, the
    start and the first night, the night storage not yet reset. *)
Definition deal_game (shuffle : ∀ A : Type, list A → list A)
    (game : GameState) : GameState :=
  let n := Z.of_nat (size (players game)) in
  let roles := shuffle Role (role_table n) in
  let items := shuffle _ (map_to_list (players game)) in
  let game := set_players (assign_roles (players game) items roles) game in
  let game := set_started true game in
  let game := set_phase Night game in
  set_day 0 game.

Definition finish_game (game : GameState) : GameState :=
  let game := (finish_night game).1 in
  match check_victory game with
  | Some _ => set_phase Ended game
  | None => game
  end.

Definition open_vote_game (k : VoteKind) (game : GameState) : GameState :=
  set_vote {| active := true; kind := k; votes := ∅ |} game.

Definition cast_vote (voter cible : Z) (game : GameState) : GameState :=
  let v := vote game in
  set_vote {| active := active v; kind := kind v;
              votes := <[voter := cible]> (votes v) |} game.

Definition vote_end_game (game : GameState) : GameState :=
  let winner_id := (tally_votes game).1 in
  let game := set_vote (close_vote (vote game)) game in
  if bool_decide (kind (vote game) = mayor) then
    match winner_id with
    | None => game
    | Some w => set_mayor_id (Some w) game
    end
  else
    let game :=
      match winner_id with
      | None => game
      | Some w => (apply_deaths game {[w]}).1
      end in
    match check_victory game with
    | Some _ => set_phase Ended game
    | None => send_night_actions (set_phase Night game)
    end.

(** One accepted operation on a game that stays registered: a command, the
    forced end, or an answered menu. *)
Inductive game_step : GameState → GameState → Prop :=
  | gs_join uid g :
      started g = false → phase g ≠ Ended → players g !! uid = None →
      game_step g (join_game uid g)
  | gs_leave uid g :
      started g = false → phase g ≠ Ended → is_Some (players g !! uid) →
      game_step g (leave_game uid g)
  | gs_start shuffle g :
      started g = false → phase g ≠ Ended →
      8 ≤ Z.of_nat (size (players g)) ≤ 15 →
      game_step g (start_game shuffle g)
  | gs_resolve_night g :
      phase g = Night → game_step g (apply_cupidon g)
  | gs_finish_night g :
      phase g = Night → game_step g (finish_game g)
  | gs_open_vote k g :
      phase g = Day → k ≠ kind_unset → game_step g (open_vote_game k g)
  | gs_vote voter cible g :
      phase g ≠ Ended → active (vote g) = true →
      alive_in (players g) voter = true → alive_in (players g) cible = true →
      game_step g (cast_vote voter cible g)
  | gs_vote_end g :
      phase g ≠ Ended → active (vote g) = true →
      game_step g (vote_end_game g)
  | gs_end g :
      game_step g (set_phase Ended g)
  | gs_menu actor_id action_key selected what g :
      (callback actor_id action_key actor_id selected g).1 = Accepted what →
      game_step g (callback actor_id action_key actor_id selected g).2.

(** One operation on the registry of games. *)
Inductive step (GAMES : gmap Z GameState) : gmap Z GameState → Prop :=
  | step_command shuffle c it :
      step GAMES (run shuffle c it GAMES).2
  | step_end it :
      step GAMES (lg_end it GAMES).2
  | step_menu gid actor_id action_key user selected r GAMES' :
      submit gid actor_id action_key user selected GAMES = Some (r, GAMES') →
      step GAMES GAMES'.

(** The registries the bot can be in, starting with no game at all. *)
Definition reachable (GAMES : gmap Z GameState) : Prop := rtc step ∅ GAMES.

(** What every registered game satisfies. *)
Record game_inv (g : GameState) : Prop := {
  inv_user_id : ∀ i p, players g !! i = Some p → user_id p = i;
  inv_started : phase g = Night ∨ phase g = Day → started g = true;
  inv_lobby : phase g = Lobby → started g = false;
  inv_day : 0 ≤ day g;
  inv_fresh :
    started g = false → ∀ i p, players g !! i = Some p → p = new_player i;
  inv_vote :
    active (vote g) = true →
    (phase g = Day ∨ phase g = Ended) ∧ started g = true ∧
    ∀ v t, votes (vote g) !! v = Some t →
           living (players g) v ∧ living (players g) t;
  inv_mayor :
    ∀ m, mayor_id g = Some m → started g = true ∧ is_Some (players g !! m)
}.

(** A registry step seen from one guild: nothing, one [game_step], or a new
    lobby. *)
Definition steps_game (G G' : gmap Z GameState) : Prop :=
  G' = G ∨
  ∃ gid g g', G !! gid = Some g ∧ game_step g g' ∧ G' = <[gid := g']> G.

(** Two player records that differ at most in role and infection. *)
Definition same_person (p p' : PlayerState) : Prop :=
  user_id p' = user_id p ∧ alive p' = alive p ∧ lover_id p' = lover_id p.

(** ** Menus: the options of [TargetSelect]

    [items] is [game.players.items()] in the order the dictionary keeps;
    an entry is offered unless one of the two [continue] tests skips it. *)
Definition offered (actor_id : Z) (allow_self only_alive : bool)
    (kp : Z * PlayerState) : bool :=
  negb (only_alive && negb (alive kp.2)) &&
  negb (negb allow_self && bool_decide (kp.1 = actor_id)).

Definition select_options (items : list (Z * PlayerState)) (actor_id : Z)
    (allow_self only_alive : bool) : list Z :=
  take 25 (filter (λ kp, offered actor_id allow_self only_alive kp = true)
             items).*1.

(** ** More sessions used to exercise the statements *)

(** Guild 1 with a lobby of seven, of eight, and the eight after the
    first night in which nobody acted. *)
Definition lobby_of (uids : list Z) : gmap Z GameState :=
  foldl (λ G u, (lg_join (caller u) G).2) (lg_create (caller 101) ∅).2 uids.

Definition lobby7 : gmap Z GameState :=
  lobby_of [101; 102; 103; 104; 105; 106; 107].

Definition lobby8 : gmap Z GameState :=
  lobby_of [101; 102; 103; 104; 105; 106; 107; 108].

Definition first_day : gmap Z GameState :=
  (lg_finish_night (caller 101) first_night).2.

(** The votes of [ballots], cast one after the other. *)
Definition cast_all (ballots : list (Z * Z)) (G : gmap Z GameState)
    : gmap Z GameState :=
  foldl (λ G b, (lg_vote b.2 (caller b.1) G).2) G ballots.

(** The first day: 103 is elected mayor, then an elimination vote is open
    in which the mayor and 101 vote against the wolf 106 and 102 against
    104. *)
Definition mayor_round : gmap Z GameState :=
  cast_all [(101, 103); (102, 103); (104, 105)]
    (lg_mayor_start (caller 101) first_day).2.

Definition mayor_elected : gmap Z GameState :=
  (lg_vote_end (caller 101) mayor_round).2.

Definition day_round : gmap Z GameState :=
  cast_all [(101, 106); (103, 106); (102, 104)]
    (lg_dayvote_start (caller 101) mayor_elected).2.

(** The game registered for guild 1. *)
Definition game_of (G : gmap Z GameState) : GameState :=
  default (new_game 0 0 0) (G !! 1).

(** The wolves pick 108 and nobody else acts; the same with the guard
    protecting 108. *)
Definition plain_night : GameState :=
  set_wolf_target_id (Some 108) (night_game table8).

Definition guarded_night : GameState :=
  set_protected_id (Some 108) plain_night.

(** The first day with the mayor election open and no ballot yet, and an
    elimination vote split 2-2 between 104 and 106. *)
Definition mayor_open : gmap Z GameState :=
  (lg_mayor_start (caller 101) first_day).2.

Definition tie_round : gmap Z GameState :=
  cast_all [(101, 106); (102, 106); (105, 104); (107, 104)]
    (lg_dayvote_start (caller 101) first_day).2.

(** The morning after [heal_night] and after [infection_night]. *)
Definition healed_morning : gmap Z GameState :=
  (lg_finish_night owner_call {[1 := heal_night]}).2.

Definition infected_morning : gmap Z GameState :=
  (lg_finish_night owner_call {[1 := infection_night]}).2.

(** * Properties *)

(** ** Role distribution *)

Lemma role_table_cases (n : Z) :
  8 ≤ n ≤ 15 →
  n = 8 ∨ n = 9 ∨ n = 10 ∨ n = 11 ∨ n = 12 ∨ n = 13 ∨ n = 14 ∨ n = 15.
Proof. lia. Qed.

Lemma count_shuffle (shuffle : ∀ A : Type, list A → list A) (r : Role)
    (roles : list Role) :
  (∀ A (l : list A), shuffle A l ≡ₚ l) →
  count r (shuffle Role roles) = count r roles.
Proof.
  intros Hperm. unfold count. f_equal.
  by apply Permutation_count_occ, Hperm.
Qed.

Lemma length_shuffle (shuffle : ∀ A : Type, list A → list A) {A : Type}
    (l : list A) :
  (∀ A (l : list A), shuffle A l ≡ₚ l) →
  length (shuffle A l) = length l.
Proof. intros Hperm. apply Permutation_length, Hperm. Qed.

Ltac eval_role_table :=
  repeat match goal with
  | |- context [count ?r (role_table ?n)] =>
      let v := eval vm_compute in (count r (role_table n)) in
      change (count r (role_table n)) with v
  | |- context [length (role_table ?n)] =>
      let v := eval vm_compute in (length (role_table n)) in
      change (length (role_table n)) with v
  end.

(** C2. [role_distribution n] raises exactly when [n < 8] or [n > 15];
    for [8 <= n <= 15] it returns [n] roles: one each of voyante, garde,
    chasseur, cupidon and sorciere; two plain wolves and no black wolf up to
    9 players, two plain wolves and the black wolf from 10 to 12, three
    plain wolves and the black wolf from 13 on; one petite fille exactly
    from 10 players on; villageois in all the remaining slots. *)
Theorem role_distribution_spec (shuffle : ∀ A : Type, list A → list A) (n : Z) :
  (∀ A (l : list A), shuffle A l ≡ₚ l) →
  (role_distribution shuffle n = Raise ValueError ↔ n < 8 ∨ n > 15) ∧
  (8 ≤ n ≤ 15 →
   ∃ roles,
     role_distribution shuffle n = Ok roles ∧
     Z.of_nat (length roles) = n ∧
     count voyante roles = 1 ∧ count garde roles = 1 ∧
     count chasseur roles = 1 ∧ count cupidon roles = 1 ∧
     count sorciere roles = 1 ∧
     (n ≤ 9 → count loup_garou roles = 2 ∧ count loup_garou_noir roles = 0) ∧
     (10 ≤ n ≤ 12 →
      count loup_garou roles = 2 ∧ count loup_garou_noir roles = 1) ∧
     (13 ≤ n → count loup_garou roles = 3 ∧ count loup_garou_noir roles = 1) ∧
     (count petite_fille roles = 1 ↔ 10 ≤ n) ∧
     count petite_fille roles = (if 10 <=? n then 1 else 0) ∧
     count villageois roles =
       n - 5 - count loup_garou roles - count loup_garou_noir roles
         - count petite_fille roles).
Proof.
  intros Hperm. split.
  - unfold role_distribution.
    destruct ((n <? 8) || (n >? 15)) eqn:E.
    + split; [lia | done].
    + split; [done | lia].
  - intros Hn. exists (shuffle Role (role_table n)).
    unfold role_distribution.
    replace ((n <? 8) || (n >? 15)) with false by lia.
    split; [done |].
    rewrite (length_shuffle shuffle _ Hperm), !(count_shuffle shuffle _ _ Hperm).
    destruct (role_table_cases n Hn) as [->|[->|[->|[->|[->|[->|[->| ->]]]]]]];
      eval_role_table; repeat split; intros; try lia; try done.
Qed.

(** The distribution at 8 players, with list reversal as the shuffle. *)
Lemma role_distribution_spec_witness :
  (∀ A (l : list A), rev l ≡ₚ l) ∧
  ∃ roles,
    role_distribution (λ A, @rev A) 8 = Ok roles ∧
    Z.of_nat (length roles) = 8 ∧ count loup_garou roles = 2 ∧
    count villageois roles = 1.
Proof.
  assert (Hrev : ∀ A (l : list A), rev l ≡ₚ l).
  { intros A l. symmetry. apply Permutation_rev. }
  split; [exact Hrev |].
  destruct (role_distribution_spec (λ A, @rev A) 8 Hrev) as [_ H].
  destruct H as (roles & Hd & Hlen & _ & _ & _ & _ & _ & Hw & _ & _ & _ & Hpf & Hv);
    [lia |].
  exists roles. destruct Hw as [Hw Hb]; [lia |].
  repeat split; try done. rewrite Hv, Hw, Hb, Hpf. reflexivity.
Defined.

(** ** Victory evaluation *)

(** The two sums of [check_victory] count the living participants of each
    faction. *)
Lemma size_filter_values (Q : PlayerState → Prop)
    (HQ : ∀ p, Decision (Q p)) (HQ' : ∀ kp : Z * PlayerState, Decision (Q kp.2))
    (m : gmap Z PlayerState) :
  size (filter (λ kp : Z * PlayerState, Q kp.2) m)
  = length (filter Q (map_to_list m).*2).
Proof.
  rewrite <- length_map_to_list, map_filter_alt.
  rewrite map_to_list_to_map.
  2:{ eapply sublist_NoDup; [apply (NoDup_fst_map_to_list m) |].
      apply fmap_sublist, sublist_filter. }
  induction (map_to_list m) as [|[k p] l IH]; [done |].
  rewrite fmap_cons, !filter_cons. simpl.
  unfold decide.
  destruct (HQ' (k, p)), (HQ p); simpl in *; try done.
  all: by rewrite IH.
Qed.

Lemma living_wolves_size (game : GameState) :
  living_wolves game = Z.of_nat (size (living_of_faction true game)) ∧
  living_others game = Z.of_nat (size (living_of_faction false game)).
Proof.
  unfold living_wolves, living_others, living_of_faction, player_values.
  rewrite !list_filter_filter.
  split; f_equal; symmetry.
  - etrans; [apply (size_filter_values
                      (λ p, alive p = true ∧ is_wolf (role p) = true) _) |].
    f_equal. apply list_filter_iff. intros p. tauto.
  - etrans; [apply (size_filter_values
                      (λ p, alive p = true ∧ is_wolf (role p) = false) _) |].
    f_equal. apply list_filter_iff. intros p. tauto.
Qed.

(** C7. In a started session [check_victory] announces the village exactly
    when no wolf is alive, the wolves exactly when the living wolves are at
    least as many as the living others and at least one, and nobody
    otherwise; so 2 wolves against 2 others is a wolves' win, no wolf is a
    village win, and 3 wolves against 4 others is no win yet. *)
Theorem check_victory_spec (game : GameState) :
  started game = true →
  let wolves := Z.of_nat (size (living_of_faction true game)) in
  let others := Z.of_nat (size (living_of_faction false game)) in
  (check_victory game = Some village_wins ↔ wolves = 0) ∧
  (check_victory game = Some wolves_win ↔ others ≤ wolves ∧ 0 < wolves) ∧
  (check_victory game = None ↔
     wolves ≠ 0 ∧ ¬ (others ≤ wolves ∧ 0 < wolves)) ∧
  (wolves = 2 → others = 2 → check_victory game = Some wolves_win) ∧
  (wolves = 3 → others = 4 → check_victory game = None).
Proof.
  intros Hs. destruct (living_wolves_size game) as [Hw Ho].
  cbn zeta. rewrite <- Hw, <- Ho.
  unfold check_victory. rewrite Hs, !andb_true_r.
  destruct (living_wolves game =? 0) eqn:E0;
    destruct (living_wolves game >=? living_others game) eqn:E1;
    destruct (living_wolves game >? 0) eqn:E2; simpl;
    repeat split; intros; try done; try lia;
    match goal with H : _ ∧ _ |- _ => destruct H end; try lia.
Qed.

Lemma check_victory_spec_witness :
  started two_against_two = true ∧
  size (living_of_faction true two_against_two) = 2%nat ∧
  size (living_of_faction false two_against_two) = 2%nat ∧
  check_victory two_against_two = Some wolves_win.
Proof.
  assert (Hs : started two_against_two = true) by reflexivity.
  destruct (check_victory_spec two_against_two Hs) as (_ & _ & _ & H22 & _).
  split; [exact Hs |]. split; [reflexivity |]. split; [reflexivity |].
  apply H22; reflexivity.
Defined.

(** ** Order of the night effects *)

Lemma witch_heal_black_infect_commute (st : GameState * option Z) :
  black_infect (witch_heal st) = witch_heal (black_infect st).
Proof.
  destruct st as [game victim_id]. unfold witch_heal, black_infect.
  destruct game as [? ? ? ? ? ? ps ? ? ? ? hu ? ht ? ? ? iu it ?]; simpl.
  destruct (truthy ht && negb hu) eqn:Eh; simpl; rewrite ?Eh;
    destruct (truthy it && negb iu) eqn:Ei; simpl; rewrite ?Eh; try done.
  all: destruct it as [i|]; [| done].
  all: destruct (ps !! i) as [p|]; simpl; rewrite ?Eh; [| done].
  all: destruct (alive p && negb (is_wolf (role p))); simpl; rewrite ?Eh;
    [| done].
  all: unfold set_black_infect_used, set_players, set_witch_heal_used; simpl.
  all: f_equal; repeat case_bool_decide; congruence.
Qed.

Lemma witch_heal_kill_fields (st : GameState * option Z) :
  witch_kill_target_id (witch_heal st).1 = witch_kill_target_id st.1 ∧
  witch_kill_used (witch_heal st).1 = witch_kill_used st.1.
Proof.
  destruct st as [game v]. unfold witch_heal.
  by destruct (truthy (witch_heal_target_id game) && negb (witch_heal_used game)).
Qed.

Lemma black_infect_kill_fields (st : GameState * option Z) :
  witch_kill_target_id (black_infect st).1 = witch_kill_target_id st.1 ∧
  witch_kill_used (black_infect st).1 = witch_kill_used st.1.
Proof.
  destruct st as [game v]. unfold black_infect.
  repeat case_match; done.
Qed.

(** The steps of the source against the steps of the specification.  The
    source keeps the wolves' target in [victim_id] even when it is the
    identity 0 and never adds it; the specification has no victim then. *)

Lemma submitted_truthy (x : option Z) :
  submitted x = if truthy x then x else None.
Proof.
  destruct x as [i|]; [| done]. unfold truthy, submitted.
  case_bool_decide as Hi; [by subst |].
  by rewrite (proj2 (Z.eqb_neq i 0) Hi).
Qed.

Lemma submitted_Some (x : option Z) (i : Z) :
  submitted x = Some i ↔ x = Some i ∧ i ≠ 0.
Proof.
  destruct x as [j|]; unfold submitted; [| naive_solver].
  case_bool_decide; naive_solver.
Qed.

Lemma base_victim_spec (game : GameState) :
  submitted (base_victim game)
  = spec_guard (night_actions game) (spec_tentative_victim (night_actions game)).
Proof.
  unfold base_victim, spec_guard, spec_tentative_victim, night_actions.
  cbn [wolves_target protect_target].
  destruct (wolf_target_id game) as [v|] eqn:Hv; cbn [truthy andb];
    [| by case_bool_decide].
  destruct (decide (v = 0)) as [-> | Hv0].
  { assert (submitted (Some 0) = None) as -> by done.
    cbn [Z.eqb negb andb]. assert (submitted (Some 0) = None) as -> by done.
    by case_bool_decide. }
  rewrite (proj2 (Z.eqb_neq v 0) Hv0). cbn [negb andb].
  assert (Hsv : submitted (Some v) = Some v) by by apply submitted_Some.
  rewrite Hsv.
  case_bool_decide as Hp.
  - rewrite Hp, Hsv. by rewrite bool_decide_eq_true_2.
  - rewrite Hsv. rewrite bool_decide_eq_false_2; [done |].
    intros H. apply submitted_Some in H as [H _]. done.
Qed.

Lemma witch_heal_spec (game : GameState) (v : option Z) :
  ((witch_heal (game, v)).1, submitted (witch_heal (game, v)).2)
  = spec_heal (night_actions game) (game, submitted v) ∧
  night_actions (witch_heal (game, v)).1 = night_actions game.
Proof.
  unfold witch_heal, spec_heal, night_actions at 1. cbn [heal_target].
  destruct (witch_heal_target_id game) as [h|] eqn:Hh; cbn [truthy andb];
    [| done].
  destruct (decide (h = 0)) as [-> | Hh0]; [done |].
  rewrite (proj2 (Z.eqb_neq h 0) Hh0). cbn [negb andb].
  assert (submitted (Some h) = Some h) as -> by by apply submitted_Some.
  destruct (witch_heal_used game) eqn:Hu; cbn [negb fst snd]; [done |].
  split; [| by unfold night_actions].
  f_equal. case_bool_decide as Hv.
  - subst v. rewrite bool_decide_eq_true_2; [done | by apply submitted_Some].
  - rewrite bool_decide_eq_false_2; [done |].
    intros H. apply submitted_Some in H as [H _]. done.
Qed.

Lemma is_wolf_spec (p : PlayerState) :
  negb (is_wolf (role p)) = spec_non_wolf p.
Proof.
  unfold spec_non_wolf.
  destruct (role p) as [[]|]; vm_compute; reflexivity.
Qed.

Lemma alter_found {V : Type} (f : V → V) (m : gmap Z V) (i : Z) (x : V) :
  m !! i = Some x → alter f i m = <[i := f x]> m.
Proof.
  intros Hx. apply map_eq. intros j. rewrite lookup_alter, lookup_insert.
  case_decide; subst; by rewrite ?Hx.
Qed.

Lemma black_infect_spec (game : GameState) (v : option Z) :
  ((black_infect (game, v)).1, submitted (black_infect (game, v)).2)
  = spec_infection (night_actions game) (game, submitted v) ∧
  night_actions (black_infect (game, v)).1 = night_actions game.
Proof.
  unfold black_infect, spec_infection, night_actions at 1.
  cbn [infect_target].
  destruct (black_infect_target_id game) as [i|] eqn:Hi; cbn [truthy andb];
    [| done].
  destruct (decide (i = 0)) as [-> | Hi0]; [done |].
  rewrite (proj2 (Z.eqb_neq i 0) Hi0). cbn [negb andb].
  assert (submitted (Some i) = Some i) as -> by by apply submitted_Some.
  destruct (black_infect_used game) eqn:Hu; cbn [negb fst snd]; [done |].
  destruct (players game !! i) as [p|] eqn:Hp; [| done].
  rewrite is_wolf_spec.
  destruct (alive p && spec_non_wolf p); [| done]. cbn [fst snd].
  split; [| by unfold night_actions].
  rewrite (alter_found _ _ _ _ Hp).
  assert (infect_player p = spec_converted p) as -> by done.
  f_equal. case_bool_decide as Hv.
  - subst v. rewrite bool_decide_eq_true_2; [done | by apply submitted_Some].
  - rewrite bool_decide_eq_false_2; [done |].
    intros H. apply submitted_Some in H as [H _]. done.
Qed.

Lemma direct_kills_spec (game : GameState) (v : option Z) :
  direct_kills (game, v)
  = spec_direct_kills (night_actions game) (game, submitted v).
Proof.
  unfold direct_kills, spec_direct_kills, night_actions. cbn [poison_target].
  assert (Hv : (if truthy v then id_set v else ∅ : gset Z)
               = match submitted v with Some x => {[x]} | None => ∅ end).
  { rewrite submitted_truthy. destruct (truthy v); [| done]. by destruct v. }
  rewrite Hv.
  destruct (witch_kill_target_id game) as [t|] eqn:Ht; cbn [truthy andb];
    [| done].
  destruct (decide (t = 0)) as [-> | Ht0]; [done |].
  rewrite (proj2 (Z.eqb_neq t 0) Ht0). cbn [negb andb].
  assert (submitted (Some t) = Some t) as -> by by apply submitted_Some.
  by destruct (witch_kill_used game).
Qed.

(** C1. The night of [lg_finish_night] is the night of the specification:
    on every game, the steps of the source give the session and the direct
    kills that the numbered steps give when run, in their order, against
    the night-actions record of the game: the guard's save of the wolves'
    target (2), the infection (3), the heal compared with the victim
    pending after the infection (4), and the poison added whatever the
    guard and the infection did, next to the victim still set (5, 6).  The
    source runs the heal before the infection; the outcome is that of the
    numbered order all the same. *)
Theorem night_effects_order (game : GameState) :
  night_effects game = spec_night (night_actions game) game ∧
  finish_night game =
    (let '(session, deaths) := spec_night (night_actions game) game in
     let '(session, final_deaths) := apply_deaths session deaths in
     (set_phase Day (set_day (day session + 1) session), final_deaths)).
Proof.
  assert (E : night_effects game = spec_night (night_actions game) game).
  { unfold night_effects, spec_night.
    rewrite witch_heal_black_infect_commute.
    rewrite <- base_victim_spec.
    destruct (black_infect_spec game (base_victim game)) as [<- Ha1].
    destruct (black_infect (game, base_victim game)) as [g1 v1].
    cbn [fst snd] in *. rewrite <- Ha1.
    destruct (witch_heal_spec g1 v1) as [<- Ha2].
    destruct (witch_heal (g1, v1)) as [g2 v2].
    cbn [fst snd] in *. rewrite <- Ha2.
    apply direct_kills_spec. }
  split; [exact E |].
  unfold finish_night. by rewrite E.
Qed.

(** ** Death propagation *)

Section Propagation.

Variable players : gmap Z PlayerState.

Lemma alive_in_living (i : Z) : alive_in players i = true ↔ living players i.
Proof.
  unfold alive_in, living. destruct (players !! i) as [p|]; split.
  - intros H. by exists p.
  - by intros (q & [= <-] & H).
  - done.
  - by intros (q & ? & _).
Qed.

Lemma lover_alive_spec (l : Z) :
  lover_alive players (Some l) = true ↔ l ≠ 0 ∧ living players l.
Proof.
  unfold lover_alive, truthy. rewrite andb_true_iff, negb_true_iff, Z.eqb_neq.
  apply and_iff_compat_l. apply (alive_in_living l).
Qed.

Lemma chain_living (D : gset Z) (x : Z) :
  chain players D x → living players x.
Proof. by destruct 1. Qed.

Lemma chain_mono (D D' : gset Z) (x : Z) :
  (∀ d, d ∈ D → living players d → chain players D' d) →
  chain players D x → chain players D' x.
Proof.
  intros Hsub. induction 1 as [d Hd Hl | d l _ IH Hb Hl Hz].
  - by apply Hsub.
  - by apply chain_bond with d.
Qed.

Lemma chain_reach (D : gset Z) (x : Z) :
  no_zero_id players → chain players D x ↔ reach players D x.
Proof.
  intros Hz. split.
  - induction 1 as [d Hd Hl | d l _ IH Hb Hl _].
    + by apply reach_direct.
    + by apply reach_bond with d.
  - induction 1 as [d Hd Hl | d l _ IH Hb Hl].
    + by apply chain_direct.
    + apply chain_bond with d; [done..|].
      intros ->. destruct Hl as (q & Hq & _). unfold no_zero_id in Hz.
      congruence.
Qed.

(** Whatever the loop returns was finalized before or is reachable from
    what is still on the stack. *)
Lemma expand_loop_sound (n : nat) :
  ∀ (final : gset Z) (stack : list Z) (R : gset Z),
    expand_loop n players final stack = Some R →
    ∀ x, x ∈ R → x ∈ final ∨ chain players (list_to_set stack) x.
Proof.
  induction n as [|n IH]; intros final stack R Hrun x Hx; [done |].
  destruct stack as [|d stack]; simpl in Hrun; [by simplify_eq; left |].
  assert (Hskip : ∀ F, expand_loop n players F stack = Some R →
                       x ∈ F ∨ chain players (list_to_set (d :: stack)) x).
  { intros F HF. destruct (IH _ _ _ HF x Hx) as [?|Hr]; [by left | right].
    eapply chain_mono; [| exact Hr].
    intros e He Hl. apply chain_direct; [set_solver | done]. }
  case_bool_decide as Hin; [by apply Hskip |].
  destruct (players !! d) as [p|] eqn:Hp; [| by apply Hskip].
  destruct (alive p) eqn:Ha; simpl in Hrun; [| by apply Hskip].
  assert (Hd : chain players (list_to_set (d :: stack)) d).
  { apply chain_direct; [set_solver | by exists p]. }
  assert (Hfin : ∀ y, y ∈ final ∪ {[d]} →
                      y ∈ final ∨ chain players (list_to_set (d :: stack)) y).
  { intros y [?| ->%elem_of_singleton]%elem_of_union; [by left | by right]. }
  destruct (lover_id p) as [l|] eqn:Hlov.
  - destruct (lover_alive players (Some l)) eqn:Hla.
    + destruct (IH _ _ _ Hrun x Hx) as [?|Hr]; [by apply Hfin | right].
      eapply chain_mono; [| exact Hr].
      intros e He Hl. apply elem_of_list_to_set, elem_of_cons in He as [-> | He].
      * apply lover_alive_spec in Hla as [Hz Hl'].
        apply chain_bond with d; [done | by exists p | done | done].
      * apply chain_direct; [set_solver | done].
    + destruct (Hskip _ Hrun) as [?|?]; [by apply Hfin | by right].
  - destruct (Hskip _ Hrun) as [?|?]; [by apply Hfin | by right].
Qed.

(** What the loop returns keeps what was finalized, holds every living
    identity of the stack, and is closed under living bonds from the
    identities it finalized itself. *)
Lemma expand_loop_complete (n : nat) :
  ∀ (final : gset Z) (stack : list Z) (R : gset Z),
    expand_loop n players final stack = Some R →
    final ⊆ R ∧
    (∀ d, d ∈ stack → living players d → d ∈ R) ∧
    (∀ d l, d ∈ R → d ∉ final → bonded players d l → living players l →
            l ≠ 0 → l ∈ R).
Proof.
  induction n as [|n IH]; intros final stack R Hrun; [done |].
  destruct stack as [|d stack]; simpl in Hrun.
  { simplify_eq. split; [done |]. split; [by intros ? ?%elem_of_nil | done]. }
  case_bool_decide as Hin.
  { destruct (IH _ _ _ Hrun) as (Hf & Hs & Hc). split; [done |].
    split; [| done]. intros e [-> | He]%elem_of_cons Hl; [set_solver | eauto]. }
  destruct (players !! d) as [p|] eqn:Hp.
  2:{ destruct (IH _ _ _ Hrun) as (Hf & Hs & Hc). split; [done |].
      split; [| done]. intros e [-> | He]%elem_of_cons Hl; [| eauto].
      destruct Hl as (q & Hq & _). congruence. }
  destruct (alive p) eqn:Ha; simpl in Hrun.
  2:{ destruct (IH _ _ _ Hrun) as (Hf & Hs & Hc). split; [done |].
      split; [| done]. intros e [-> | He]%elem_of_cons Hl; [| eauto].
      destruct Hl as (q & Hq & Hqa). congruence. }
  assert (Hcase :
    ∃ stack',
      expand_loop n players (final ∪ {[d]}) stack' = Some R ∧
      (∀ e, e ∈ stack → e ∈ stack') ∧
      (∀ l, bonded players d l → living players l → l ≠ 0 → l ∈ stack')).
  { destruct (lover_id p) as [l|] eqn:Hlov.
    - destruct (lover_alive players (Some l)) eqn:Hla.
      + exists (l :: stack). split; [done |]. split; [set_solver |].
        intros l' (q & Hq & Hql) _ _.
        rewrite Hp in Hq. injection Hq as <-.
        rewrite Hlov in Hql. injection Hql as <-. by left.
      + exists stack. split; [done |]. split; [done |].
        intros l' (q & Hq & Hql) Hl Hz.
        rewrite Hp in Hq. injection Hq as <-.
        rewrite Hlov in Hql. injection Hql as <-.
        assert (lover_alive players (Some l) = true)
          by by apply lover_alive_spec.
        congruence.
    - exists stack. split; [done |]. split; [done |].
      intros l' (q & Hq & Hql) _ _. congruence. }
  destruct Hcase as (stack' & Hrun' & Hstk & Hlov).
  destruct (IH _ _ _ Hrun') as (Hf & Hs & Hc).
  split; [set_solver |]. split.
  - intros e [-> | He]%elem_of_cons Hl; [set_solver | eauto].
  - intros e l He Hne Hb Hl Hz.
    destruct (decide (e = d)) as [-> | Hed].
    + apply Hs; [by apply Hlov | done].
    + apply (Hc e l); [done | set_solver | done..].
Qed.

Lemma elem_of_pending (final : gset Z) (x : Z) :
  x ∈ pending players final ↔ living players x ∧ x ∉ final.
Proof.
  unfold pending, living. rewrite elem_of_difference, elem_of_dom.
  apply and_iff_compat_r. unfold is_Some.
  setoid_rewrite map_lookup_filter_Some. naive_solver.
Qed.

Lemma pending_size (final : gset Z) :
  (size (pending players final) ≤ size players)%nat.
Proof.
  unfold pending.
  etrans; [apply subseteq_size, subseteq_difference_l; reflexivity |].
  rewrite size_dom. apply map_size_filter.
Qed.

Lemma pending_finalize (final : gset Z) (d : Z) :
  living players d → d ∉ final →
  (size (pending players (final ∪ {[d]})) < size (pending players final))%nat.
Proof.
  intros Hl Hd. apply subset_size. split.
  - intros x. rewrite !elem_of_pending. set_solver.
  - intros Hsub. assert (d ∈ pending players (final ∪ {[d]})) as Hin.
    { apply Hsub, elem_of_pending. done. }
    apply elem_of_pending in Hin. set_solver.
Qed.

(** The loop reaches its empty stack within the rounds it is given. *)
Lemma expand_loop_terminates (n : nat) :
  ∀ (final : gset Z) (stack : list Z),
    (2 * size (pending players final) + length stack < n)%nat →
    is_Some (expand_loop n players final stack).
Proof.
  induction n as [|n IH]; intros final stack Hn; [lia |].
  destruct stack as [|d stack]; simpl; [by eexists |]. simpl in Hn.
  case_bool_decide as Hin; [apply IH; lia |].
  destruct (players !! d) as [p|] eqn:Hp; [| apply IH; lia].
  destruct (alive p) eqn:Ha; simpl; [| apply IH; lia].
  assert (size (pending players (final ∪ {[d]})) < size (pending players final))%nat.
  { apply pending_finalize; [by exists p | done]. }
  destruct (lover_id p) as [l|]; [| apply IH; lia].
  destruct (lover_alive players (Some l)); apply IH; simpl; lia.
Qed.

Lemma expand_from_terminates (stack : list Z) :
  expand_loop (expand_rounds players stack) players ∅ stack
  = Some (expand_from players stack).
Proof.
  unfold expand_from.
  destruct (expand_loop_terminates (expand_rounds players stack) ∅ stack)
    as [R ->]; [| done].
  unfold expand_rounds. pose proof (pending_size ∅). lia.
Qed.

Lemma expand_from_chain (stack : list Z) (x : Z) :
  x ∈ expand_from players stack ↔ chain players (list_to_set stack) x.
Proof.
  pose proof (expand_from_terminates stack) as Hrun. split.
  - intros Hx.
    destruct (expand_loop_sound _ _ _ _ Hrun x Hx) as [?|?]; [set_solver | done].
  - destruct (expand_loop_complete _ _ _ _ Hrun) as (_ & Hs & Hc).
    induction 1 as [d Hd Hl | d l _ IH Hb Hl Hz].
    + apply Hs; [by apply elem_of_list_to_set in Hd | done].
    + apply (Hc d l); [done | set_solver | done..].
Qed.

Lemma list_to_set_reverse_elements (D : gset Z) :
  list_to_set (reverse (elements D)) = D.
Proof.
  apply set_eq. intros y.
  by rewrite elem_of_list_to_set, elem_of_reverse, elem_of_elements.
Qed.

Lemma Expand_chain (D : gset Z) (x : Z) :
  x ∈ Expand players D ↔ chain players D x.
Proof.
  unfold Expand. by rewrite expand_from_chain, list_to_set_reverse_elements.
Qed.

Lemma Expand_reach (D : gset Z) (x : Z) :
  no_zero_id players → x ∈ Expand players D ↔ reach players D x.
Proof. intros Hz. by rewrite Expand_chain, chain_reach. Qed.

(** Two sets of direct kills with the same living members expand alike. *)
Lemma Expand_same_living (D D' : gset Z) :
  (∀ d, living players d → d ∈ D ↔ d ∈ D') →
  Expand players D = Expand players D'.
Proof.
  intros Heq. apply set_eq. intros x. rewrite !Expand_chain.
  split; apply chain_mono; intros d Hd Hl; apply chain_direct; try done;
    by apply (Heq d Hl).
Qed.

Lemma Expand_empty : Expand players ∅ = ∅.
Proof.
  apply set_eq. intros x. rewrite Expand_chain. split; [| set_solver].
  induction 1; set_solver.
Qed.

Lemma Expand_living (D : gset Z) (x : Z) :
  x ∈ Expand players D → living players x.
Proof. rewrite Expand_chain. apply chain_living. Qed.

End Propagation.

(** C5. [Expand] returns exactly the identities reachable from the direct
    kills through chains of living bonded partners, all of them tracked and
    alive; the loop ends within its rounds; the result does not depend on
    the order the direct kills are listed in, and expanding it again changes
    nothing; a living pair of which one member is targeted dies together;
    a dead member neither enters the result nor passes death on. *)
Theorem Expand_spec (players : gmap Z PlayerState) (D : gset Z) :
  no_zero_id players →
  (∀ x, x ∈ Expand players D ↔ reach players D x) ∧
  expand_loop (expand_rounds players (reverse (elements D))) players ∅
    (reverse (elements D)) = Some (Expand players D) ∧
  (∀ x, x ∈ Expand players D → living players x) ∧
  (∀ stack : list Z,
     (∀ x, x ∈ stack ↔ x ∈ D) → expand_from players stack = Expand players D) ∧
  Expand players (Expand players D) = Expand players D ∧
  (∀ a b, a ∈ D → living players a → bonded players a b → living players b →
          a ∈ Expand players D ∧ b ∈ Expand players D) ∧
  (∀ a, ¬ living players a → Expand players {[a]} = ∅) ∧
  (∀ a b, living players a → bonded players a b → ¬ living players b →
          Expand players {[a]} = {[a]}).
Proof.
  intros Hz. split; [intros x; by apply Expand_reach |].
  split; [apply expand_from_terminates |].
  split; [apply Expand_living |].
  split.
  { intros stack Hstk. apply set_eq. intros x.
    rewrite expand_from_chain, Expand_chain.
    split; apply chain_mono; intros d Hd Hl; apply chain_direct; try done.
    - apply elem_of_list_to_set in Hd. by apply Hstk.
    - apply elem_of_list_to_set. by apply Hstk. }
  split.
  { apply set_eq. intros x. rewrite !Expand_chain. split.
    - apply chain_mono. intros d Hd _. by apply Expand_chain.
    - intros Hx. apply chain_direct; [by apply Expand_chain |].
      by apply chain_living with D. }
  split.
  { intros a b Ha Hla Hb Hlb. rewrite !Expand_reach by done. split.
    - by apply reach_direct.
    - apply reach_bond with a; [by apply reach_direct | done..]. }
  split.
  { intros a Hna. rewrite <- (Expand_empty players).
    apply Expand_same_living. intros d Hl. split; [| set_solver].
    intros ->%elem_of_singleton. done. }
  intros a b Hla Hb Hnb. apply set_eq. intros x.
  rewrite Expand_chain, elem_of_singleton. split.
  - induction 1 as [d Hd Hl | d l _ IH [p [Hp Hlov]] Hl _]; [set_solver |].
    subst d. destruct Hb as (q & Hq & Hqb). exfalso. apply Hnb. congruence.
  - intros ->. apply chain_direct; [set_solver | done].
Qed.

Lemma Expand_spec_witness :
  no_zero_id bonded_players ∧
  1 ∈ Expand bonded_players {[1]} ∧ 2 ∈ Expand bonded_players {[1]} ∧
  Expand bonded_players {[3]} = {[3]}.
Proof.
  assert (Hz : no_zero_id bonded_players) by reflexivity.
  destruct (Expand_spec bonded_players {[1]} Hz)
    as (_ & _ & _ & _ & _ & Hpair & _ & Hdead).
  split; [exact Hz |].
  assert (H1 : living bonded_players 1) by (eexists; split; reflexivity).
  assert (H2 : living bonded_players 2) by (eexists; split; reflexivity).
  assert (H3 : living bonded_players 3) by (eexists; split; reflexivity).
  assert (H4 : ¬ living bonded_players 4).
  { intros (p & Hp & Ha). vm_compute in Hp. by simplify_eq. }
  split; [| split].
  - apply (Hpair 1 2); [set_solver | exact H1 | | exact H2].
    eexists; split; reflexivity.
  - apply (Hpair 1 2); [set_solver | exact H1 | | exact H2].
    eexists; split; reflexivity.
  - apply (Hdead 3 4); [exact H3 | | exact H4]. eexists; split; reflexivity.
Defined.

(** ** The night command *)

Lemma lookup_mark_dead (final : gset Z) (ps : gmap Z PlayerState) (i : Z) :
  mark_dead final ps !! i =
    if decide (i ∈ final) then set_alive false <$> ps !! i else ps !! i.
Proof.
  unfold mark_dead.
  assert (H : ∀ l : list Z,
    foldr (λ d m, alter (set_alive false) d m) ps l !! i =
      if decide (i ∈ l) then set_alive false <$> ps !! i else ps !! i).
  { induction l as [|d l IH]; simpl.
    - done.
    - rewrite lookup_alter.
      destruct (decide (d = i)) as [-> | Hne]; rewrite IH;
        destruct (decide (i ∈ l)) as [Hin | Hin]; case_decide as Hin'.
      + by destruct (ps !! i).
      + exfalso. apply Hin'. apply elem_of_cons; by right.
      + done.
      + exfalso. apply Hin'. apply elem_of_cons; by left.
      + done.
      + exfalso. apply Hin'. apply elem_of_cons; by right.
      + apply elem_of_cons in Hin' as [?|?]; congruence.
      + done. }
  rewrite H. destruct (decide (i ∈ final)) as [Hin | Hin]; case_decide as Hin'.
  - done.
  - exfalso. apply Hin'. by apply elem_of_elements.
  - exfalso. apply Hin. by apply elem_of_elements.
  - done.
Qed.

Lemma alive_in_mark_dead (final : gset Z) (ps : gmap Z PlayerState) (i : Z) :
  alive_in (mark_dead final ps) i =
    if decide (i ∈ final) then false else alive_in ps i.
Proof.
  unfold alive_in. rewrite lookup_mark_dead.
  destruct (decide (i ∈ final)); [| done]. by destruct (ps !! i).
Qed.

Lemma mark_dead_empty (ps : gmap Z PlayerState) : mark_dead ∅ ps = ps.
Proof. unfold mark_dead. by rewrite elements_empty. Qed.

(** Infection changes neither who is alive nor who is bonded to whom. *)
Lemma living_infect (ps : gmap Z PlayerState) (t i : Z) :
  living (alter infect_player t ps) i ↔ living ps i.
Proof.
  unfold living. rewrite lookup_alter.
  destruct (decide (t = i)) as [-> | Hne]; [| done].
  destruct (ps !! i) as [p|]; simpl; [| naive_solver].
  split; intros (q & [= <-] & Hq); eexists; split; done.
Qed.

Lemma bonded_infect (ps : gmap Z PlayerState) (t d l : Z) :
  bonded (alter infect_player t ps) d l ↔ bonded ps d l.
Proof.
  unfold bonded. rewrite lookup_alter.
  destruct (decide (t = d)) as [-> | Hne]; [| done].
  destruct (ps !! d) as [p|]; simpl; [| naive_solver].
  split; intros (q & [= <-] & Hq); eexists; split; done.
Qed.

Lemma Expand_infect (ps : gmap Z PlayerState) (t : Z) (D : gset Z) :
  Expand (alter infect_player t ps) D = Expand ps D.
Proof.
  apply set_eq. intros x. rewrite !Expand_chain. split.
  - induction 1 as [d Hd Hl | d l _ IH Hb Hl Hz].
    + apply chain_direct; [done | by apply living_infect in Hl].
    + apply chain_bond with d; [done | | | done].
      * by apply bonded_infect in Hb.
      * by apply living_infect in Hl.
  - induction 1 as [d Hd Hl | d l _ IH Hb Hl Hz].
    + apply chain_direct; [done | by apply living_infect].
    + apply chain_bond with d; [done | | | done].
      * by apply bonded_infect.
      * by apply living_infect.
Qed.

Lemma alive_in_infect (ps : gmap Z PlayerState) (t i : Z) :
  alive_in (alter infect_player t ps) i = alive_in ps i.
Proof.
  unfold alive_in. rewrite lookup_alter.
  destruct (decide (t = i)) as [-> | Hne]; [| done].
  by destruct (ps !! i).
Qed.

Lemma night_effects_frame (game : GameState) :
  started (night_effects game).1 = started game ∧
  day (night_effects game).1 = day game.
Proof.
  unfold night_effects, direct_kills, black_infect, witch_heal.
  repeat case_match; simplify_eq/=; done.
Qed.

(** What [finish_night] leaves in the game, in terms of the effects. *)
Lemma finish_night_fields (game : GameState) :
  let g := (night_effects game).1 in
  let deaths := (night_effects game).2 in
  (finish_night game).2 = Expand (players g) deaths ∧
  players (finish_night game).1 = mark_dead (Expand (players g) deaths) (players g) ∧
  witch_heal_used (finish_night game).1 = witch_heal_used g ∧
  witch_kill_used (finish_night game).1 = witch_kill_used g ∧
  black_infect_used (finish_night game).1 = black_infect_used g ∧
  started (finish_night game).1 = started game ∧
  phase (finish_night game).1 = Day ∧
  day (finish_night game).1 = day game + 1.
Proof.
  pose proof (night_effects_frame game) as [Hs Hd].
  unfold finish_night. destruct (night_effects game) as [g d]. simpl in *.
  rewrite <- Hs, <- Hd. done.
Qed.

(** Once the guards of [lg_finish_night] pass, the command is accepted and
    registers the game [finish_night] leaves, ended or not. *)
Lemma lg_finish_night_accepted (it : Interaction) (GAMES : gmap Z GameState)
    (gid : Z) (game : GameState) :
  i_guild it = Some gid → GAMES !! gid = Some game →
  phase game = Night → i_user it = created_by game →
  ∃ what game',
    lg_finish_night it GAMES = (Accepted what, <[gid := game']> GAMES) ∧
    (game' = (finish_night game).1 ∨
     game' = set_phase Ended (finish_night game).1).
Proof.
  intros Hg Hgame Hph Hu. unfold lg_finish_night, get_game.
  rewrite Hg, Hgame, Hph, Hu.
  rewrite (bool_decide_eq_false_2 (Night = Ended)) by done.
  rewrite !bool_decide_eq_true_2 by done. simpl.
  destruct (finish_night game) as [g final]. simpl.
  destruct (check_victory g); eauto.
Qed.

Lemma truthy_Some (t : Z) : t ≠ 0 → truthy (Some t) = true.
Proof. intros Hz. unfold truthy. by rewrite (proj2 (Z.eqb_neq t 0) Hz). Qed.

Lemma witch_heal_frame (st : GameState * option Z) :
  players (witch_heal st).1 = players st.1 ∧
  black_infect_target_id (witch_heal st).1 = black_infect_target_id st.1 ∧
  black_infect_used (witch_heal st).1 = black_infect_used st.1 ∧
  ((witch_heal st).2 = st.2 ∨ (witch_heal st).2 = None).
Proof.
  destruct st as [game v]. unfold witch_heal.
  destruct (truthy (witch_heal_target_id game) && negb (witch_heal_used game));
    simpl; [| by eauto].
  case_bool_decide; eauto.
Qed.

Lemma black_infect_applies (game : GameState) (v : option Z) (t : Z)
    (p : PlayerState) :
  black_infect_used game = false → black_infect_target_id game = Some t →
  t ≠ 0 → players game !! t = Some p →
  alive p = true → is_wolf (role p) = false →
  black_infect (game, v) =
    (set_black_infect_used true
       (set_players (alter infect_player t (players game)) game),
     if bool_decide (v = Some t) then None else v).
Proof.
  intros Hu Ht Hz Hp Ha Hr. unfold black_infect.
  by rewrite Ht, Hu, (truthy_Some t Hz), Hp, Ha, Hr.
Qed.

Lemma direct_kills_deaths (game : GameState) (v : option Z) :
  (direct_kills (game, v)).2 =
    (if truthy v then id_set v else ∅) ∪ poison_of game.
Proof.
  unfold direct_kills, poison_of.
  destruct (truthy (witch_kill_target_id game) && negb (witch_kill_used game));
    simpl; [done | by rewrite (right_id_L ∅ (∪))].
Qed.

Lemma direct_kills_frame (st : GameState * option Z) :
  players (direct_kills st).1 = players st.1 ∧
  black_infect_used (direct_kills st).1 = black_infect_used st.1 ∧
  witch_heal_used (direct_kills st).1 = witch_heal_used st.1.
Proof.
  destruct st as [game v]. unfold direct_kills.
  by destruct (truthy (witch_kill_target_id game) && negb (witch_kill_used game)).
Qed.

Lemma poison_of_frame (g1 g2 : GameState) :
  witch_kill_target_id g1 = witch_kill_target_id g2 →
  witch_kill_used g1 = witch_kill_used g2 → poison_of g1 = poison_of g2.
Proof. unfold poison_of. by intros -> ->. Qed.

Lemma night_effects_infection (game : GameState) (t : Z) (p : PlayerState) :
  black_infect_used game = false →
  black_infect_target_id game = Some t → wolf_target_id game = Some t →
  t ≠ 0 → players game !! t = Some p →
  alive p = true → is_wolf (role p) = false →
  players (night_effects game).1 = alter infect_player t (players game) ∧
  black_infect_used (night_effects game).1 = true ∧
  (night_effects game).2 = poison_of game.
Proof.
  intros Hu Ht Hw Hz Hp Ha Hr. unfold night_effects.
  pose proof (witch_heal_frame (game, base_victim game)) as (Hps & Hit & Hiu & Hv).
  pose proof (witch_heal_kill_fields (game, base_victim game)) as [Hkt Hku].
  assert (Hv0 : base_victim game = Some t ∨ base_victim game = None).
  { unfold base_victim. rewrite Hw. case_match; eauto. }
  destruct (witch_heal (game, base_victim game)) as [g1 v1].
  cbn [fst snd] in *.
  rewrite (black_infect_applies g1 v1 t p) by congruence.
  destruct (direct_kills_frame
    (set_black_infect_used true (set_players (alter infect_player t (players g1)) g1),
     if bool_decide (v1 = Some t) then None else v1)) as (Hp' & Hu' & _).
  rewrite Hp', Hu', direct_kills_deaths.
  cbn [fst snd players set_black_infect_used set_players black_infect_used].
  rewrite Hps.
  split; [done |]. split; [done |].
  assert ((if bool_decide (v1 = Some t) then None else v1) = None) as ->.
  { case_bool_decide as Hb; [done |]. destruct Hv as [-> | ->]; [| done].
    destruct Hv0 as [Hv0 | Hv0]; congruence. }
  simpl. rewrite (left_id_L ∅ (∪)). by apply poison_of_frame.
Qed.

Lemma black_infect_frame (st : GameState * option Z) :
  witch_heal_used (black_infect st).1 = witch_heal_used st.1 ∧
  ((black_infect st).2 = st.2 ∨ (black_infect st).2 = None) ∧
  (players (black_infect st).1 = players st.1 ∨
   ∃ t, players (black_infect st).1 = alter infect_player t (players st.1)).
Proof.
  destruct st as [game v]. unfold black_infect.
  destruct (truthy (black_infect_target_id game) && negb (black_infect_used game));
    [| by eauto].
  destruct (black_infect_target_id game) as [t|]; [| by eauto].
  destruct (players game !! t) as [p|]; [| by eauto].
  destruct (alive p && negb (is_wolf (role p))); [| by eauto].
  cbn [fst snd]. split; [done |]. split; [| by eauto].
  case_bool_decide; eauto.
Qed.

Lemma night_effects_players (game : GameState) :
  players (night_effects game).1 = players game ∨
  ∃ t, players (night_effects game).1 = alter infect_player t (players game).
Proof.
  unfold night_effects.
  pose proof (witch_heal_frame (game, base_victim game)) as (Hps & _).
  pose proof (black_infect_frame (witch_heal (game, base_victim game)))
    as (_ & _ & Hbi).
  pose proof (direct_kills_frame
    (black_infect (witch_heal (game, base_victim game)))) as (Hdk & _).
  rewrite Hdk. cbn [fst] in Hps. rewrite Hps in Hbi. exact Hbi.
Qed.

Lemma night_effects_alive (game : GameState) (i : Z) :
  alive_in (players (night_effects game).1) i = alive_in (players game) i.
Proof.
  destruct (night_effects_players game) as [-> | [t ->]]; [done |].
  apply alive_in_infect.
Qed.

Lemma night_effects_living (game : GameState) (i : Z) :
  living (players (night_effects game).1) i ↔ living (players game) i.
Proof. by rewrite <- !alive_in_living, night_effects_alive. Qed.

Lemma night_effects_heal (game : GameState) (h : Z) :
  witch_heal_used game = false → witch_heal_target_id game = Some h → h ≠ 0 →
  witch_heal_used (night_effects game).1 = true ∧
  (wolf_target_id game = Some h → (night_effects game).2 = poison_of game).
Proof.
  intros Hu Ht Hz. unfold night_effects.
  assert (Hh : witch_heal (game, base_victim game) =
    (set_witch_heal_used true game,
     if bool_decide (base_victim game = Some h) then None else base_victim game)).
  { unfold witch_heal. by rewrite Ht, Hu, (truthy_Some h Hz). }
  rewrite Hh.
  pose proof (black_infect_frame (set_witch_heal_used true game,
     if bool_decide (base_victim game = Some h) then None else base_victim game))
    as (Hbu & Hbv & _).
  pose proof (black_infect_kill_fields (set_witch_heal_used true game,
     if bool_decide (base_victim game = Some h) then None else base_victim game))
    as [Hkt Hku].
  destruct (black_infect _) as [g2 v2]. cbn [fst snd] in *.
  destruct (direct_kills_frame (g2, v2)) as (_ & _ & Hdu).
  rewrite Hdu, direct_kills_deaths. cbn [fst snd]. split; [done |].
  intros Hw.
  assert (v2 = None) as ->.
  { destruct Hbv as [-> | ->]; [| done].
    case_bool_decide as Hb; [done |].
    unfold base_victim in *. rewrite Hw in *. by case_match. }
  simpl. rewrite (left_id_L ∅ (∪)). by apply poison_of_frame.
Qed.

Lemma witch_heal_unpoison (game : GameState) (v : option Z) :
  witch_heal (set_witch_kill_target_id None game, v) =
    (set_witch_kill_target_id None (witch_heal (game, v)).1, (witch_heal (game, v)).2).
Proof.
  unfold witch_heal.
  cbn [witch_heal_target_id witch_heal_used set_witch_kill_target_id].
  by destruct (truthy (witch_heal_target_id game) && negb (witch_heal_used game)).
Qed.

Lemma black_infect_unpoison (game : GameState) (v : option Z) :
  black_infect (set_witch_kill_target_id None game, v) =
    (set_witch_kill_target_id None (black_infect (game, v)).1,
     (black_infect (game, v)).2).
Proof.
  unfold black_infect.
  cbn [black_infect_target_id black_infect_used players set_witch_kill_target_id].
  repeat case_match; done.
Qed.

Lemma night_effects_unpoison (game : GameState) (k : Z) :
  witch_kill_target_id game = Some k → k ≠ 0 →
  let unpoisoned := set_witch_kill_target_id None game in
  players (night_effects game).1 = players (night_effects unpoisoned).1 ∧
  witch_kill_used (night_effects game).1 = true ∧
  ((night_effects game).2 = (night_effects unpoisoned).2 ∪ {[k]} ∨
   (night_effects game).2 = (night_effects unpoisoned).2).
Proof.
  intros Ht Hz unpoisoned. subst unpoisoned. unfold night_effects.
  assert (base_victim (set_witch_kill_target_id None game) = base_victim game)
    as Hbv by done.
  rewrite Hbv, witch_heal_unpoison.
  pose proof (witch_heal_kill_fields (game, base_victim game)) as [Hkt Hku].
  destruct (witch_heal (game, base_victim game)) as [g1 v1]. cbn [fst snd] in *.
  rewrite black_infect_unpoison.
  pose proof (black_infect_kill_fields (g1, v1)) as [Hkt' Hku'].
  destruct (black_infect (g1, v1)) as [g2 v2]. cbn [fst snd] in *.
  unfold direct_kills.
  cbn [witch_kill_target_id witch_kill_used set_witch_kill_target_id truthy andb].
  rewrite Hkt', Hkt, Ht, Hku', Hku, (truthy_Some k Hz).
  destruct (witch_kill_used game) eqn:Hu; cbn [andb negb fst snd].
  - rewrite Hku', Hku. eauto.
  - eauto.
Qed.

(** C3 as first stated does not hold when the witch poisons the infected
    participant: 108 is picked by the wolves and by the black wolf, living
    and no wolf, and is dead in the morning. *)
Lemma infected_target_poisoned :
  phase infected_and_poisoned = Night ∧
  black_infect_used infected_and_poisoned = false ∧
  black_infect_target_id infected_and_poisoned = Some 108 ∧
  wolf_target_id infected_and_poisoned = Some 108 ∧
  players infected_and_poisoned !! 108 = Some (player 108 villageois true None) ∧
  ∃ game',
    lg_finish_night owner_call {[1 := infected_and_poisoned]}
      = (Accepted night_applied, <[1 := game']> {[1 := infected_and_poisoned]}) ∧
    alive_in (players game') 108 = false.
Proof.
  repeat (split; [reflexivity |]).
  eexists. split; [vm_compute; reflexivity | reflexivity].
Qed.

(** C3 (amended). When the black wolf's unused infection names the
    participant the wolves picked, living and not a wolf, [lg_finish_night]
    is accepted, the wolves' victim is cleared (the direct kills are the
    poison's alone), the infection is marked used, and the target has the
    base wolf role and the infected flag.  The target is alive in the
    morning exactly when the deaths expanded from the poison do not reach
    it; with no poison applied nobody dies. *)
Theorem infection_overrides_kill (it : Interaction) (GAMES : gmap Z GameState)
    (gid : Z) (game : GameState) (t : Z) (p : PlayerState) :
  i_guild it = Some gid → GAMES !! gid = Some game →
  phase game = Night → i_user it = created_by game →
  black_infect_used game = false →
  black_infect_target_id game = Some t → wolf_target_id game = Some t →
  t ≠ 0 → players game !! t = Some p →
  alive p = true → is_wolf (role p) = false →
  ∃ what game' p',
    lg_finish_night it GAMES = (Accepted what, <[gid := game']> GAMES) ∧
    (night_effects game).2 = poison_of game ∧
    (finish_night game).2 = Expand (players game) (poison_of game) ∧
    black_infect_used game' = true ∧
    players game' !! t = Some p' ∧
    role p' = Some loup_garou ∧ infected p' = true ∧
    (alive p' = true ↔ t ∉ (finish_night game).2) ∧
    (poison_of game = ∅ → alive p' = true ∧ (finish_night game).2 = ∅).
Proof.
  intros Hg Hgame Hph Hcaller Hu Ht Hw Hz Hp Ha Hr.
  destruct (lg_finish_night_accepted it GAMES gid game)
    as (what & game' & Hrun & Hgame'); [done.. |].
  destruct (night_effects_infection game t p) as (Hps & Hused & Hd); [done.. |].
  destruct (finish_night_fields game) as (Hf & Hfp & _ & _ & Hfu & _).
  cbn zeta in Hf, Hfp. rewrite Hps, Hd in Hf, Hfp. rewrite Hused in Hfu.
  set (final := (finish_night game).2) in *.
  set (p0 := infect_player p).
  exists what, game', (if decide (t ∈ final) then set_alive false p0 else p0).
  assert (Hlook : players (finish_night game).1 !! t
                  = Some (if decide (t ∈ final) then set_alive false p0 else p0)).
  { rewrite Hfp, <- Hf, lookup_mark_dead, lookup_alter.
    destruct (decide (t = t)); [| done]. rewrite Hp. simpl.
    by destruct (decide (t ∈ final)). }
  split; [done |]. split; [done |].
  split; [by rewrite Hf, Expand_infect |].
  split; [by destruct Hgame' as [-> | ->] |].
  split; [by destruct Hgame' as [-> | ->] |].
  split; [by destruct (decide (t ∈ final)) |].
  split; [by destruct (decide (t ∈ final)) |].
  split.
  { destruct (decide (t ∈ final)); simpl; [split; [done | by intros []] |].
    split; [done | by intros _]. }
  intros Hnone. rewrite Hnone, Expand_empty in Hf.
  split; [| done]. rewrite decide_False by set_solver. done.
Qed.

Lemma infection_overrides_kill_witness :
  ∃ what game' p',
    lg_finish_night owner_call {[1 := infection_night]}
      = (Accepted what, <[1 := game']> {[1 := infection_night]}) ∧
    black_infect_used game' = true ∧
    players game' !! 108 = Some p' ∧
    role p' = Some loup_garou ∧ infected p' = true ∧ alive p' = true.
Proof.
  destruct (infection_overrides_kill owner_call {[1 := infection_night]} 1
              infection_night 108 (player 108 villageois true None))
    as (what & game' & p' & Hrun & _ & _ & Hu & Hp & Hr & Hi & _ & Hnone);
    try reflexivity; [lia |].
  exists what, game', p'. repeat (split; [done |]). by apply Hnone.
Defined.

(** C4. With the heal unused and a heal target submitted, [lg_finish_night]
    is accepted and marks the heal used whether or not it matched; when the
    heal names the wolves' victim the victim is cleared, so that the direct
    kills are the poison's alone and, with no poison applied, nobody dies. *)
Theorem heal_consumed_and_cancels (it : Interaction) (GAMES : gmap Z GameState)
    (gid : Z) (game : GameState) (h : Z) :
  i_guild it = Some gid → GAMES !! gid = Some game →
  phase game = Night → i_user it = created_by game →
  witch_heal_used game = false → witch_heal_target_id game = Some h → h ≠ 0 →
  ∃ what game',
    lg_finish_night it GAMES = (Accepted what, <[gid := game']> GAMES) ∧
    witch_heal_used game' = true ∧
    (wolf_target_id game = Some h →
       (night_effects game).2 = poison_of game ∧
       (poison_of game = ∅ →
          (finish_night game).2 = ∅ ∧
          ∀ i, alive_in (players game') i = alive_in (players game) i)).
Proof.
  intros Hg Hgame Hph Hcaller Hu Ht Hz.
  destruct (lg_finish_night_accepted it GAMES gid game)
    as (what & game' & Hrun & Hgame'); [done.. |].
  destruct (night_effects_heal game h) as (Hused & Hd); [done.. |].
  destruct (finish_night_fields game) as (Hf & Hfp & Hfu & _).
  cbn zeta in Hf, Hfp. rewrite Hused in Hfu.
  exists what, game'. split; [done |].
  split; [by destruct Hgame' as [-> | ->] |].
  intros Hw. specialize (Hd Hw). split; [done |].
  intros Hnone. rewrite Hd, Hnone, Expand_empty in Hf, Hfp.
  split; [done |]. intros i.
  assert (players game' = players (finish_night game).1) as ->
    by by destruct Hgame' as [-> | ->].
  by rewrite Hfp, mark_dead_empty, night_effects_alive.
Qed.

Lemma heal_consumed_and_cancels_witness :
  ∃ what game',
    lg_finish_night owner_call {[1 := heal_night]}
      = (Accepted what, <[1 := game']> {[1 := heal_night]}) ∧
    witch_heal_used game' = true ∧
    ∀ i, alive_in (players game') i = alive_in (players heal_night) i.
Proof.
  destruct (heal_consumed_and_cancels owner_call {[1 := heal_night]} 1
              heal_night 108)
    as (what & game' & Hrun & Hu & Hcancel); try reflexivity; [lia |].
  exists what, game'. split; [done |]. split; [done |].
  destruct Hcancel as [_ Hnone]; [reflexivity |].
  by destruct Hnone as [_ Halive]; [reflexivity |].
Defined.

(** C10. A poison submitted on an identity that is absent or already dead
    does not make [lg_finish_night] refuse: the command is accepted, the
    poison is marked used, its target is not among the dead, and the deaths
    and the players are those of the same night without the poison.  This
    holds whether or not the potion was still there. *)
Theorem poison_on_absent_or_dead (it : Interaction) (GAMES : gmap Z GameState)
    (gid : Z) (game : GameState) (k : Z) :
  i_guild it = Some gid → GAMES !! gid = Some game →
  phase game = Night → i_user it = created_by game →
  witch_kill_target_id game = Some k → k ≠ 0 →
  ¬ living (players game) k →
  ∃ what game',
    lg_finish_night it GAMES = (Accepted what, <[gid := game']> GAMES) ∧
    witch_kill_used game' = true ∧
    k ∉ (finish_night game).2 ∧
    (finish_night game).2
      = (finish_night (set_witch_kill_target_id None game)).2 ∧
    players game'
      = players (finish_night (set_witch_kill_target_id None game)).1.
Proof.
  intros Hg Hgame Hph Hcaller Ht Hz Hdead.
  destruct (lg_finish_night_accepted it GAMES gid game)
    as (what & game' & Hrun & Hgame'); [done.. |].
  destruct (night_effects_unpoison game k) as (Hps & Hused & Hd); [done.. |].
  cbn zeta in Hps, Hd.
  destruct (finish_night_fields game) as (Hf & Hfp & _ & Hfu & _).
  destruct (finish_night_fields (set_witch_kill_target_id None game))
    as (Hf0 & Hfp0 & _).
  cbn zeta in Hf, Hfp, Hf0, Hfp0. rewrite Hused in Hfu.
  assert (Hnl : ¬ living (players (night_effects game).1) k)
    by by rewrite night_effects_living.
  assert (Hsame : (finish_night game).2
                  = (finish_night (set_witch_kill_target_id None game)).2).
  { rewrite Hf, Hf0, <- Hps. destruct Hd as [-> | ->]; [| done].
    apply Expand_same_living.
    intros d Hl. rewrite elem_of_union, elem_of_singleton.
    split; [| by left]. intros [? | ->]; done. }
  exists what, game'. split; [done |].
  split; [by destruct Hgame' as [-> | ->] |].
  split.
  { rewrite Hf. intros Hin%Expand_living. done. }
  split; [done |].
  assert (players game' = players (finish_night game).1) as ->
    by by destruct Hgame' as [-> | ->].
  rewrite Hfp, Hfp0, <- Hf, <- Hf0, Hsame, Hps. done.
Qed.

Lemma poison_on_absent_or_dead_witness :
  ¬ living (players poison_dead_night) 104 ∧
  ∃ what game',
    lg_finish_night owner_call {[1 := poison_dead_night]}
      = (Accepted what, <[1 := game']> {[1 := poison_dead_night]}) ∧
    witch_kill_used game' = true ∧
    104 ∉ (finish_night poison_dead_night).2.
Proof.
  assert (Hdead : ¬ living (players poison_dead_night) 104).
  { intros (p & Hp & Ha). vm_compute in Hp. by simplify_eq. }
  split; [exact Hdead |].
  destruct (poison_on_absent_or_dead owner_call {[1 := poison_dead_night]} 1
              poison_dead_night 104)
    as (what & game' & Hrun & Hu & Hk & _); try reflexivity; [lia | done |].
  by exists what, game'.
Defined.

(** ** Vote tally *)

Section Tally.
Variable game : GameState.

Lemma ballot_weight_cases (voter : Z) :
  (ballot_weight game voter = 2 ∧
   mayor_id game = Some voter ∧ voter ≠ 0 ∧ kind (vote game) = daykill) ∨
  (ballot_weight game voter = 1 ∧
   ¬ (mayor_id game = Some voter ∧ voter ≠ 0 ∧ kind (vote game) = daykill)).
Proof.
  unfold ballot_weight.
  destruct (truthy (mayor_id game) && bool_decide (Some voter = mayor_id game)
            && bool_decide (kind (vote game) = daykill)) eqn:E.
  - left. apply andb_true_iff in E as [E Hk]. apply andb_true_iff in E as [Ht Hm].
    apply bool_decide_eq_true in Hk, Hm. rewrite <- Hm in Ht.
    unfold truthy in Ht. apply negb_true_iff, Z.eqb_neq in Ht. done.
  - right. split; [done |]. intros (Hm & Hz & Hk).
    rewrite Hm, Hk in E. unfold truthy in E.
    rewrite (proj2 (Z.eqb_neq voter 0) Hz) in E.
    rewrite !bool_decide_eq_true_2 in E by done. done.
Qed.

Lemma ballot_weight_pos (voter : Z) : 0 < ballot_weight game voter.
Proof. destruct (ballot_weight_cases voter) as [[-> _] | [-> _]]; lia. Qed.

Lemma total_in_cons (b : Z * Z) (ballots : list (Z * Z)) (t : Z) :
  total_in game (b :: ballots) t =
    (if decide (b.2 = t) then ballot_weight game b.1 else 0)
    + total_in game ballots t.
Proof.
  unfold total_in. rewrite filter_cons. by destruct (decide (b.2 = t)).
Qed.

Lemma total_in_nonneg (ballots : list (Z * Z)) (t : Z) :
  0 ≤ total_in game ballots t.
Proof.
  induction ballots as [|b l IH]; [done |]. rewrite total_in_cons.
  pose proof (ballot_weight_pos b.1). destruct (decide (b.2 = t)); lia.
Qed.

Lemma total_in_pos (ballots : list (Z * Z)) (t : Z) :
  0 < total_in game ballots t ↔ ∃ voter, (voter, t) ∈ ballots.
Proof.
  induction ballots as [|[v t'] l IH].
  - split; [done | by intros [? ?%elem_of_nil]].
  - rewrite total_in_cons. simpl.
    pose proof (ballot_weight_pos v). pose proof (total_in_nonneg l t).
    destruct (decide (t' = t)) as [-> | Hne].
    + split; [| lia]. intros _. exists v. by left.
    + rewrite Z.add_0_l, IH. split; intros [u Hu]; exists u.
      * by right.
      * apply elem_of_cons in Hu as [[= -> ->] | Hu]; done.
Qed.

(** The counting loop adds, under each target, the weights of the ballots
    cast for it, and creates no other entry. *)
Lemma count_ballots_acc (ballots : list (Z * Z)) :
  ∀ (acc : gmap Z Z) (t : Z),
    foldl (count_ballot game) acc ballots !! t =
      if decide (0 < total_in game ballots t)
      then Some (default 0 (acc !! t) + total_in game ballots t)
      else acc !! t.
Proof.
  induction ballots as [|[v t'] l IH]; intros acc t; [done |].
  simpl foldl. rewrite IH, total_in_cons. simpl.
  pose proof (ballot_weight_pos v). pose proof (total_in_nonneg l t).
  destruct (decide (t' = t)) as [-> | Hne].
  - rewrite lookup_insert_eq. simpl.
    repeat case_decide; try lia; f_equal; lia.
  - rewrite lookup_insert_ne by done. rewrite Z.add_0_l. done.
Qed.

Lemma count_ballots_lookup (ballots : list (Z * Z)) (t : Z) :
  count_ballots game ballots !! t =
    if decide (0 < total_in game ballots t)
    then Some (total_in game ballots t) else None.
Proof.
  unfold count_ballots. rewrite count_ballots_acc, lookup_empty. done.
Qed.


Lemma foldl_max_spec (l : list Z) :
  ∀ x, (foldl Z.max x l = x ∨ foldl Z.max x l ∈ l) ∧
       x ≤ foldl Z.max x l ∧ ∀ y, y ∈ l → y ≤ foldl Z.max x l.
Proof.
  induction l as [|a l IH]; intros x; simpl.
  - split; [by left |]. split; [lia | by intros ? ?%elem_of_nil].
  - destruct (IH (Z.max x a)) as (Hin & Hle & Hall). split; [| split].
    + destruct Hin as [Heq | Hin]; [| right; by right].
      rewrite Heq. destruct (Z.max_spec x a) as [[_ ->] | [_ ->]];
        [right; by left | by left].
    + lia.
    + intros y [-> | Hy]%elem_of_cons; [lia | by apply Hall].
Qed.

Lemma max_of_spec (l : list Z) :
  l ≠ [] → max_of l ∈ l ∧ ∀ y, y ∈ l → y ≤ max_of l.
Proof.
  destruct l as [|x l]; [done |]. intros _. unfold max_of.
  destruct (foldl_max_spec l x) as (Hin & Hle & Hall). split.
  - destruct Hin as [-> | Hin]; [by left | by right].
  - intros y [-> | Hy]%elem_of_cons; [done | by apply Hall].
Qed.

Lemma NoDup_all_same (l : list Z) (w : Z) :
  NoDup l → w ∈ l → (∀ x, x ∈ l → x = w) → l = [w].
Proof.
  intros Hnd Hw Hall. destruct l as [|a [|b l]].
  - by apply elem_of_nil in Hw.
  - f_equal. apply Hall. by left.
  - assert (a = w) as -> by (apply Hall; by left).
    assert (b = w) as -> by (apply Hall; right; by left).
    apply NoDup_cons in Hnd as [Hnin _]. exfalso. apply Hnin. by left.
Qed.

Lemma unique_top (L : list (Z * Z)) (best w : Z) :
  NoDup L.*1 →
  (filter (λ tc : Z * Z, tc.2 = best) L).*1 = [w] ↔
  (w, best) ∈ L ∧ ∀ t, (t, best) ∈ L → t = w.
Proof.
  intros Hnd.
  assert (Hmem : ∀ t, t ∈ (filter (λ tc : Z * Z, tc.2 = best) L).*1
                      ↔ (t, best) ∈ L).
  { intros t. rewrite list_elem_of_fmap. split.
    - intros ([t' c] & -> & [Hc Hin]%list_elem_of_filter). simpl in *. by subst.
    - intros Hin. exists (t, best). split; [done |].
      by apply list_elem_of_filter. }
  split.
  - intros Htop. split.
    + apply Hmem. rewrite Htop. by left.
    + intros t Ht%Hmem. rewrite Htop in Ht. by apply list_elem_of_singleton in Ht.
  - intros [Hw Hall]. apply NoDup_all_same.
    + eapply sublist_NoDup; [exact Hnd |].
      apply fmap_sublist, sublist_filter.
    + by apply Hmem.
    + intros t Ht%Hmem. by apply Hall.
Qed.

Lemma tally_votes_counts :
  (tally_votes game).2 = count_ballots game (map_to_list (votes (vote game))).
Proof. unfold tally_votes. repeat case_match; done. Qed.

Lemma counts_lookup (t : Z) :
  (tally_votes game).2 !! t =
    if decide (0 < ballot_total game t) then Some (ballot_total game t) else None.
Proof. rewrite tally_votes_counts. apply count_ballots_lookup. Qed.

Lemma tally_votes_winner (w : Z) :
  (tally_votes game).1 = Some w ↔
  0 < ballot_total game w ∧
  ∀ t, t ≠ w → ballot_total game t < ballot_total game w.
Proof.
  pose proof counts_lookup as Hlook. rewrite tally_votes_counts in Hlook.
  unfold tally_votes.
  set (counts := count_ballots game (map_to_list (votes (vote game)))) in *.
  assert (Hnd : NoDup (map_to_list counts).*1) by apply NoDup_fst_map_to_list.
  assert (Hel : ∀ t c, (t, c) ∈ map_to_list counts ↔
                       c = ballot_total game t ∧ 0 < c).
  { intros t c. rewrite elem_of_map_to_list, Hlook.
    case_decide; naive_solver lia. }
  assert (Hnn : ∀ t, 0 ≤ ballot_total game t) by (intros; apply total_in_nonneg).
  case_bool_decide as Hempty; simpl.
  { split; [done |]. intros [Hpos _]. exfalso.
    specialize (Hlook w). rewrite Hempty, lookup_empty in Hlook.
    by rewrite decide_True in Hlook. }
  set (best := max_of (map_to_list counts).*2).
  assert (Hbest : best ∈ (map_to_list counts).*2 ∧
                  ∀ y, y ∈ (map_to_list counts).*2 → y ≤ best).
  { apply max_of_spec. intros Hnil. apply fmap_nil_inv in Hnil.
    by apply map_to_list_empty_iff in Hnil. }
  destruct Hbest as [Hbin Hbmax].
  apply list_elem_of_fmap in Hbin as ([t0 c0] & Hc0 & Hin0). simpl in Hc0. subst c0.
  assert (Hmax : ∀ t, ballot_total game t ≤ best).
  { intros t. destruct (decide (0 < ballot_total game t)) as [Hp | Hp].
    - apply Hbmax, list_elem_of_fmap. exists (t, ballot_total game t).
      split; [done |]. by apply Hel.
    - apply Hel in Hin0. lia. }
  pose proof (unique_top (map_to_list counts) best w Hnd) as Htop.
  split.
  - intros Hw.
    assert ((filter (λ tc : Z * Z, tc.2 = best) (map_to_list counts)).*1 = [w])
      as Hone.
    { destruct ((filter _ (map_to_list counts)).*1) as [|a [|b l]];
        simplify_eq/=; done. }
    apply Htop in Hone as [Hwin Hall]. apply Hel in Hwin as [Hwb Hpos].
    split; [lia |]. intros t Hne.
    destruct (decide (ballot_total game t = best)) as [Heq | Hneq].
    + exfalso. apply Hne, Hall, Hel. split; [done | lia].
    + specialize (Hmax t). lia.
  - intros [Hpos Hstrict].
    assert (t0 = w) as ->.
    { destruct (decide (t0 = w)) as [| Hne]; [done |]. exfalso.
      apply Hel in Hin0 as [Hb _]. specialize (Hstrict t0 Hne).
      specialize (Hmax w). lia. }
    assert ((filter (λ tc : Z * Z, tc.2 = best) (map_to_list counts)).*1 = [w])
      as ->; [| done].
    apply Htop. split; [done |]. intros t Ht.
    destruct (decide (t = w)) as [| Hne]; [done |]. exfalso.
    apply Hel in Ht as [Hb _]. apply Hel in Hin0 as [Hb0 _].
    specialize (Hstrict t Hne). lia.
Qed.
End Tally.

(** C6. Every ballot weighs 1, except the mayor's, which weighs 2 in a
    [daykill] round only; the counts are the totals of the ballots per
    target; the winner is the one target whose total is strictly above every
    other, and there is none when no ballot was cast or when the highest
    total is shared. *)
Theorem tally_votes_spec (game : GameState) :
  (∀ voter,
     ballot_weight game voter =
       if decide (mayor_id game = Some voter ∧ voter ≠ 0
                  ∧ kind (vote game) = daykill)
       then 2 else 1) ∧
  (kind (vote game) = mayor → ∀ voter, ballot_weight game voter = 1) ∧
  (∀ t, (tally_votes game).2 !! t =
          if decide (0 < ballot_total game t)
          then Some (ballot_total game t) else None) ∧
  (∀ w, (tally_votes game).1 = Some w ↔
          0 < ballot_total game w ∧
          ∀ t, t ≠ w → ballot_total game t < ballot_total game w) ∧
  (votes (vote game) = ∅ → (tally_votes game).1 = None) ∧
  (∀ a b, a ≠ b → ballot_total game a = ballot_total game b →
          (∀ t, ballot_total game t ≤ ballot_total game a) →
          (tally_votes game).1 = None).
Proof.
  assert (Hw : ∀ voter,
     ballot_weight game voter =
       if decide (mayor_id game = Some voter ∧ voter ≠ 0
                  ∧ kind (vote game) = daykill)
       then 2 else 1).
  { intros voter.
    destruct (ballot_weight_cases game voter) as [[-> H] | [-> H]];
      case_decide; done. }
  split; [exact Hw |]. split.
  { intros Hk voter. rewrite Hw.
    destruct (decide _) as [(_ & _ & H) | _]; [congruence | done]. }
  split; [apply counts_lookup |].
  split; [apply tally_votes_winner |].
  split.
  { intros Hnone. destruct (tally_votes game).1 as [w|] eqn:E; [| done].
    apply tally_votes_winner in E as [Hpos _].
    unfold ballot_total in Hpos. rewrite Hnone, map_to_list_empty in Hpos.
    done. }
  intros a b Hab Heq Hmax.
  destruct (tally_votes game).1 as [w|] eqn:E; [| done].
  apply tally_votes_winner in E as [Hpos Hstrict]. exfalso.
  destruct (decide (a = w)) as [-> | Ha].
  - specialize (Hstrict b). lia.
  - specialize (Hstrict a Ha). specialize (Hmax w). lia.
Qed.

(** A 2-2 split has no winner; the mayor 101 and one more voter against
    one ballot give 3 to 1 in a day elimination and 2 to 1 in a mayor
    election. *)
Lemma tally_votes_examples :
  (tally_votes (vote_round daykill None
     [(101, 105); (102, 105); (103, 106); (104, 106)])).1 = None ∧
  tally_votes (vote_round daykill (Some 101)
     [(101, 105); (102, 105); (103, 106)])
    = (Some 105, {[105 := 3; 106 := 1]}) ∧
  tally_votes (vote_round mayor (Some 101)
     [(101, 105); (102, 105); (103, 106)])
    = (Some 105, {[105 := 2; 106 := 1]}).
Proof. repeat split; vm_compute; reflexivity. Qed.

(** ** Rejected commands *)

(** C8. A command that is answered with a refusal leaves the registry of
    games, hence every field of every session, as it was. *)
Theorem rejected_leaves_state (shuffle : ∀ A : Type, list A → list A)
    (c : Command) (it : Interaction) (GAMES : gmap Z GameState) :
  is_rejection (run shuffle c it GAMES).1 = true →
  (run shuffle c it GAMES).2 = GAMES.
Proof.
  destruct c; simpl;
    unfold lg_create, lg_join, lg_leave, lg_start, lg_resolve_night,
      lg_finish_night, lg_mayor_start, lg_dayvote_start, open_vote, lg_vote,
      lg_vote_end;
    repeat case_match; simpl; intros; simplify_eq; done.
Qed.

Lemma rejected_leaves_state_witness :
  is_rejection (run (λ _ l, l) (Vote 105) (caller 109) first_night).1 = true ∧
  (run (λ _ l, l) (Vote 105) (caller 109) first_night).2 = first_night.
Proof.
  assert (H : is_rejection
                (run (λ _ l, l) (Vote 105) (caller 109) first_night).1 = true)
    by (vm_compute; reflexivity).
  split; [exact H |].
  exact (rejected_leaves_state (λ _ l, l) (Vote 105) (caller 109) first_night H).
Defined.

(** A menu that refuses its answer leaves the game as it was, too. *)
Lemma callback_refusal (actor_id : Z) (action_key : ActionKey) (user : Z)
    (selected : list Z) (game : GameState) :
  is_rejection (callback actor_id action_key user selected game).1 = true →
  (callback actor_id action_key user selected game).2 = game.
Proof.
  unfold callback. repeat case_match; simpl; intros; simplify_eq; done.
Qed.

(** ** The Cupidon bond *)

(** One application of the pairing bonds the two picked participants to
    each other. *)
Lemma apply_cupidon_bond (game : GameState) (a b : Z) :
  cupid_done game = true → cupid_targets game = [a; b] → a ≠ b →
  is_Some (players game !! a) → is_Some (players game !! b) →
  bonded (players (apply_cupidon game)) a b ∧
  bonded (players (apply_cupidon game)) b a.
Proof.
  intros Hd Ht Hab [pa Ha] [pb Hb]. unfold apply_cupidon, contains, bonded.
  rewrite Hd, Ht, Ha, Hb.
  rewrite !bool_decide_eq_true_2 by by eexists.
  simpl. split.
  - exists (set_lover_id (Some b) pa). split; [| done].
    rewrite lookup_alter_ne by done. by rewrite lookup_alter_eq, Ha.
  - exists (set_lover_id (Some a) pb). split; [| done].
    rewrite lookup_alter_eq, lookup_alter_ne by done. by rewrite Hb.
Qed.

(** C9 fails on the code.  The pairing is applied again by every
    [lg_resolve_night] and the Cupidon's menu can be answered again: after
    the answers (101, 103) and (101, 104), each followed by a resolve, 103
    is still bonded to 101 while 101 is bonded to 104. *)
Theorem cupidon_rebinding :
  ∃ game p101 p103,
    rebound_night !! 1 = Some game ∧ phase game = Night ∧ day game = 0 ∧
    players game !! 101 = Some p101 ∧ players game !! 103 = Some p103 ∧
    lover_id p103 = Some 101 ∧ lover_id p101 = Some 104 ∧
    ¬ (∀ a b, bonded (players game) a b → bonded (players game) b a).
Proof.
  eexists _, _, _.
  split; [vm_compute; reflexivity |].
  repeat (split; [reflexivity |]).
  intros Hsym.
  destruct (Hsym 103 101) as (p & Hp & Hl).
  - eexists. split; reflexivity.
  - vm_compute in Hp. by simplify_eq.
Qed.

(** * Further properties: the commands as a state machine *)

(** ** Every accepted command is one [game_step] *)

Ltac handler_cases :=
  unfold steps_game, get_game;
  repeat case_match; simplify_eq/=; try (by left);
  right; do 3 eexists; (split; [eassumption |]); (split; [| reflexivity]).

Ltac bool_facts :=
  repeat match goal with
  | H : bool_decide _ = true |- _ => apply bool_decide_eq_true in H
  | H : bool_decide _ = false |- _ => apply bool_decide_eq_false in H
  | H : negb _ = true |- _ => apply negb_true_iff in H
  | H : negb _ = false |- _ => apply negb_false_iff in H
  | H : _ || _ = false |- _ => apply orb_false_iff in H as [? ?]
  end.

Lemma lg_join_steps (it : Interaction) (G : gmap Z GameState) :
  steps_game G (lg_join it G).2.
Proof.
  unfold lg_join, contains. handler_cases. bool_facts.
  apply gs_join; [done | done |].
  by apply eq_None_not_Some.
Qed.

Lemma lg_leave_steps (it : Interaction) (G : gmap Z GameState) :
  steps_game G (lg_leave it G).2.
Proof.
  unfold lg_leave, contains. handler_cases. bool_facts.
  by apply gs_leave.
Qed.

Lemma lg_start_steps (shuffle : ∀ A : Type, list A → list A)
    (it : Interaction) (G : gmap Z GameState) :
  steps_game G (lg_start shuffle it G).2.
Proof.
  unfold lg_start, role_distribution. handler_cases. bool_facts.
  apply (gs_start shuffle); [done | done | lia].
Qed.

Lemma lg_resolve_night_steps (it : Interaction) (G : gmap Z GameState) :
  steps_game G (lg_resolve_night it G).2.
Proof.
  unfold lg_resolve_night. handler_cases; bool_facts; by apply gs_resolve_night.
Qed.

Lemma lg_finish_night_steps (it : Interaction) (G : gmap Z GameState) :
  steps_game G (lg_finish_night it G).2.
Proof.
  unfold lg_finish_night. handler_cases; bool_facts.
  all: match goal with
       | H : finish_night ?g = _ |- game_step ?g ?g' =>
           replace g' with (finish_game g);
             [by apply gs_finish_night |
              unfold finish_game; rewrite H; simpl;
              match goal with H' : check_victory _ = _ |- _ => by rewrite H' end]
       end.
Qed.

Lemma open_vote_steps (k : VoteKind) (it : Interaction) (G : gmap Z GameState) :
  k ≠ kind_unset → steps_game G (open_vote k it G).2.
Proof.
  intros Hk. unfold open_vote. handler_cases; bool_facts; by apply gs_open_vote.
Qed.

Lemma lg_vote_steps (cible : Z) (it : Interaction) (G : gmap Z GameState) :
  steps_game G (lg_vote cible it G).2.
Proof.
  unfold lg_vote. handler_cases. bool_facts. by apply gs_vote.
Qed.

Lemma lg_vote_end_steps (it : Interaction) (G : gmap Z GameState) :
  steps_game G (lg_vote_end it G).2.
Proof.
  unfold lg_vote_end. unfold steps_game, get_game.
  destruct (i_guild it) as [gid|]; [| by left].
  destruct (G !! gid) as [g|] eqn:Hg; [| by left].
  case_bool_decide as Hph; [by left |].
  destruct (negb (bool_decide (i_user it = created_by g))); [by left |].
  destruct (active (vote g)) eqn:Hact; simpl; [| by left].
  right. exists gid, g, (vote_end_game g).
  split; [done |]. split; [by apply gs_vote_end |].
  unfold vote_end_game. destruct (tally_votes g) as [w counts]. simpl.
  repeat case_match; done.
Qed.

Lemma lg_end_steps (it : Interaction) (G : gmap Z GameState) :
  steps_game G (lg_end it G).2.
Proof. unfold lg_end. handler_cases. apply gs_end. Qed.

Lemma submit_steps (gid actor_id : Z) (action_key : ActionKey) (user : Z)
    (selected : list Z) (G G' : gmap Z GameState) (r : Reply) :
  submit gid actor_id action_key user selected G = Some (r, G') →
  steps_game G G'.
Proof.
  unfold submit, get_game. intros H.
  destruct (G !! gid) as [g|] eqn:Hg; simpl in H; [| done].
  destruct (callback actor_id action_key user selected g) as [r' g'] eqn:Hc.
  simplify_eq.
  destruct (decide (user = actor_id)) as [-> | Hne].
  - destruct r as [why | what | e].
    + left. pose proof (callback_refusal actor_id action_key actor_id selected g)
        as Href. rewrite Hc in Href. simpl in Href. rewrite Href by done.
      by apply insert_id.
    + right. exists gid, g, g'. split; [done |]. split; [| done].
      replace g' with (callback actor_id action_key actor_id selected g).2
        by by rewrite Hc.
      apply (gs_menu _ _ _ what). by rewrite Hc.
    + left. assert (g' = g) as ->; [| by apply insert_id].
      unfold callback in Hc. repeat case_match; simplify_eq/=; done.
  - left. assert (g' = g) as ->; [| by apply insert_id].
    unfold callback in Hc. rewrite bool_decide_eq_false_2 in Hc by done.
    by simplify_eq/=.
Qed.

(** A command either leaves the registry as it is, or makes one
    [game_step] on one registered game, or (for [lg_create]) registers a
    new lobby where there was no game or an ended one. *)
Lemma run_steps (shuffle : ∀ A : Type, list A → list A) (c : Command)
    (it : Interaction) (G : gmap Z GameState) :
  steps_game G (run shuffle c it G).2 ∨
  ∃ gid cid,
    c = Create ∧ i_guild it = Some gid ∧
    (run shuffle c it G).2 = <[gid := new_game gid cid (i_user it)]> G ∧
    (G !! gid = None ∨ ∃ g, G !! gid = Some g ∧ phase g = Ended).
Proof.
  destruct c; simpl.
  - unfold lg_create, steps_game.
    repeat case_match; simplify_eq/=; try (by left; left); bool_facts;
      right; do 2 eexists; (split; [done |]); (split; [done |]);
      (split; [done |]); eauto.
  - left. apply lg_join_steps.
  - left. apply lg_leave_steps.
  - left. apply lg_start_steps.
  - left. apply lg_resolve_night_steps.
  - left. apply lg_finish_night_steps.
  - left. by apply open_vote_steps.
  - left. by apply open_vote_steps.
  - left. apply lg_vote_steps.
  - left. apply lg_vote_end_steps.
Qed.

(** ** What the steps keep *)

Lemma finish_night_frame (game : GameState) :
  vote (finish_night game).1 = vote game ∧
  mayor_id (finish_night game).1 = mayor_id game ∧
  guild_id (finish_night game).1 = guild_id game ∧
  created_by (finish_night game).1 = created_by game ∧
  cupid_done (finish_night game).1 = cupid_done game.
Proof.
  unfold finish_night, apply_deaths, night_effects, direct_kills, black_infect,
    witch_heal.
  repeat case_match; simplify_eq/=; done.
Qed.

Lemma finish_game_fields (g : GameState) :
  players (finish_game g) = players (finish_night g).1 ∧
  (phase (finish_game g) = Day ∨ phase (finish_game g) = Ended) ∧
  started (finish_game g) = started g ∧
  day (finish_game g) = day g + 1 ∧
  vote (finish_game g) = vote g ∧
  mayor_id (finish_game g) = mayor_id g ∧
  guild_id (finish_game g) = guild_id g ∧
  created_by (finish_game g) = created_by g.
Proof.
  destruct (finish_night_fields g) as (_ & _ & _ & _ & _ & Hs & Hp & Hd).
  destruct (finish_night_frame g) as (Hv & Hm & Hg & Hc & _).
  unfold finish_game. destruct (check_victory _); simpl; eauto 10.
Qed.

Lemma players_finish_night (g : GameState) (i : Z) :
  ∃ f : PlayerState → PlayerState,
    players (finish_night g).1 !! i = f <$> players g !! i ∧
    ∀ p, user_id (f p) = user_id p ∧ lover_id (f p) = lover_id p ∧
         (alive (f p) = true → alive p = true).
Proof.
  destruct (finish_night_fields g) as (_ & -> & _).
  set (final := Expand _ _).
  destruct (night_effects_players g) as [-> | [t ->]].
  - rewrite lookup_mark_dead. destruct (decide (i ∈ final)).
    + exists (set_alive false). split; [done |]. by intros [].
    + exists id. split; [by rewrite option_fmap_id |]. done.
  - rewrite lookup_mark_dead, lookup_alter.
    destruct (decide (i ∈ final)), (decide (t = i)) as [-> | Hne].
    + exists (set_alive false ∘ infect_player).
      split; [by rewrite option_fmap_compose |]. by intros [].
    + exists (set_alive false). split; [done |]. by intros [].
    + exists infect_player. split; [done |]. by intros [].
    + exists id. split; [by rewrite option_fmap_id |]. done.
Qed.

Lemma players_apply_deaths (g : GameState) (D : gset Z) (i : Z) :
  players (apply_deaths g D).1 !! i =
    (if decide (i ∈ Expand (players g) D) then set_alive false else id)
      <$> players g !! i.
Proof.
  unfold apply_deaths. simpl. rewrite lookup_mark_dead.
  destruct (decide _); [done | by rewrite option_fmap_id].
Qed.

Lemma vote_end_game_fields (g : GameState) :
  active (vote (vote_end_game g)) = false ∧
  started (vote_end_game g) = started g ∧
  day (vote_end_game g) = day g ∧
  guild_id (vote_end_game g) = guild_id g ∧
  created_by (vote_end_game g) = created_by g ∧
  (mayor_id (vote_end_game g) = mayor_id g ∨
   kind (vote g) = mayor ∧ mayor_id (vote_end_game g) = (tally_votes g).1) ∧
  (players (vote_end_game g) = players g ∨
   ∃ w, kind (vote g) ≠ mayor ∧ (tally_votes g).1 = Some w ∧
        players (vote_end_game g) = (apply_deaths g {[w]}).1.(players)) ∧
  (phase (vote_end_game g) = phase g ∧ kind (vote g) = mayor ∨
   kind (vote g) ≠ mayor ∧
   (phase (vote_end_game g) = Ended ∨ phase (vote_end_game g) = Night)).
Proof.
  unfold vote_end_game. cbn [vote set_vote close_vote kind].
  case_bool_decide as Hk.
  - destruct (tally_votes g).1 as [w|]; simpl; repeat split; eauto.
  - destruct (tally_votes g).1 as [w|]; simpl;
      destruct (check_victory _); simpl; repeat split; eauto 10.
Qed.

Lemma callback_frame (actor_id : Z) (action_key : ActionKey) (user : Z)
    (selected : list Z) (g : GameState) :
  let g' := (callback actor_id action_key user selected g).2 in
  players g' = players g ∧ phase g' = phase g ∧ started g' = started g ∧
  day g' = day g ∧ vote g' = vote g ∧ mayor_id g' = mayor_id g ∧
  guild_id g' = guild_id g ∧ created_by g' = created_by g ∧
  witch_heal_used g' = witch_heal_used g ∧
  witch_kill_used g' = witch_kill_used g ∧
  black_infect_used g' = black_infect_used g.
Proof. unfold callback. repeat case_match; simpl; done. Qed.

Lemma lookup_assign_roles (items : list (Z * PlayerState)) (roles : list Role) :
  ∀ (ps : gmap Z PlayerState) (i : Z),
    ∃ f : PlayerState → PlayerState,
      assign_roles ps items roles !! i = f <$> ps !! i ∧
      ∀ p, same_person p (f p) ∧ infected (f p) = infected p.
Proof.
  unfold assign_roles.
  generalize (zip items roles). intros l.
  induction l as [|[[k q] r] l IH]; intros ps i; simpl.
  - exists id. split; [by rewrite option_fmap_id | done].
  - destruct (IH (alter (set_role (Some r)) k ps) i) as (f & Hf & Hsame).
    rewrite Hf, lookup_alter. destruct (decide (k = i)) as [-> | Hne].
    + exists (f ∘ set_role (Some r)).
      split; [by rewrite option_fmap_compose |].
      intros p. destruct (Hsame (set_role (Some r) p)) as [(? & ? & ?) ?].
      done.
    + by exists f.
Qed.

Lemma game_step_owner (g g' : GameState) :
  game_step g g' → guild_id g' = guild_id g ∧ created_by g' = created_by g.
Proof.
  destruct 1; try done.
  - unfold apply_cupidon. repeat case_match; done.
  - by destruct (finish_game_fields g) as (_ & _ & _ & _ & _ & _ & ? & ?).
  - by destruct (vote_end_game_fields g) as (_ & _ & _ & ? & ? & _).
  - by destruct (callback_frame actor_id action_key actor_id selected g)
      as (_ & _ & _ & _ & _ & _ & ? & ? & _).
Qed.

Lemma tally_winner_target (g : GameState) (w : Z) :
  (tally_votes g).1 = Some w → ∃ v, votes (vote g) !! v = Some w.
Proof.
  intros [Hpos _]%tally_votes_winner.
  apply total_in_pos in Hpos as [v Hv]. exists v.
  by apply elem_of_map_to_list in Hv.
Qed.

Lemma new_game_inv (gid cid owner : Z) : game_inv (new_game gid cid owner).
Proof.
  constructor; simpl; try done. by intros [? | ?].
Qed.

Lemma living_fmap_keep (ps ps' : gmap Z PlayerState) (i : Z)
    (f : PlayerState → PlayerState) :
  ps' !! i = f <$> ps !! i → (∀ p, alive (f p) = alive p) →
  living ps' i ↔ living ps i.
Proof.
  intros Hf Ha. unfold living. rewrite Hf.
  destruct (ps !! i) as [p|]; simpl; [| naive_solver].
  split.
  - intros (q & Hq1 & Hq). injection Hq1 as <-. exists p. by rewrite <- Ha.
  - intros (q & Hq1 & Hq). injection Hq1 as <-. exists (f p). by rewrite Ha.
Qed.

Lemma game_step_inv (g g' : GameState) :
  game_step g g' → game_inv g → game_inv g'.
Proof.
  intros Hstep [Huid Hst Hlob Hday Hfresh Hvote Hmayor].
  destruct Hstep as
    [ uid g Hs Hph Hnew | uid g Hs Hph Hin | shuffle g Hs Hph Hn
    | g Hph | g Hph | k g Hph Hk | voter cible g Hph Hact Hv Hc
    | g Hph Hact | g | actor_id action_key selected what g Hcb ].
  - (* join *)
    constructor; cbn [join_game players phase started day vote mayor_id
                      set_players]; try done.
    + intros i p. rewrite lookup_insert. case_decide; [| by apply Huid].
      intros Hp. by simplify_eq.
    + intros _ i p. rewrite lookup_insert. case_decide; [| by apply Hfresh].
      intros Hp. by simplify_eq.
    + intros Hact. destruct (Hvote Hact) as (_ & ? & _). congruence.
    + intros m Hm. destruct (Hmayor m Hm). congruence.
  - (* leave *)
    constructor; cbn [leave_game players phase started day vote mayor_id
                      set_players]; try done.
    + intros i p [_ Hp]%lookup_delete_Some. by apply Huid.
    + intros _ i p [_ Hp]%lookup_delete_Some. by apply Hfresh.
    + intros Hact. destruct (Hvote Hact) as (_ & ? & _). congruence.
    + intros m Hm. destruct (Hmayor m Hm). congruence.
  - (* start *)
    constructor; cbn [start_game send_night_actions players phase started day
      vote mayor_id set_players set_started set_phase set_day set_protected_id
      set_seer_target_id set_wolf_target_id set_witch_heal_target_id
      set_witch_kill_target_id set_black_infect_target_id]; try done.
    + intros i p Hp.
      destruct (lookup_assign_roles
        (shuffle _ (map_to_list (players g)))
        (shuffle Role (role_table (Z.of_nat (size (players g)))))
        (players g) i) as (f & Hf & Hsame).
      rewrite Hf in Hp. destruct (players g !! i) as [q|] eqn:Hq; [| done].
      simpl in Hp. injection Hp as <-.
      destruct (Hsame q) as [(-> & _) _]. by apply Huid.
    + intros Hact. destruct (Hvote Hact) as (_ & ? & _). congruence.
    + intros m Hm. destruct (Hmayor m Hm). congruence.
  - (* resolve_night *)
    assert (Hf : ∀ i, ∃ f : PlayerState → PlayerState,
      players (apply_cupidon g) !! i = f <$> players g !! i ∧
      ∀ p, user_id (f p) = user_id p ∧ alive (f p) = alive p).
    { intros i. unfold apply_cupidon.
      destruct (cupid_done g); [| by exists id; rewrite option_fmap_id].
      destruct (cupid_targets g) as [|a [|b [|c l]]];
        try by exists id; rewrite option_fmap_id.
      destruct (contains (players g) a && contains (players g) b);
        [| by exists id; rewrite option_fmap_id].
      cbn [players set_players]. rewrite !lookup_alter.
      destruct (decide (b = i)) as [-> | Hb], (decide (a = i)) as [-> | Ha].
      - exists (set_lover_id (Some i) ∘ set_lover_id (Some i)).
        split; [by rewrite option_fmap_compose | done].
      - by exists (set_lover_id (Some a)).
      - by exists (set_lover_id (Some b)).
      - by exists id; rewrite option_fmap_id. }
    assert (Hsame : phase (apply_cupidon g) = phase g ∧
                    started (apply_cupidon g) = started g ∧
                    day (apply_cupidon g) = day g ∧
                    vote (apply_cupidon g) = vote g ∧
                    mayor_id (apply_cupidon g) = mayor_id g).
    { unfold apply_cupidon. repeat case_match; done. }
    destruct Hsame as (Hp' & Hs' & Hd' & Hv' & Hm').
    constructor; rewrite ?Hp', ?Hs', ?Hd', ?Hv', ?Hm'; try done.
    + intros i p Hp. destruct (Hf i) as (f & Hfi & Hfp). rewrite Hfi in Hp.
      destruct (players g !! i) as [q|] eqn:Hq; [| done].
      injection Hp as <-. destruct (Hfp q) as [-> _]. by apply Huid.
    + intros Hs. rewrite Hst in Hs by eauto. done.
    + intros Hact. destruct (Hvote Hact) as ([? | ?] & _); congruence.
    + intros m Hm. destruct (Hmayor m Hm) as [? Hin]. split; [done |].
      destruct (Hf m) as (f & -> & _). by apply fmap_is_Some.
  - (* finish_night *)
    destruct (finish_game_fields g)
      as (Hps & Hp' & Hs' & Hd' & Hv' & Hm' & _).
    assert (started g = true) as Hstarted by eauto.
    constructor; rewrite ?Hps, ?Hs', ?Hd', ?Hv', ?Hm'; try done.
    + intros i p Hp. destruct (players_finish_night g i) as (f & Hfi & Hfp).
      rewrite Hfi in Hp. destruct (players g !! i) as [q|] eqn:Hq; [| done].
      injection Hp as <-. destruct (Hfp q) as (-> & _). by apply Huid.
    + destruct Hp' as [-> | ->]; done.
    + lia.
    + congruence.
    + intros Hact. destruct (Hvote Hact) as ([? | ?] & _); congruence.
    + intros m Hm. destruct (Hmayor m Hm) as [? Hin]. split; [done |].
      destruct (players_finish_night g m) as (f & -> & _).
      by apply fmap_is_Some.
  - (* open vote *)
    assert (started g = true) as Hstarted by eauto.
    constructor; cbn [open_vote_game players phase started day vote mayor_id
                      set_vote active votes]; try done;
      try (intros; congruence).
    intros _. split; [by left |]. split; [done |].
    intros v t. by rewrite lookup_empty.
  - (* vote *)
    constructor; cbn [cast_vote players phase started day vote mayor_id
                      set_vote active votes]; try done.
    intros Hact'. destruct (Hvote Hact) as (Hd & Hs & Hb).
    split; [done |]. split; [done |].
    intros v t. rewrite lookup_insert. case_decide; [| by apply Hb].
    intros [= <-]. subst. by rewrite <- !alive_in_living.
  - (* vote end *)
    destruct (Hvote Hact) as ([Hd | ?] & Hstarted & Hb); [| done].
    destruct (vote_end_game_fields g)
      as (Ha' & Hs' & Hd' & _ & _ & Hm' & Hps & Hp').
    assert (Hf : ∀ i, ∃ f : PlayerState → PlayerState,
      players (vote_end_game g) !! i = f <$> players g !! i ∧
      ∀ p, user_id (f p) = user_id p).
    { intros i. destruct Hps as [-> | (w & _ & _ & ->)].
      - by exists id; rewrite option_fmap_id.
      - rewrite players_apply_deaths. destruct (decide _); by eexists. }
    constructor; rewrite ?Ha', ?Hs', ?Hd'; try done.
    + intros i p Hp. destruct (Hf i) as (f & Hfi & Hfp). rewrite Hfi in Hp.
      destruct (players g !! i) as [q|] eqn:Hq; [| done].
      injection Hp as <-. rewrite Hfp. by apply Huid.
    + destruct Hp' as [[-> _] | [_ [-> | ->]]]; done || congruence.
    + congruence.
    + intros m Hm. split; [done |].
      destruct (Hf m) as (f & -> & _). apply fmap_is_Some.
      destruct Hm' as [Hold | [_ Hnew]].
      * rewrite Hold in Hm. by destruct (Hmayor m Hm).
      * rewrite Hnew in Hm. apply tally_winner_target in Hm as [v Hv].
        destruct (Hb v m Hv) as [_ (p & Hp & _)]. by exists p.
  - (* end *)
    constructor; cbn [players phase started day vote mayor_id set_phase];
      try done.
    + by intros [? | ?].
    + intros Hact. destruct (Hvote Hact) as (_ & ? & ?). eauto.
  - (* menu *)
    destruct (callback_frame actor_id action_key actor_id selected g)
      as (Hps & Hp' & Hs' & Hd' & Hv' & Hm' & _).
    constructor; rewrite ?Hps, ?Hp', ?Hs', ?Hd', ?Hv', ?Hm'; done.
Qed.

(** Every registered game of a reachable registry satisfies the invariant
    and is filed under its own guild. *)
Lemma steps_game_inv (G G' : gmap Z GameState) :
  steps_game G G' →
  (∀ gid g, G !! gid = Some g → game_inv g ∧ guild_id g = gid) →
  ∀ gid g, G' !! gid = Some g → game_inv g ∧ guild_id g = gid.
Proof.
  intros [-> | (gid0 & g0 & g1 & Hg0 & Hstep & ->)] Hinv gid g; [by apply Hinv |].
  rewrite lookup_insert. case_decide as Hgid; [| by apply Hinv].
  intros [= <-]. subst gid0. destruct (Hinv gid g0 Hg0) as [Hi Hgid].
  split; [by apply (game_step_inv g0) |].
  by destruct (game_step_owner g0 g1 Hstep) as [-> _].
Qed.

Lemma step_inv (G G' : gmap Z GameState) :
  step G G' →
  (∀ gid g, G !! gid = Some g → game_inv g ∧ guild_id g = gid) →
  ∀ gid g, G' !! gid = Some g → game_inv g ∧ guild_id g = gid.
Proof.
  intros Hstep Hinv.
  destruct Hstep as [shuffle c it | it | gid0 a k u sel r G' Hsub].
  - destruct (run_steps shuffle c it G)
      as [Hs | (gid0 & cid & _ & _ & -> & _)];
      [by apply (steps_game_inv G) |].
    intros gid g. rewrite lookup_insert. case_decide; [| by apply Hinv].
    intros [= <-]. subst. split; [apply new_game_inv | done].
  - apply (steps_game_inv G); [apply lg_end_steps | done].
  - apply (steps_game_inv G); [| done].
    by apply (submit_steps gid0 a k u sel G G' r).
Qed.

Lemma reachable_inv (G : gmap Z GameState) :
  reachable G → ∀ gid g, G !! gid = Some g → game_inv g ∧ guild_id g = gid.
Proof.
  unfold reachable. intros Hr.
  apply rtc_nsteps in Hr as [n Hn]. revert G Hn.
  induction n as [|n IH]; intros G Hn.
  - inversion Hn; subst. intros gid g. by rewrite lookup_empty.
  - apply nsteps_inv_r in Hn as (G1 & Hn & Hstep).
    apply (step_inv G1); [done | by apply IH].
Qed.

(** ** How the lobby commands compose *)

Lemma set_players_same (g : GameState) : set_players (players g) g = g.
Proof. by destruct g. Qed.

(** X1. Joining and then leaving again puts the registry back exactly as
    it was. *)
Theorem join_then_leave (it : Interaction) (G G1 : gmap Z GameState) :
  lg_join it G = (Accepted joined, G1) →
  lg_leave it G1 = (Accepted left, G).
Proof.
  unfold lg_join, lg_leave, get_game, contains.
  destruct (i_guild it) as [gid|]; [| done].
  destruct (G !! gid) as [g|] eqn:Hg; [| done].
  case_bool_decide as Hph; [done |].
  destruct (started g) eqn:Hs; [done |].
  case_bool_decide as Hin; [done |].
  intros [= <-]. rewrite lookup_insert_eq.
  cbn [phase started players set_players].
  rewrite (bool_decide_eq_false_2 _ Hph), Hs.
  rewrite bool_decide_eq_true_2 by (rewrite lookup_insert_eq; by eexists).
  f_equal. rewrite insert_insert_eq.
  apply eq_None_not_Some in Hin.
  replace (set_players _ (set_players _ g)) with g; [by apply insert_id |].
  unfold set_players at 1. cbn [players set_players guild_id channel_id
    created_by started phase day mayor_id protected_id seer_target_id
    wolf_target_id witch_heal_used witch_kill_used witch_heal_target_id
    witch_kill_target_id cupid_done cupid_targets black_infect_used
    black_infect_target_id vote].
  rewrite delete_insert_id by done. by destruct g.
Qed.

(** X2. A voter's later ballot replaces the earlier one: voting for [a]
    and then for [b] leaves the registry as a single vote for [b] does. *)
Theorem vote_again_replaces (a b : Z) (it : Interaction)
    (G G1 G2 : gmap Z GameState) :
  lg_vote a it G = (Accepted vote_recorded, G1) →
  lg_vote b it G = (Accepted vote_recorded, G2) →
  lg_vote b it G1 = (Accepted vote_recorded, G2).
Proof.
  unfold lg_vote, get_game.
  destruct (i_guild it) as [gid|]; [| done].
  destruct (G !! gid) as [g|] eqn:Hg; [| done].
  case_bool_decide as Hph; [done |].
  destruct (active (vote g)) eqn:Hact; [| done]. cbn [negb].
  destruct (alive_in (players g) (i_user it)) eqn:Hv; [| done]. cbn [negb].
  destruct (alive_in (players g) a) eqn:Ha; [| done]. cbn [negb].
  destruct (alive_in (players g) b) eqn:Hb; [| done]. cbn [negb].
  intros [= <-] [= <-]. rewrite lookup_insert_eq.
  cbn [phase vote set_vote active players kind votes].
  rewrite (bool_decide_eq_false_2 _ Hph), ?Hact, ?Hv, ?Hb. cbn [negb].
  by rewrite !insert_insert_eq.
Qed.

(** The Cupidon pairing is idempotent. *)
Lemma apply_cupidon_idem (g : GameState) :
  apply_cupidon (apply_cupidon g) = apply_cupidon g.
Proof.
  unfold apply_cupidon.
  destruct (cupid_done g) eqn:Hd; [| by rewrite Hd].
  destruct (cupid_targets g) as [|a [|b [|c l]]] eqn:Ht;
    try by rewrite Hd, Ht.
  destruct (contains (players g) a && contains (players g) b) eqn:Hc;
    [| by rewrite Hd, Ht, Hc].
  cbn [cupid_done cupid_targets players set_players]. rewrite Hd, Ht.
  apply andb_true_iff in Hc as [Ha Hb]. unfold contains in *.
  apply bool_decide_eq_true in Ha, Hb.
  rewrite !bool_decide_eq_true_2 by by rewrite !lookup_alter_is_Some.
  cbn [andb]. unfold set_players. cbn. f_equal.
  apply map_eq. intros i. rewrite !lookup_alter.
  repeat case_decide; simplify_eq;
    repeat match goal with |- context [players g !! ?k] =>
      destruct (players g !! k) end; done.
Qed.

(** X3. [lg_resolve_night] can be repeated: a second run right after the
    first answers the same and changes nothing more. *)
Theorem resolve_night_twice (it : Interaction) (G : gmap Z GameState) :
  lg_resolve_night it (lg_resolve_night it G).2 = lg_resolve_night it G.
Proof.
  unfold lg_resolve_night, get_game.
  destruct (i_guild it) as [gid|]; [| done].
  destruct (G !! gid) as [g|] eqn:Hg; cbn [snd]; rewrite ?Hg; [| done].
  case_bool_decide as Hph; cbn [snd]; rewrite ?Hg;
    rewrite ?(bool_decide_eq_true_2 _ Hph); [done |].
  destruct (bool_decide (i_user it = created_by g)) eqn:Hu; cbn [negb snd];
    rewrite ?Hg, ?(bool_decide_eq_false_2 _ Hph), ?Hu; [| done].
  destruct (bool_decide (phase g = Night)) eqn:Hn; cbn [negb snd];
    rewrite ?Hg, ?(bool_decide_eq_false_2 _ Hph), ?Hu, ?Hn; [| done].
  rewrite lookup_insert_eq.
  assert (Hsame : phase (apply_cupidon g) = phase g ∧
                  created_by (apply_cupidon g) = created_by g).
  { unfold apply_cupidon. repeat case_match; done. }
  destruct Hsame as [-> ->].
  rewrite (bool_decide_eq_false_2 _ Hph), Hu, Hn. cbn [negb].
  by rewrite apply_cupidon_idem, insert_insert_eq.
Qed.

(** X4. Once [lg_end] has passed its guards the game is ended, whether the
    command then answers or fails on the lost room.  From then on every
    command of the game but [lg_create] is refused for want of a game,
    whoever sends it, and [lg_create] registers a new empty lobby owned by
    its caller.  [lg_end] itself has no test of the phase: sent again, it
    is refused to anybody but the creator, and for the creator it runs
    again and leaves the registry as it is. *)
Theorem ended_game_refuses (shuffle : ∀ A : Type, list A → list A)
    (rooms rooms' : gset Z) (it it' : Interaction) (G : gmap Z GameState)
    (gid cid : Z) (c : Command) :
  is_rejection (lg_end_in rooms it G).1 = false →
  i_guild it = Some gid → i_guild it' = Some gid →
  let G' := (lg_end_in rooms it G).2 in
  (c ≠ Create → run_in shuffle rooms' c it' G' = (Rejected no_game, G')) ∧
  (i_text_channel it' = Some cid →
   lg_create it' G'
     = (Accepted created, <[gid := new_game gid cid (i_user it')]> G')) ∧
  (i_user it' ≠ i_user it →
   lg_end_in rooms' it' G' = (Rejected not_creator, G')) ∧
  (i_user it' = i_user it →
   (lg_end_in rooms' it' G').2 = G' ∧
   ((lg_end_in rooms' it' G').1 = Accepted game_stopped ∨
    (lg_end_in rooms' it' G').1 = Raised AssertionError)).
Proof.
  intros Hend Hg Hg'.
  assert (∃ g, G !! gid = Some g ∧ i_user it = created_by g ∧
               (lg_end_in rooms it G).2 = <[gid := set_phase Ended g]> G)
    as (g & Hgame & Hc & ->).
  { revert Hend. unfold lg_end_in, get_game, channel. rewrite Hg.
    destruct (G !! gid) as [g|]; [| done].
    case_bool_decide as Hc; cbn [negb]; [| done].
    intros _. exists g. split; [done |]. split; [done |].
    by case_bool_decide. }
  cbv zeta. split; [| split; [| split]].
  - intros Hne. destruct c; try done; cbn [run_in];
      unfold lg_join, lg_leave, lg_start_in, lg_resolve_night_in,
        lg_finish_night_in, lg_mayor_start_in, lg_dayvote_start_in,
        open_vote_in, lg_vote, lg_vote_end_in, get_game;
      rewrite Hg', lookup_insert_eq; done.
  - intros Hcid. unfold lg_create. rewrite Hg', Hcid, lookup_insert_eq. done.
  - intros Hu. unfold lg_end_in, get_game. rewrite Hg', lookup_insert_eq.
    cbn [created_by set_phase].
    rewrite bool_decide_eq_false_2 by congruence. done.
  - intros Hu. unfold lg_end_in, get_game, channel.
    rewrite Hg', lookup_insert_eq. cbn [created_by set_phase].
    rewrite bool_decide_eq_true_2 by congruence. cbn [negb].
    simpl (channel_id _).
    assert (Hsame : <[gid := set_phase Ended (set_phase Ended g)]>
                      (<[gid := set_phase Ended g]> G)
                    = <[gid := set_phase Ended g]> G)
      by by rewrite insert_insert_eq.
    case_bool_decide; cbn [fst snd]; rewrite Hsame; eauto.
Qed.

(** X5. Death propagation distributes over the union of the direct kills:
    expanding two sets together gives the union of their expansions. *)
Theorem Expand_union (players : gmap Z PlayerState) (D1 D2 : gset Z) :
  Expand players (D1 ∪ D2) = Expand players D1 ∪ Expand players D2.
Proof.
  apply set_eq. intros x. rewrite elem_of_union, !Expand_chain. split.
  - induction 1 as [d Hd Hl | d l _ IH Hb Hl Hz].
    + apply elem_of_union in Hd as [Hd | Hd];
        [left | right]; by apply chain_direct.
    + destruct IH as [IH | IH]; [left | right]; by apply chain_bond with d.
  - intros [H | H]; (eapply chain_mono; [| exact H]);
      intros d Hd Hl; apply chain_direct; set_solver.
Qed.

(** ** What a night can do *)

Lemma night_effects_deaths (g : GameState) :
  (night_effects g).2 =
    (let v := (black_infect (witch_heal (g, base_victim g))).2 in
     if truthy v then id_set v else ∅) ∪ poison_of g.
Proof.
  unfold night_effects.
  pose proof (witch_heal_kill_fields (g, base_victim g)) as [Ht Hu].
  pose proof (black_infect_kill_fields (witch_heal (g, base_victim g)))
    as [Ht' Hu'].
  destruct (black_infect (witch_heal (g, base_victim g))) as [g2 v2].
  rewrite direct_kills_deaths. cbn [fst snd] in *. f_equal.
  apply poison_of_frame; congruence.
Qed.

Lemma night_victim_cases (g : GameState) :
  let v := (black_infect (witch_heal (g, base_victim g))).2 in
  v = None ∨ v = wolf_target_id g.
Proof.
  cbn zeta.
  destruct (black_infect_frame (witch_heal (g, base_victim g)))
    as (_ & [-> | ->] & _); [| by left].
  destruct (witch_heal_frame (g, base_victim g)) as (_ & _ & _ & [-> | ->]);
    [| by left].
  cbn [snd]. unfold base_victim. case_match; eauto.
Qed.

Lemma Expand_mono (players : gmap Z PlayerState) (D D' : gset Z) :
  D ⊆ D' → Expand players D ⊆ Expand players D'.
Proof.
  intros Hsub x. rewrite !Expand_chain. apply chain_mono.
  intros d Hd Hl. apply chain_direct; [by apply Hsub | done].
Qed.

Lemma Expand_night_effects (g : GameState) (D : gset Z) :
  Expand (players (night_effects g).1) D = Expand (players g) D.
Proof.
  destruct (night_effects_players g) as [-> | [t ->]]; [done |].
  apply Expand_infect.
Qed.

(** X6. Nobody dies in a night but the participants reached, through
    living bonds, from the wolves' target and the poison target; all of
    them were alive, and the night changes nobody else's alive flag. *)
Theorem night_deaths_bound (g : GameState) :
  let final := (finish_night g).2 in
  final ⊆ Expand (players g)
            (id_set (wolf_target_id g) ∪ id_set (witch_kill_target_id g)) ∧
  (∀ i, i ∈ final → living (players g) i) ∧
  (∀ i, alive_in (players (finish_night g).1) i
        = alive_in (players g) i && bool_decide (i ∉ final)).
Proof.
  destruct (finish_night_fields g) as (Hf & Hp & _). cbn zeta in *.
  rewrite Expand_night_effects in Hf.
  split; [| split].
  - rewrite Hf. apply Expand_mono. rewrite night_effects_deaths. cbn zeta.
    apply union_mono.
    + destruct (night_victim_cases g) as [-> | ->]; [set_solver |].
      destruct (truthy (wolf_target_id g)); set_solver.
    + unfold poison_of. case_match; set_solver.
  - intros i Hi. rewrite Hf in Hi. by apply Expand_living in Hi.
  - intros i. rewrite Hp, Expand_night_effects, <- Hf.
    rewrite alive_in_mark_dead, night_effects_alive.
    destruct (decide (i ∈ (finish_night g).2)) as [Hin | Hin].
    + rewrite bool_decide_eq_false_2 by (by intros ?). by rewrite andb_false_r.
    + rewrite bool_decide_eq_true_2 by done. by rewrite andb_true_r.
Qed.

(** X7. A living victim of the wolves whom the guard did not protect, whom
    no usable heal names and no usable infection names, is dead in the
    morning, and so is a living bonded partner. *)
Theorem unprotected_victim_dies (it : Interaction) (GAMES : gmap Z GameState)
    (gid : Z) (g : GameState) (t : Z) :
  i_guild it = Some gid → GAMES !! gid = Some g →
  phase g = Night → i_user it = created_by g →
  wolf_target_id g = Some t → t ≠ 0 → living (players g) t →
  protected_id g ≠ Some t →
  witch_heal_target_id g ≠ Some t ∨ witch_heal_used g = true →
  black_infect_target_id g ≠ Some t ∨ black_infect_used g = true →
  ∃ what g',
    lg_finish_night it GAMES = (Accepted what, <[gid := g']> GAMES) ∧
    t ∈ (finish_night g).2 ∧
    alive_in (players g') t = false ∧
    ∀ l, bonded (players g) t l → living (players g) l → l ≠ 0 →
         alive_in (players g') l = false.
Proof.
  intros Hg Hgame Hph Hcaller Hw Hz Hl Hprot Hheal Hinf.
  destruct (lg_finish_night_accepted it GAMES gid g)
    as (what & g' & Hrun & Hg'); [done.. |].
  exists what, g'. split; [done |].
  assert (Hv : (black_infect (witch_heal (g, base_victim g))).2 = Some t).
  { assert (base_victim g = Some t) as ->.
    { unfold base_victim. rewrite Hw.
      by rewrite (bool_decide_eq_false_2 (protected_id g = Some t)), andb_false_r. }
    assert ((witch_heal (g, Some t)).2 = Some t) as Hh.
    { unfold witch_heal.
      destruct (truthy (witch_heal_target_id g) && negb (witch_heal_used g))
        eqn:E; [| done].
      cbn [snd]. case_bool_decide as Hb; [| done].
      destruct Hheal as [? | Hu]; [congruence |].
      rewrite Hu, andb_false_r in E. done. }
    destruct (witch_heal_frame (g, Some t)) as (_ & Hit & Hiu & _).
    destruct (witch_heal (g, Some t)) as [g1 v1]. cbn [fst snd] in *. subst v1.
    unfold black_infect.
    destruct (truthy (black_infect_target_id g1) && negb (black_infect_used g1))
      eqn:E; [| done].
    destruct (black_infect_target_id g1) as [i|] eqn:Hi; [| done].
    destruct (players g1 !! i); [| done].
    destruct (alive _ && _); [| done]. cbn [snd].
    case_bool_decide as Hb; [| done].
    destruct Hinf as [? | Hu]; [congruence |].
    rewrite Hiu, Hu, andb_false_r in E. done. }
  destruct (finish_night_fields g) as (Hf & Hp & _). cbn zeta in *.
  rewrite Expand_night_effects in Hf, Hp.
  assert (Hchain : chain (players g) (night_effects g).2 t).
  { apply chain_direct; [| done].
    rewrite night_effects_deaths. cbn zeta. rewrite Hv, (truthy_Some t Hz).
    set_solver. }
  assert (Hdead : ∀ i, i ∈ (finish_night g).2 → alive_in (players g') i = false).
  { intros i Hi.
    assert (players g' = players (finish_night g).1) as ->
      by by destruct Hg' as [-> | ->].
    rewrite Hp, <- Hf, alive_in_mark_dead. by rewrite decide_True. }
  split; [by rewrite Hf, Expand_chain |].
  split; [apply Hdead; by rewrite Hf, Expand_chain |].
  intros l Hb Hll Hlz. apply Hdead. rewrite Hf, Expand_chain.
  by apply chain_bond with t.
Qed.

(** X8. When the guard protects the participant the wolves picked, the
    wolves kill nobody: the direct kills are the poison's alone and, with
    no poison applied, everybody alive in the evening is alive in the
    morning. *)
Theorem guard_saves (g : GameState) (t : Z) :
  wolf_target_id g = Some t → protected_id g = Some t → t ≠ 0 →
  (night_effects g).2 = poison_of g ∧
  (poison_of g = ∅ →
   (finish_night g).2 = ∅ ∧
   ∀ i, alive_in (players (finish_night g).1) i = alive_in (players g) i).
Proof.
  intros Hw Hp Hz.
  assert (Hb : base_victim g = None).
  { unfold base_victim. rewrite Hw, Hp, (truthy_Some t Hz).
    by rewrite bool_decide_eq_true_2. }
  assert (Hv : (black_infect (witch_heal (g, base_victim g))).2 = None).
  { destruct (black_infect_frame (witch_heal (g, base_victim g)))
      as (_ & [-> | ->] & _); [| done].
    destruct (witch_heal_frame (g, base_victim g))
      as (_ & _ & _ & [-> | ->]); done. }
  assert (Hd : (night_effects g).2 = poison_of g).
  { rewrite night_effects_deaths. cbn zeta. rewrite Hv. cbn [truthy].
    by rewrite (left_id_L ∅ (∪)). }
  split; [done |]. intros Hnone.
  destruct (finish_night_fields g) as (Hf & Hfp & _). cbn zeta in *.
  rewrite Hd, Hnone, Expand_empty in Hf, Hfp. split; [done |].
  intros i. by rewrite Hfp, mark_dead_empty, night_effects_alive.
Qed.

(** ** Starting a game *)

Lemma role_table_length (n : Z) :
  8 ≤ n ≤ 15 → Z.of_nat (length (role_table n)) = n.
Proof.
  intros Hn.
  destruct (role_table_cases n Hn) as [->|[->|[->|[->|[->|[->|[->| ->]]]]]]];
    reflexivity.
Qed.

Lemma keyed_fst (l : list ((Z * PlayerState) * Role)) :
  ((λ ir : (Z * PlayerState) * Role, (ir.1.1, ir.2)) <$> l).*1 = l.*1.*1.
Proof.
  induction l as [|x l IH]; [done |]. rewrite !fmap_cons. by f_equal.
Qed.

Lemma keyed_snd (l : list ((Z * PlayerState) * Role)) :
  ((λ ir : (Z * PlayerState) * Role, (ir.1.1, ir.2)) <$> l).*2 = l.*2.
Proof.
  induction l as [|x l IH]; [done |]. rewrite !fmap_cons. by f_equal.
Qed.

(** The roles dealt by the loop of [lg_start], as a map from player to
    role. *)
Lemma lookup_assign_roles_keyed (l : list ((Z * PlayerState) * Role)) :
  NoDup l.*1.*1 →
  ∀ (ps : gmap Z PlayerState) (i : Z),
    foldl (λ m ir, alter (set_role (Some ir.2)) ir.1.1 m) ps l !! i =
      match (list_to_map ((λ ir, (ir.1.1, ir.2)) <$> l) : gmap Z Role) !! i with
      | Some r => set_role (Some r) <$> ps !! i
      | None => ps !! i
      end.
Proof.
  induction l as [|[[k q] r] l IH]; intros Hnd ps i; [done |].
  rewrite !fmap_cons in Hnd. apply NoDup_cons in Hnd as [Hk Hnd].
  simpl. rewrite IH by done. rewrite lookup_insert.
  destruct (decide (k = i)) as [-> | Hne].
  - rewrite (not_elem_of_list_to_map_1 _ i), lookup_alter_eq; [done |].
    by rewrite keyed_fst.
  - by rewrite lookup_alter_ne.
Qed.

Section Deal.
Variable shuffle : ∀ A : Type, list A → list A.
Hypothesis shuffle_perm : ∀ A (l : list A), shuffle A l ≡ₚ l.
Variable g : GameState.
Hypothesis party : 8 ≤ Z.of_nat (size (players g)) ≤ 15.

Let n := Z.of_nat (size (players g)).
Let items := shuffle _ (map_to_list (players g)).
Let roles := shuffle Role (role_table n).
Let dealt : gmap Z Role :=
  list_to_map ((λ ir : (Z * PlayerState) * Role, (ir.1.1, ir.2))
                 <$> zip items roles).

Lemma deal_lengths : length items = length roles.
Proof.
  unfold items, roles.
  rewrite (Permutation_length (shuffle_perm _ _)).
  rewrite (Permutation_length (shuffle_perm _ _)).
  rewrite length_map_to_list. pose proof (role_table_length n party).
  unfold n in *. lia.
Qed.

Lemma deal_keys : ((zip items roles).*1).*1 = items.*1.
Proof. rewrite fst_zip; [done |]. by rewrite deal_lengths. Qed.

Lemma deal_NoDup : NoDup items.*1.
Proof.
  unfold items. rewrite (shuffle_perm _ (map_to_list (players g))).
  apply NoDup_fst_map_to_list.
Qed.

Lemma dealt_is_Some (i : Z) : is_Some (dealt !! i) ↔ is_Some (players g !! i).
Proof.
  unfold dealt. rewrite <- !elem_of_dom, dom_list_to_map_L.
  rewrite elem_of_list_to_set, keyed_fst, deal_keys. unfold items.
  rewrite (shuffle_perm _ (map_to_list (players g))).
  rewrite elem_of_dom. split.
  - intros ([k p] & -> & Hin)%list_elem_of_fmap.
    apply elem_of_map_to_list in Hin. by eexists.
  - intros [p Hp]. apply list_elem_of_fmap. exists (i, p).
    split; [done |]. by apply elem_of_map_to_list.
Qed.

Lemma start_game_players (i : Z) :
  players (start_game shuffle g) !! i =
    match dealt !! i with
    | Some r => set_role (Some r) <$> players g !! i
    | None => players g !! i
    end.
Proof.
  unfold start_game. cbn. unfold assign_roles.
  apply lookup_assign_roles_keyed. fold n. fold items. fold roles.
  rewrite deal_keys. apply deal_NoDup.
Qed.

Lemma start_game_roles :
  role <$> players (start_game shuffle g) = Some <$> dealt.
Proof.
  apply map_eq. intros i. rewrite !lookup_fmap, start_game_players.
  pose proof (dealt_is_Some i) as Hd.
  destruct (dealt !! i) as [r|], (players g !! i) as [p|]; simpl; try done.
  - destruct Hd as [Hd _]. by destruct Hd.
  - destruct Hd as [_ Hd]. by destruct Hd.
Qed.

Lemma dealt_values : (map_to_list dealt).*2 ≡ₚ role_table n.
Proof.
  unfold dealt. rewrite map_to_list_to_map.
  2:{ rewrite keyed_fst, deal_keys. apply deal_NoDup. }
  rewrite keyed_snd.
  rewrite snd_zip by by rewrite deal_lengths.
  apply shuffle_perm.
Qed.

Lemma start_game_role_values :
  role <$> player_values (start_game shuffle g) ≡ₚ Some <$> role_table n.
Proof.
  unfold player_values.
  rewrite <- dealt_values.
  trans ((map_to_list (role <$> players (start_game shuffle g))).*2).
  - rewrite map_to_list_fmap, <- !list_fmap_compose. done.
  - rewrite start_game_roles, map_to_list_fmap, <- !list_fmap_compose. done.
Qed.

End Deal.

Lemma count_by_roles (vals : list PlayerState) (b : bool) :
  Forall (λ p, alive p = true) vals →
  length (filter (λ p, is_wolf (role p) = b)
            (filter (λ p, alive p = true) vals))
  = length (filter (λ r, is_wolf r = b) (role <$> vals)).
Proof.
  induction 1 as [|p vals Hp _ IH]; [done |].
  rewrite fmap_cons, !filter_cons. rewrite decide_True by done.
  rewrite filter_cons. destruct (decide (is_wolf (role p) = b)); simpl;
    by rewrite IH.
Qed.

Lemma faction_counts (n : Z) :
  8 ≤ n ≤ 15 →
  let wolves := length (filter (λ r, is_wolf r = true) (Some <$> role_table n)) in
  let others := length (filter (λ r, is_wolf r = false) (Some <$> role_table n)) in
  (0 < wolves < others)%nat.
Proof.
  intros Hn.
  destruct (role_table_cases n Hn) as [->|[->|[->|[->|[->|[->|[->| ->]]]]]]];
    vm_compute; lia.
Qed.

Lemma start_deals_distribution_aux (shuffle : ∀ A : Type, list A → list A)
    (it : Interaction) (G : gmap Z GameState) (gid : Z) (g : GameState) :
  (∀ A (l : list A), shuffle A l ≡ₚ l) →
  i_guild it = Some gid → G !! gid = Some g → phase g ≠ Ended →
  i_user it = created_by g → started g = false →
  8 ≤ Z.of_nat (size (players g)) ≤ 15 →
  lg_start shuffle it G
    = (Accepted game_started, <[gid := start_game shuffle g]> G) ∧
  role <$> player_values (start_game shuffle g)
    ≡ₚ Some <$> role_table (Z.of_nat (size (players g))) ∧
  (∀ i p', players (start_game shuffle g) !! i = Some p' →
     ∃ p, players g !! i = Some p ∧ same_person p p' ∧ is_Some (role p')) ∧
  (∀ i, players (start_game shuffle g) !! i = None ↔ players g !! i = None).
Proof.
  intros Hperm Hg Hgame Hph Hcaller Hs Hn. split.
  { unfold lg_start, get_game, role_distribution.
    rewrite Hg, Hgame, (bool_decide_eq_false_2 _ Hph), Hcaller, Hs.
    rewrite bool_decide_eq_true_2 by done. cbn [negb].
    replace ((_ <? 8) || (_ >? 15)) with false by lia. done. }
  split; [by apply start_game_role_values |].
  pose proof (dealt_is_Some shuffle Hperm g Hn) as Hd.
  pose proof (start_game_players shuffle Hperm g Hn) as Hl.
  cbn zeta in Hd, Hl. split.
  - intros i p' Hp'. rewrite Hl in Hp'. specialize (Hd i).
    destruct (list_to_map _ !! i) as [r|].
    + destruct (players g !! i) as [p|]; [| done].
      injection Hp' as <-. exists p. split; [done |]. split; [done |].
      by eexists.
    + destruct Hd as [_ Hd]. destruct Hd; [by eexists | done].
  - intros i. rewrite Hl. specialize (Hd i).
    destruct (list_to_map _ !! i) as [r|]; [| done].
    by rewrite fmap_None.
Qed.

Lemma channel_found (game : GameState) (rooms : gset Z) :
  channel_id game ∈ rooms → channel game rooms = Ok (channel_id game).
Proof. intros H. unfold channel. by rewrite bool_decide_eq_true_2. Qed.

Lemma channel_gone (game : GameState) (rooms : gset Z) :
  channel_id game ∉ rooms → channel game rooms = Raise AssertionError.
Proof. intros H. unfold channel. by rewrite bool_decide_eq_false_2. Qed.

Lemma start_game_deal_game (shuffle : ∀ A : Type, list A → list A)
    (g : GameState) :
  start_game shuffle g = send_night_actions (deal_game shuffle g).
Proof. reflexivity. Qed.

(** [lg_start] past its guards: the start is written, then the room is
    looked up. *)
Lemma lg_start_in_passed (shuffle : ∀ A : Type, list A → list A)
    (rooms : gset Z) (it : Interaction) (G : gmap Z GameState) (gid : Z)
    (g : GameState) :
  i_guild it = Some gid → G !! gid = Some g → phase g ≠ Ended →
  i_user it = created_by g → started g = false →
  8 ≤ Z.of_nat (size (players g)) ≤ 15 →
  lg_start_in shuffle rooms it G =
    if bool_decide (channel_id g ∈ rooms)
    then (Accepted game_started, <[gid := start_game shuffle g]> G)
    else (Raised AssertionError, <[gid := deal_game shuffle g]> G).
Proof.
  intros Hg Hgame Hph Hcaller Hs Hn.
  unfold lg_start_in, get_game, role_distribution, channel.
  rewrite Hg, Hgame, (bool_decide_eq_false_2 _ Hph), Hcaller, Hs.
  rewrite bool_decide_eq_true_2 by done. cbn [negb].
  replace ((_ <? 8) || (_ >? 15)) with false by lia.
  cbv zeta. cbn [channel_id set_day set_phase set_started set_players].
  by case_bool_decide.
Qed.

(** Whatever [lg_start] answers, it answers a refusal, the acceptance, or
    the failed lookup of the room after all guards have passed. *)
Lemma lg_start_in_cases (shuffle : ∀ A : Type, list A → list A)
    (rooms : gset Z) (it : Interaction) (G : gmap Z GameState) :
  (∃ r, lg_start_in shuffle rooms it G = (Rejected r, G)) ∨
  ∃ gid g,
    i_guild it = Some gid ∧ G !! gid = Some g ∧ phase g ≠ Ended ∧
    i_user it = created_by g ∧ started g = false ∧
    8 ≤ Z.of_nat (size (players g)) ≤ 15.
Proof.
  unfold lg_start_in, get_game.
  destruct (i_guild it) as [gid|]; [| left; eauto].
  destruct (G !! gid) as [g|] eqn:Hg; [| left; eauto].
  case_bool_decide as Hph; [left; eauto |].
  case_bool_decide as Hc; cbn [negb]; [| left; eauto].
  destruct (started g) eqn:Hs; [left; eauto |].
  cbv zeta.
  destruct (_ || _) eqn:Hn; [left; eauto |].
  right. exists gid, g. apply orb_false_iff in Hn as [H1 H2].
  repeat (split; [done |]). lia.
Qed.

Lemma deal_game_fields (shuffle : ∀ A : Type, list A → list A)
    (g : GameState) :
  players (deal_game shuffle g) = players (start_game shuffle g) ∧
  started (deal_game shuffle g) = true ∧ phase (deal_game shuffle g) = Night ∧
  day (deal_game shuffle g) = 0 ∧
  wolf_target_id (deal_game shuffle g) = wolf_target_id g ∧
  protected_id (deal_game shuffle g) = protected_id g ∧
  seer_target_id (deal_game shuffle g) = seer_target_id g ∧
  witch_heal_target_id (deal_game shuffle g) = witch_heal_target_id g ∧
  witch_kill_target_id (deal_game shuffle g) = witch_kill_target_id g ∧
  black_infect_target_id (deal_game shuffle g) = black_infect_target_id g.
Proof. repeat split. Qed.

(** X9. Past its guards, [lg_start] carries the start out whether or not
    the room of the game is found: the game is started, in its first night,
    day 0; everybody keeps identity, alive flag and bond and gets one role,
    and the roles dealt are, as a multiset, the role table of the party
    size.  With the room found the command is accepted and the night
    storage is empty; with the room gone it raises [AssertionError] with
    the start already written and the night storage as it was. *)
Theorem start_deals_distribution (shuffle : ∀ A : Type, list A → list A)
    (rooms : gset Z) (it : Interaction) (G : gmap Z GameState) (gid : Z)
    (g : GameState) :
  (∀ A (l : list A), shuffle A l ≡ₚ l) →
  i_guild it = Some gid → G !! gid = Some g → phase g ≠ Ended →
  i_user it = created_by g → started g = false →
  8 ≤ Z.of_nat (size (players g)) ≤ 15 →
  ∃ g',
    (lg_start_in shuffle rooms it G).2 = <[gid := g']> G ∧
    started g' = true ∧ phase g' = Night ∧ day g' = 0 ∧
    role <$> player_values g'
      ≡ₚ Some <$> role_table (Z.of_nat (size (players g))) ∧
    (∀ i, players g' !! i = None ↔ players g !! i = None) ∧
    (∀ i p', players g' !! i = Some p' →
       is_Some (role p') ∧
       ∃ p, players g !! i = Some p ∧ same_person p p') ∧
    (channel_id g ∈ rooms →
     (lg_start_in shuffle rooms it G).1 = Accepted game_started ∧
     wolf_target_id g' = None ∧ protected_id g' = None ∧
     seer_target_id g' = None ∧ witch_heal_target_id g' = None ∧
     witch_kill_target_id g' = None ∧ black_infect_target_id g' = None) ∧
    (channel_id g ∉ rooms →
     (lg_start_in shuffle rooms it G).1 = Raised AssertionError ∧
     wolf_target_id g' = wolf_target_id g ∧
     protected_id g' = protected_id g ∧
     seer_target_id g' = seer_target_id g ∧
     witch_heal_target_id g' = witch_heal_target_id g ∧
     witch_kill_target_id g' = witch_kill_target_id g ∧
     black_infect_target_id g' = black_infect_target_id g).
Proof.
  intros Hperm Hg Hgame Hph Hcaller Hs Hn.
  destruct (start_deals_distribution_aux shuffle it G gid g)
    as (_ & Hroles & Hsame & Hdom); [done.. |].
  rewrite (lg_start_in_passed shuffle rooms it G gid g) by done.
  assert (Hper : ∀ i p', players (start_game shuffle g) !! i = Some p' →
            is_Some (role p') ∧
            ∃ p, players g !! i = Some p ∧ same_person p p').
  { intros i p' Hp'. destruct (Hsame i p' Hp') as (p & ? & ? & ?). eauto. }
  case_bool_decide as Hroom; cbn [fst snd].
  - exists (start_game shuffle g). split; [done |].
    split; [done |]. split; [done |]. split; [done |].
    split; [exact Hroles |]. split; [exact Hdom |]. split; [exact Hper |].
    split; [| done]. intros _. repeat split.
  - exists (deal_game shuffle g). split; [done |].
    destruct (deal_game_fields shuffle g) as (Hps & Hrest).
    split; [done |]. split; [done |]. split; [done |].
    split; [exact Hroles |]. rewrite Hps.
    split; [exact Hdom |]. split; [exact Hper |].
    split; [done |]. intros _. repeat split.
Qed.

(** X10. A game started from a lobby the bot can be in has no winner yet:
    the wolves dealt are at least one and fewer than the others. *)
Theorem fresh_game_has_no_winner (shuffle : ∀ A : Type, list A → list A)
    (it : Interaction) (G : gmap Z GameState) (gid : Z) (g : GameState) :
  (∀ A (l : list A), shuffle A l ≡ₚ l) → reachable G →
  i_guild it = Some gid → G !! gid = Some g → phase g ≠ Ended →
  i_user it = created_by g → started g = false →
  8 ≤ Z.of_nat (size (players g)) ≤ 15 →
  ∃ g',
    lg_start shuffle it G = (Accepted game_started, <[gid := g']> G) ∧
    0 < living_wolves g' < living_others g' ∧
    check_victory g' = None.
Proof.
  intros Hperm Hreach Hg Hgame Hph Hcaller Hs Hn.
  destruct (start_deals_distribution_aux shuffle it G gid g)
    as (Hrun & Hroles & Hsame & _); [done.. |].
  exists (start_game shuffle g). split; [done |].
  destruct (reachable_inv G Hreach gid g Hgame) as [Hinv _].
  assert (Halive : Forall (λ p, alive p = true)
                     (player_values (start_game shuffle g))).
  { apply Forall_forall. intros p' Hin. unfold player_values in Hin.
    apply list_elem_of_fmap in Hin as ([i q] & -> & Hin).
    apply elem_of_map_to_list in Hin. cbn [snd].
    destruct (Hsame i q Hin) as (p & Hp & (_ & Ha & _) & _). rewrite Ha.
    by rewrite (inv_fresh g Hinv Hs i p Hp). }
  pose proof (faction_counts _ Hn) as Hc. cbn zeta in Hc.
  assert (Hw : living_wolves (start_game shuffle g) = Z.of_nat (length
    (filter (λ r, is_wolf r = true)
       (Some <$> role_table (Z.of_nat (size (players g))))))).
  { unfold living_wolves. cbn zeta. rewrite count_by_roles by done.
    f_equal. apply Permutation_length. by rewrite Hroles. }
  assert (Ho : living_others (start_game shuffle g) = Z.of_nat (length
    (filter (λ r, is_wolf r = false)
       (Some <$> role_table (Z.of_nat (size (players g))))))).
  { unfold living_others. cbn zeta. rewrite count_by_roles by done.
    f_equal. apply Permutation_length. by rewrite Hroles. }
  split; [lia |].
  unfold check_victory. rewrite Hw, Ho.
  replace (_ =? 0) with false by lia. cbn [andb].
  replace (_ >=? _) with false by lia. done.
Qed.

(** X11. The one exception [lg_start] raises is the [AssertionError] of
    [channel], and it raises it exactly when every guard has passed and
    the room of the game is gone.  The [ValueError] of [role_distribution]
    never escapes: the size guard of [lg_start] comes first and refuses
    every size that function rejects. *)
Theorem lg_start_raises (shuffle : ∀ A : Type, list A → list A)
    (rooms : gset Z) (it : Interaction) (G : gmap Z GameState)
    (e : Exception) :
  (lg_start_in shuffle rooms it G).1 = Raised e ↔
  e = AssertionError ∧
  ∃ gid g,
    i_guild it = Some gid ∧ G !! gid = Some g ∧ phase g ≠ Ended ∧
    i_user it = created_by g ∧ started g = false ∧
    8 ≤ Z.of_nat (size (players g)) ≤ 15 ∧ channel_id g ∉ rooms.
Proof.
  split.
  - intros Hraise.
    destruct (lg_start_in_cases shuffle rooms it G)
      as [[r Hr] | (gid & g & Hg & Hgame & Hph & Hc & Hs & Hn)];
      [by rewrite Hr in Hraise |].
    rewrite (lg_start_in_passed shuffle rooms it G gid g) in Hraise by done.
    case_bool_decide as Hroom; cbn [fst] in Hraise; [done |].
    injection Hraise as <-. split; [done |].
    exists gid, g. done.
  - intros (-> & gid & g & Hg & Hgame & Hph & Hc & Hs & Hn & Hroom).
    rewrite (lg_start_in_passed shuffle rooms it G gid g) by done.
    by rewrite bool_decide_eq_false_2.
Qed.

(** ** Invariants of the registries the bot can reach *)

Lemma reachable_run (shuffle : ∀ A : Type, list A → list A) (c : Command)
    (it : Interaction) (G : gmap Z GameState) :
  reachable G → reachable (run shuffle c it G).2.
Proof. intros Hr. eapply rtc_r; [exact Hr | apply step_command]. Qed.

Lemma reachable_join (it : Interaction) (G : gmap Z GameState) :
  reachable G → reachable (lg_join it G).2.
Proof. apply (reachable_run (λ _ l, l) Join). Qed.

Lemma reachable_start (shuffle : ∀ A : Type, list A → list A)
    (it : Interaction) (G : gmap Z GameState) :
  reachable G → reachable (lg_start shuffle it G).2.
Proof. apply (reachable_run shuffle Start). Qed.

Lemma reachable_finish_night (it : Interaction) (G : gmap Z GameState) :
  reachable G → reachable (lg_finish_night it G).2.
Proof. apply (reachable_run (λ _ l, l) FinishNight). Qed.

Lemma reachable_mayor_start (it : Interaction) (G : gmap Z GameState) :
  reachable G → reachable (lg_mayor_start it G).2.
Proof. apply (reachable_run (λ _ l, l) MayorStart). Qed.

Lemma reachable_dayvote_start (it : Interaction) (G : gmap Z GameState) :
  reachable G → reachable (lg_dayvote_start it G).2.
Proof. apply (reachable_run (λ _ l, l) DayvoteStart). Qed.

Lemma reachable_vote (cible : Z) (it : Interaction) (G : gmap Z GameState) :
  reachable G → reachable (lg_vote cible it G).2.
Proof. apply (reachable_run (λ _ l, l) (Vote cible)). Qed.

Lemma reachable_vote_end (it : Interaction) (G : gmap Z GameState) :
  reachable G → reachable (lg_vote_end it G).2.
Proof. apply (reachable_run (λ _ l, l) VoteEnd). Qed.

Lemma reachable_lobby_of (uids : list Z) : reachable (lobby_of uids).
Proof.
  unfold lobby_of.
  assert (H0 : reachable (lg_create (caller 101) ∅).2).
  { apply (reachable_run (λ _ l, l) Create). apply rtc_refl. }
  revert H0. generalize ((lg_create (caller 101) ∅).2).
  induction uids as [|u uids IH]; intros G HG; [exact HG |].
  cbn [foldl]. apply IH. by apply reachable_join.
Qed.

Lemma reachable_cast_all (ballots : list (Z * Z)) (G : gmap Z GameState) :
  reachable G → reachable (cast_all ballots G).
Proof.
  unfold cast_all. revert G.
  induction ballots as [|b ballots IH]; intros G HG; [exact HG |].
  cbn [foldl]. apply IH. by apply reachable_vote.
Qed.

Lemma first_night_lobby8 :
  first_night = (lg_start (λ _ l, l) (caller 101) lobby8).2.
Proof. vm_compute. reflexivity. Qed.

Lemma reachable_first_night : reachable first_night.
Proof.
  rewrite first_night_lobby8. apply reachable_start, reachable_lobby_of.
Qed.

Lemma reachable_first_day : reachable first_day.
Proof. unfold first_day. apply reachable_finish_night, reachable_first_night. Qed.

Lemma reachable_mayor_elected : reachable mayor_elected.
Proof.
  unfold mayor_elected, mayor_round.
  apply reachable_vote_end, reachable_cast_all, reachable_mayor_start,
    reachable_first_day.
Qed.

Lemma reachable_day_round : reachable day_round.
Proof.
  unfold day_round.
  apply reachable_cast_all, reachable_dayvote_start, reachable_mayor_elected.
Qed.

(** X12. The mayor of a game is always one of its tracked participants,
    and there is a mayor only in a started game. *)
Theorem mayor_is_tracked (G : gmap Z GameState) (gid : Z) (g : GameState)
    (m : Z) :
  reachable G → G !! gid = Some g → mayor_id g = Some m →
  started g = true ∧ is_Some (players g !! m).
Proof.
  intros Hr Hg Hm. destruct (reachable_inv G Hr gid g Hg) as [Hinv _].
  by apply (inv_mayor g Hinv).
Qed.

Lemma mayor_is_tracked_witness :
  reachable mayor_elected ∧
  mayor_elected !! 1 = Some (game_of mayor_elected) ∧
  mayor_id (game_of mayor_elected) = Some 103 ∧
  started (game_of mayor_elected) = true ∧
  is_Some (players (game_of mayor_elected) !! 103).
Proof.
  assert (Hg : mayor_elected !! 1 = Some (game_of mayor_elected))
    by (vm_compute; reflexivity).
  assert (Hm : mayor_id (game_of mayor_elected) = Some 103)
    by (vm_compute; reflexivity).
  split; [apply reachable_mayor_elected |].
  split; [exact Hg |]. split; [exact Hm |].
  exact (mayor_is_tracked mayor_elected 1 _ 103 reachable_mayor_elected Hg Hm).
Defined.

(** X13. A vote is open only by day (or in a game ended meanwhile), and
    while it is open every ballot is from a living participant for a living
    participant. *)
Theorem open_vote_is_sound (G : gmap Z GameState) (gid : Z) (g : GameState) :
  reachable G → G !! gid = Some g → active (vote g) = true →
  (phase g = Day ∨ phase g = Ended) ∧
  ∀ v t, votes (vote g) !! v = Some t →
         living (players g) v ∧ living (players g) t.
Proof.
  intros Hr Hg Ha. destruct (reachable_inv G Hr gid g Hg) as [Hinv _].
  destruct (inv_vote g Hinv Ha) as (? & _ & ?). done.
Qed.

Lemma open_vote_is_sound_witness :
  reachable day_round ∧
  day_round !! 1 = Some (game_of day_round) ∧
  active (vote (game_of day_round)) = true ∧
  (phase (game_of day_round) = Day ∨ phase (game_of day_round) = Ended) ∧
  living (players (game_of day_round)) 103 ∧
  living (players (game_of day_round)) 106.
Proof.
  assert (Hg : day_round !! 1 = Some (game_of day_round))
    by (vm_compute; reflexivity).
  assert (Ha : active (vote (game_of day_round)) = true)
    by (vm_compute; reflexivity).
  destruct (open_vote_is_sound day_round 1 _ reachable_day_round Hg Ha)
    as [Hph Hb].
  split; [apply reachable_day_round |].
  split; [exact Hg |]. split; [exact Ha |]. split; [exact Hph |].
  apply (Hb 103 106). vm_compute. reflexivity.
Defined.

(** X14. Closing a day-elimination vote that has a winner kills the
    winner, together with exactly the participants death propagation
    reaches from the winner, and leaves the day for the night or the end of
    the game. *)
Theorem elimination_kills_winner (it : Interaction) (G : gmap Z GameState)
    (gid : Z) (g : GameState) (w : Z) :
  reachable G →
  i_guild it = Some gid → G !! gid = Some g → phase g ≠ Ended →
  i_user it = created_by g → active (vote g) = true →
  kind (vote g) = daykill → (tally_votes g).1 = Some w →
  ∃ what g',
    lg_vote_end it G = (Accepted what, <[gid := g']> G) ∧
    alive_in (players g) w = true ∧ alive_in (players g') w = false ∧
    (∀ i, alive_in (players g') i
          = alive_in (players g) i
            && bool_decide (i ∉ Expand (players g) {[w]})) ∧
    (phase g' = Night ∨ phase g' = Ended) ∧ active (vote g') = false.
Proof.
  intros Hr Hgid Hg Hph Hcaller Hact Hk Hw.
  destruct (reachable_inv G Hr gid g Hg) as [Hinv _].
  destruct (inv_vote g Hinv Hact) as (_ & _ & Hb).
  destruct (tally_winner_target g w Hw) as [v Hv].
  destruct (Hb v w Hv) as [_ Hliving].
  assert (Hin : w ∈ Expand (players g) {[w]}).
  { apply Expand_chain. apply chain_direct; [set_solver | done]. }
  assert (Hrun : lg_vote_end it G
    = (Accepted (match check_victory (apply_deaths
                         (set_vote (close_vote (vote g)) g) {[w]}).1 with
                 | Some _ => game_over
                 | None => vote_applied
                 end),
       <[gid := vote_end_game g]> G)).
  { unfold lg_vote_end, vote_end_game, get_game.
    rewrite Hgid, Hg, (bool_decide_eq_false_2 _ Hph), Hcaller, Hact.
    rewrite bool_decide_eq_true_2 by done. cbn [negb].
    destruct (tally_votes g) as [w' counts]. cbn [fst] in *. subst w'.
    cbn [vote set_vote close_vote kind]. rewrite Hk.
    rewrite (bool_decide_eq_false_2 (daykill = mayor)) by done.
    by destruct (check_victory _). }
  eexists _, (vote_end_game g). split; [exact Hrun |].
  destruct (vote_end_game_fields g) as (Ha' & _ & _ & _ & _ & _ & Hps & Hp').
  assert (Halive : ∀ i, alive_in (players (vote_end_game g)) i
    = alive_in (players g) i && bool_decide (i ∉ Expand (players g) {[w]})).
  { intros i. destruct Hps as [Hsame | (w' & _ & Hw' & Hps)].
    - exfalso. revert Hsame. unfold vote_end_game.
      cbn [vote set_vote close_vote kind]. rewrite Hk, Hw.
      rewrite (bool_decide_eq_false_2 (daykill = mayor)) by done.
      assert (Hne : players (apply_deaths (set_vote (close_vote (vote g)) g)
                       {[w]}).1 ≠ players g).
      { intros Heq. assert (alive_in (players g) w = false) as Hd;
          [| apply alive_in_living in Hliving; congruence].
        rewrite <- Heq. unfold alive_in.
        rewrite players_apply_deaths. cbn [players set_vote].
        rewrite decide_True by done. by destruct (players g !! w). }
      by destruct (check_victory _).
    - rewrite Hw in Hw'. injection Hw' as <-. rewrite Hps.
      unfold alive_in. rewrite players_apply_deaths.
      destruct (decide (i ∈ _)) as [Hi | Hi].
      + rewrite bool_decide_eq_false_2 by (by intros ?).
        rewrite andb_false_r. by destruct (players g !! i).
      + rewrite bool_decide_eq_true_2 by done. rewrite andb_true_r.
        by rewrite option_fmap_id. }
  split; [by apply alive_in_living |].
  split.
  { rewrite Halive. rewrite bool_decide_eq_false_2 by (by intros ?).
    apply andb_false_r. }
  split; [done |].
  split; [| done].
  destruct Hp' as [[_ ?] | [_ [? | ?]]]; [congruence | by right | by left].
Qed.

Lemma elimination_kills_winner_witness :
  reachable day_round ∧
  (tally_votes (game_of day_round)).1 = Some 106 ∧
  ∃ what g',
    lg_vote_end (caller 101) day_round
      = (Accepted what, <[1 := g']> day_round) ∧
    alive_in (players g') 106 = false.
Proof.
  assert (Hg : day_round !! 1 = Some (game_of day_round))
    by (vm_compute; reflexivity).
  assert (Hph : phase (game_of day_round) ≠ Ended)
    by (vm_compute; intros H; discriminate H).
  assert (Hc : i_user (caller 101) = created_by (game_of day_round))
    by (vm_compute; reflexivity).
  assert (Ha : active (vote (game_of day_round)) = true)
    by (vm_compute; reflexivity).
  assert (Hk : kind (vote (game_of day_round)) = daykill)
    by (vm_compute; reflexivity).
  assert (Hw : (tally_votes (game_of day_round)).1 = Some 106)
    by (vm_compute; reflexivity).
  split; [apply reachable_day_round |]. split; [exact Hw |].
  destruct (elimination_kills_winner (caller 101) day_round 1 _ 106
              reachable_day_round eq_refl Hg Hph Hc Ha Hk Hw)
    as (what & g' & Hrun & _ & Hdead & _).
  exists what, g'. split; [exact Hrun | exact Hdead].
Defined.

(** X15. Before the start nobody has a role, a bond or an infection, and
    everybody is alive: every player of a lobby is as [lg_join] made it. *)
Theorem lobby_players_fresh (G : gmap Z GameState) (gid : Z) (g : GameState)
    (i : Z) (p : PlayerState) :
  reachable G → G !! gid = Some g → started g = false →
  players g !! i = Some p →
  user_id p = i ∧ role p = None ∧ alive p = true ∧ lover_id p = None ∧
  infected p = false.
Proof.
  intros Hr Hg Hs Hp. destruct (reachable_inv G Hr gid g Hg) as [Hinv _].
  by rewrite (inv_fresh g Hinv Hs i p Hp).
Qed.

Lemma lobby_players_fresh_witness :
  reachable lobby7 ∧
  lobby7 !! 1 = Some (game_of lobby7) ∧
  started (game_of lobby7) = false ∧
  ∃ p, players (game_of lobby7) !! 104 = Some p ∧
       role p = None ∧ alive p = true.
Proof.
  assert (Hg : lobby7 !! 1 = Some (game_of lobby7))
    by (vm_compute; reflexivity).
  assert (Hs : started (game_of lobby7) = false) by (vm_compute; reflexivity).
  assert (Hp : players (game_of lobby7) !! 104 = Some (new_player 104))
    by (vm_compute; reflexivity).
  split; [apply reachable_lobby_of |]. split; [exact Hg |].
  split; [exact Hs |].
  destruct (lobby_players_fresh lobby7 1 _ 104 _ (reachable_lobby_of _)
              Hg Hs Hp) as (_ & Hr & Hal & _).
  exists (new_player 104). split; [exact Hp |]. split; [exact Hr | exact Hal].
Defined.

(** X16. Every registered game is filed under its own guild and every
    player under its own identity; the day number is never negative; a game
    in the lobby is not started and a game in its night or day is. *)
Theorem session_well_formed (G : gmap Z GameState) (gid : Z) (g : GameState) :
  reachable G → G !! gid = Some g →
  guild_id g = gid ∧
  (∀ i p, players g !! i = Some p → user_id p = i) ∧
  0 ≤ day g ∧
  (phase g = Lobby → started g = false) ∧
  (phase g = Night ∨ phase g = Day → started g = true).
Proof.
  intros Hr Hg. destruct (reachable_inv G Hr gid g Hg) as [Hinv Hgid].
  split; [done |]. split; [apply (inv_user_id g Hinv) |].
  split; [apply (inv_day g Hinv) |].
  split; [apply (inv_lobby g Hinv) | apply (inv_started g Hinv)].
Qed.

Lemma session_well_formed_witness :
  reachable first_day ∧
  first_day !! 1 = Some (game_of first_day) ∧
  guild_id (game_of first_day) = 1 ∧ 0 ≤ day (game_of first_day).
Proof.
  assert (Hg : first_day !! 1 = Some (game_of first_day))
    by (vm_compute; reflexivity).
  destruct (session_well_formed first_day 1 _ reachable_first_day Hg)
    as (Hgid & _ & Hd & _).
  split; [apply reachable_first_day |]. split; [exact Hg |].
  split; [exact Hgid | exact Hd].
Defined.

(** ** What no operation ever does *)

(** A registry step, seen from one registered game. *)
Lemma step_cases (G G' : gmap Z GameState) (gid : Z) (g : GameState) :
  step G G' → G !! gid = Some g →
  G' !! gid = Some g ∨
  (∃ g', G' !! gid = Some g' ∧ game_step g g') ∨
  (phase g = Ended ∧ ∃ cid u, G' !! gid = Some (new_game gid cid u)).
Proof.
  intros Hstep Hg.
  assert (Hsg : steps_game G G' →
    G' !! gid = Some g ∨ (∃ g', G' !! gid = Some g' ∧ game_step g g')).
  { intros [-> | (gid0 & g0 & g1 & Hg0 & Hs & ->)]; [by left |].
    rewrite lookup_insert. case_decide as Hd; [| by left].
    subst gid0. right. exists g1. split; [done |]. congruence. }
  destruct Hstep as [shuffle c it | it | gid0 a k u sel r G' Hsub].
  - destruct (run_steps shuffle c it G)
      as [Hs | (gid0 & cid & _ & _ & -> & Hold)].
    + destruct (Hsg Hs) as [? | ?]; eauto.
    + rewrite lookup_insert. case_decide as Hd; [| by left].
      subst gid0. right. right.
      destruct Hold as [Hn | (g0 & Hg0 & Hph)]; [congruence |].
      split; [congruence | eauto].
  - destruct (Hsg (lg_end_steps it G)) as [? | ?]; eauto.
  - destruct (Hsg (submit_steps gid0 a k u sel G G' r Hsub)) as [? | ?]; eauto.
Qed.

Lemma night_effects_players_nonwolf (g : GameState) :
  players (night_effects g).1 = players g ∨
  ∃ t p, players g !! t = Some p ∧ is_wolf (role p) = false ∧
         players (night_effects g).1 = alter infect_player t (players g).
Proof.
  unfold night_effects.
  pose proof (witch_heal_frame (g, base_victim g)) as (Hps & _).
  pose proof (direct_kills_frame
    (black_infect (witch_heal (g, base_victim g)))) as (-> & _).
  destruct (witch_heal (g, base_victim g)) as [g1 v1]. cbn [fst] in Hps.
  unfold black_infect.
  destruct (truthy (black_infect_target_id g1) && negb (black_infect_used g1));
    [| by left].
  destruct (black_infect_target_id g1) as [t|]; [| by left].
  destruct (players g1 !! t) as [p|] eqn:Hp; [| by left].
  destruct (alive p && negb (is_wolf (role p))) eqn:E; [| by left].
  apply andb_true_iff in E as [_ Hw%negb_true_iff].
  right. exists t, p. cbn [fst players set_black_infect_used set_players].
  by rewrite <- Hps.
Qed.

(** How one step changes the player under one identity, in a started
    game: the record is kept or rewritten by a function that keeps the
    identity, never revives, and changes the role only by infecting a
    non-wolf. *)
Lemma game_step_player (g g' : GameState) (i : Z) :
  game_step g g' → started g = true →
  ∃ f : PlayerState → PlayerState,
    players g' !! i = f <$> players g !! i ∧
    ∀ p, user_id (f p) = user_id p ∧
         (alive (f p) = true → alive p = true) ∧
         (infected p = true → infected (f p) = true) ∧
         (role (f p) = role p ∨
          role (f p) = Some loup_garou ∧ infected (f p) = true ∧
          is_wolf (role p) = false ∧ players g !! i = Some p).
Proof.
  intros Hstep Hs.
  assert (Hid : ∀ ps' : gmap Z PlayerState, ps' = players g →
    ∃ f : PlayerState → PlayerState,
      ps' !! i = f <$> players g !! i ∧
      ∀ p, user_id (f p) = user_id p ∧
           (alive (f p) = true → alive p = true) ∧
           (infected p = true → infected (f p) = true) ∧
           (role (f p) = role p ∨
            role (f p) = Some loup_garou ∧ infected (f p) = true ∧
            is_wolf (role p) = false ∧ players g !! i = Some p)).
  { intros ps' ->. exists id. rewrite option_fmap_id. split; [done |].
    intros p. eauto. }
  destruct Hstep as
    [ uid g Hs' _ _ | uid g Hs' _ _ | shuffle g Hs' _ _
    | g Hph | g Hph | k g Hph Hk | voter cible g Hph Hact Hv Hc
    | g Hph Hact | g | actor_id action_key selected what g Hcb ];
    try congruence; try (by apply Hid).
  - (* resolve_night *)
    unfold apply_cupidon.
    destruct (cupid_done g); [| by apply Hid].
    destruct (cupid_targets g) as [|a [|b [|c l]]]; try by apply Hid.
    destruct (contains (players g) a && contains (players g) b);
      [| by apply Hid].
    cbn [players set_players]. rewrite !lookup_alter.
    destruct (decide (b = i)) as [-> | Hb], (decide (a = i)) as [-> | Ha].
    + exists (set_lover_id (Some i) ∘ set_lover_id (Some i)).
      split; [by rewrite option_fmap_compose |]. intros p. eauto.
    + exists (set_lover_id (Some a)). split; [done |]. intros p. eauto.
    + exists (set_lover_id (Some b)). split; [done |]. intros p. eauto.
    + exists id. rewrite option_fmap_id. split; [done |]. intros p. eauto.
  - (* finish_night *)
    destruct (finish_game_fields g) as (-> & _).
    destruct (finish_night_fields g) as (_ & -> & _).
    set (final := Expand _ _).
    rewrite lookup_mark_dead.
    destruct (night_effects_players_nonwolf g) as [-> | (t & q & Hq & Hw & ->)].
    + destruct (decide (i ∈ final)).
      * exists (set_alive false). split; [done |]. intros p.
        repeat split; eauto. by intros [=].
      * exists id. rewrite option_fmap_id. split; [done |]. intros p. eauto.
    + rewrite lookup_alter.
      destruct (decide (i ∈ final)), (decide (t = i)) as [-> | Hne].
      * destruct (players g !! i) as [p0|] eqn:Hp0; [| done].
        injection Hq as ->.
        exists (λ p, if decide (p = q) then set_alive false (infect_player q)
                     else set_alive false p).
        split; [simpl; by rewrite decide_True |].
        intros p. destruct (decide (p = q)) as [-> | ?]; simpl.
        -- repeat split; eauto. by intros [=].
        -- repeat split; eauto. by intros [=].
      * exists (set_alive false). split; [done |]. intros p.
        repeat split; eauto. by intros [=].
      * destruct (players g !! i) as [p0|] eqn:Hp0; [| done].
        injection Hq as ->.
        exists (λ p, if decide (p = q) then infect_player q else p).
        split; [simpl; by rewrite decide_True |].
        intros p. destruct (decide (p = q)) as [-> | ?]; simpl;
          repeat split; eauto.
      * exists id. rewrite option_fmap_id. split; [done |]. intros p. eauto.
  - (* vote end *)
    destruct (vote_end_game_fields g) as (_ & _ & _ & _ & _ & _ & Hps & _).
    destruct Hps as [Hsame | (w & _ & _ & ->)]; [by apply Hid |].
    rewrite players_apply_deaths. destruct (decide _).
    + exists (set_alive false). split; [done |]. intros p.
      repeat split; eauto. by intros [=].
    + exists id. split; [done |]. intros p. eauto.
  - (* menu *)
    apply Hid.
    by destruct (callback_frame actor_id action_key actor_id selected g).
Qed.

Lemma game_step_started (g g' : GameState) :
  game_step g g' → started g = true → started g' = true.
Proof.
  destruct 1; try done.
  - unfold apply_cupidon. repeat case_match; done.
  - by destruct (finish_game_fields g) as (_ & _ & -> & _).
  - by destruct (vote_end_game_fields g) as (_ & -> & _).
  - by destruct (callback_frame actor_id action_key actor_id selected g)
      as (_ & _ & -> & _).
Qed.

(** X17. Once a game is started and until it ends, no operation adds or
    removes a participant, changes an identity, or brings a dead
    participant back to life. *)
Theorem roster_is_frozen (G G' : gmap Z GameState) (gid : Z) (g : GameState) :
  step G G' → G !! gid = Some g → started g = true → phase g ≠ Ended →
  ∃ g',
    G' !! gid = Some g' ∧ started g' = true ∧
    (∀ i, is_Some (players g' !! i) ↔ is_Some (players g !! i)) ∧
    (∀ i p p', players g !! i = Some p → players g' !! i = Some p' →
               user_id p' = user_id p) ∧
    (∀ i, alive_in (players g') i = true → alive_in (players g) i = true).
Proof.
  intros Hstep Hg Hs Hph.
  destruct (step_cases G G' gid g Hstep Hg)
    as [Hsame | [(g' & Hg' & Hgs) | [? _]]]; [| | done].
  - exists g. repeat split; try done. intros i p p' Hp Hp'. congruence.
  - exists g'. split; [done |]. split; [by apply (game_step_started g) |].
    split; [| split].
    + intros i. destruct (game_step_player g g' i Hgs Hs) as (f & -> & _).
      by rewrite fmap_is_Some.
    + intros i p p' Hp Hp'.
      destruct (game_step_player g g' i Hgs Hs) as (f & Hf & Hfp).
      rewrite Hf, Hp in Hp'. injection Hp' as <-. by destruct (Hfp p).
    + intros i. unfold alive_in.
      destruct (game_step_player g g' i Hgs Hs) as (f & -> & Hfp).
      destruct (players g !! i) as [p|]; [| done]. simpl.
      by destruct (Hfp p) as (_ & ? & _).
Qed.

(** X18. In a started game a role changes in one way only: a participant
    who is not a wolf becomes a plain wolf and is flagged infected.  The
    infected flag, once set, stays. *)
Theorem roles_change_by_infection (G G' : gmap Z GameState) (gid : Z)
    (g g' : GameState) (i : Z) (p p' : PlayerState) :
  step G G' → G !! gid = Some g → started g = true → phase g ≠ Ended →
  G' !! gid = Some g' →
  players g !! i = Some p → players g' !! i = Some p' →
  (role p' = role p ∨
   role p' = Some loup_garou ∧ infected p' = true ∧ is_wolf (role p) = false) ∧
  (infected p = true → infected p' = true).
Proof.
  intros Hstep Hg Hs Hph Hg' Hp Hp'.
  destruct (step_cases G G' gid g Hstep Hg)
    as [Hsame | [(g1 & Hg1 & Hgs) | [? _]]]; [| | done].
  - assert (g' = g) as -> by congruence.
    assert (p' = p) as -> by congruence. eauto.
  - assert (g1 = g') as -> by congruence.
    destruct (game_step_player g g' i Hgs Hs) as (f & Hf & Hfp).
    rewrite Hf, Hp in Hp'. injection Hp' as <-.
    destruct (Hfp p) as (_ & _ & Hinf & [Hr | (Hr & Hi & Hw & _)]); eauto.
Qed.

Lemma finish_night_flags (g : GameState) :
  (witch_heal_used g = true → witch_heal_used (finish_night g).1 = true) ∧
  (witch_kill_used g = true → witch_kill_used (finish_night g).1 = true) ∧
  (black_infect_used g = true → black_infect_used (finish_night g).1 = true).
Proof.
  unfold finish_night, apply_deaths, night_effects, direct_kills, black_infect,
    witch_heal.
  repeat case_match; simplify_eq/=; done.
Qed.

Lemma game_step_flags (g g' : GameState) :
  game_step g g' →
  (witch_heal_used g = true → witch_heal_used g' = true) ∧
  (witch_kill_used g = true → witch_kill_used g' = true) ∧
  (black_infect_used g = true → black_infect_used g' = true) ∧
  (cupid_done g = true → cupid_done g' = true).
Proof.
  destruct 1; try done.
  - unfold apply_cupidon. repeat case_match; done.
  - destruct (finish_night_flags g) as (? & ? & ?).
    destruct (finish_night_frame g) as (_ & _ & _ & _ & Hc).
    unfold finish_game. destruct (check_victory _); cbn; rewrite ?Hc; done.
  - unfold vote_end_game. repeat case_match; done.
  - unfold callback. repeat case_match; done.
Qed.

(** X19. The one-shot abilities are never given back: while a game lasts,
    no operation resets the heal, the poison, the infection or the
    Cupidon's choice once they are marked used. *)
Theorem one_shot_flags_stay (G G' : gmap Z GameState) (gid : Z)
    (g : GameState) :
  step G G' → G !! gid = Some g → phase g ≠ Ended →
  ∃ g',
    G' !! gid = Some g' ∧
    (witch_heal_used g = true → witch_heal_used g' = true) ∧
    (witch_kill_used g = true → witch_kill_used g' = true) ∧
    (black_infect_used g = true → black_infect_used g' = true) ∧
    (cupid_done g = true → cupid_done g' = true).
Proof.
  intros Hstep Hg Hph.
  destruct (step_cases G G' gid g Hstep Hg)
    as [Hsame | [(g' & Hg' & Hgs) | [? _]]]; [| | done].
  - by exists g.
  - exists g'. split; [done |]. by apply game_step_flags.
Qed.

(** ** Reading the roster *)

(** X20. [alive_ids] lists every living participant exactly once and
    nobody else, and there are as many of them as [check_victory] counts
    wolves and others together. *)
Theorem alive_ids_spec (g : GameState) :
  NoDup (alive_ids g) ∧
  (∀ i, i ∈ alive_ids g ↔ living (players g) i) ∧
  Z.of_nat (length (alive_ids g)) = living_wolves g + living_others g.
Proof.
  unfold alive_ids. split; [| split].
  - eapply sublist_NoDup; [apply (NoDup_fst_map_to_list (players g)) |].
    apply fmap_sublist, sublist_filter.
  - intros i. rewrite list_elem_of_fmap. unfold living. split.
    + intros ([k p] & -> & [Ha Hin]%list_elem_of_filter).
      apply elem_of_map_to_list in Hin. by exists p.
    + intros (p & Hp & Ha). exists (i, p). split; [done |].
      apply list_elem_of_filter. split; [done |].
      by apply elem_of_map_to_list.
  - unfold living_wolves, living_others, player_values. cbn zeta.
    rewrite length_fmap.
    induction (map_to_list (players g)) as [|[k p] l IH]; [done |].
    rewrite fmap_cons, !filter_cons. cbn [snd].
    destruct (decide (alive p = true)); [| exact IH].
    rewrite !filter_cons.
    destruct (is_wolf (role p)) eqn:Hw.
    + rewrite decide_True, decide_False by done. cbn [length]. lia.
    + rewrite decide_False, decide_True by done. cbn [length]. lia.
Qed.

(** X21. A menu offers each participant at most once and never more than
    25; it offers only tracked participants, only living ones when it is
    for the living, and not its own actor unless it allows that; with at
    most 25 participants it leaves no eligible one out. *)
Theorem select_options_spec (players : gmap Z PlayerState)
    (items : list (Z * PlayerState)) (actor_id : Z)
    (allow_self only_alive : bool) :
  items ≡ₚ map_to_list players →
  let opts := select_options items actor_id allow_self only_alive in
  NoDup opts ∧ (length opts ≤ 25)%nat ∧
  (∀ i, i ∈ opts →
        is_Some (players !! i) ∧
        (only_alive = true → living players i) ∧
        (allow_self = false → i ≠ actor_id)) ∧
  ((size players ≤ 25)%nat →
   ∀ i p, players !! i = Some p →
          (only_alive = true → alive p = true) →
          (allow_self = false → i ≠ actor_id) → i ∈ opts).
Proof.
  intros Hperm. cbn zeta. unfold select_options.
  set (kept := filter _ items).
  assert (Hsub : kept ⊆+ items) by apply sublist_submseteq, sublist_filter.
  assert (Hkept : ∀ i p, (i, p) ∈ kept ↔
            players !! i = Some p ∧
            offered actor_id allow_self only_alive (i, p) = true).
  { intros i p. unfold kept. rewrite list_elem_of_filter, Hperm.
    rewrite elem_of_map_to_list. tauto. }
  assert (Hnd : NoDup kept.*1).
  { eapply sublist_NoDup;
      [| apply fmap_sublist, (sublist_filter _ items)].
    rewrite Hperm. apply NoDup_fst_map_to_list. }
  rewrite <- fmap_take.
  split; [| split; [| split]].
  - eapply sublist_NoDup; [exact Hnd |]. apply fmap_sublist, sublist_take.
  - rewrite length_fmap, length_take. lia.
  - intros i ([k p] & -> & Hin)%list_elem_of_fmap. cbn [fst].
    apply (subseteq_take 25) in Hin.
    apply Hkept in Hin as [Hp Ho]. unfold offered in Ho. cbn [fst snd] in Ho.
    apply andb_true_iff in Ho as [Ha Hs].
    split; [by eexists |]. split.
    + intros ->. exists p. split; [done |]. by destruct (alive p).
    + intros -> ->. by rewrite bool_decide_eq_true_2 in Hs.
  - intros Hsize i p Hp Ha Hs.
    rewrite take_ge.
    2:{ etrans; [apply length_filter |].
        rewrite (Permutation_length Hperm), length_map_to_list. lia. }
    apply list_elem_of_fmap. exists (i, p). split; [done |].
    apply Hkept. split; [done |]. unfold offered. cbn [fst snd].
    apply andb_true_iff. split.
    + destruct only_alive; [| done]. by rewrite Ha.
    + destruct allow_self; [done |]. cbn [negb andb].
      by rewrite bool_decide_eq_false_2 by by apply Hs.
Qed.

(** ** Closing a vote *)

(** X22. Closing a mayor election touches nothing but the vote and the
    mayor: the target with the strict majority becomes mayor, a tie or an
    empty ballot box leaves the mayor as before, and the players and the
    phase stay as they are. *)
Theorem mayor_election_outcome (it : Interaction) (G : gmap Z GameState)
    (gid : Z) (g : GameState) :
  i_guild it = Some gid → G !! gid = Some g → phase g ≠ Ended →
  i_user it = created_by g → active (vote g) = true →
  kind (vote g) = mayor →
  ∃ g',
    lg_vote_end it G = (Accepted mayor_vote_closed, <[gid := g']> G) ∧
    players g' = players g ∧ phase g' = phase g ∧ day g' = day g ∧
    vote g' = close_vote (vote g) ∧
    (∀ w, (tally_votes g).1 = Some w → mayor_id g' = Some w) ∧
    ((tally_votes g).1 = None → mayor_id g' = mayor_id g) ∧
    (∀ w, mayor_id g' = Some w → mayor_id g ≠ Some w →
          0 < ballot_total g w ∧
          ∀ t, t ≠ w → ballot_total g t < ballot_total g w).
Proof.
  intros Hgid Hg Hph Hcaller Hact Hk.
  unfold lg_vote_end, get_game.
  rewrite Hgid, Hg, (bool_decide_eq_false_2 _ Hph), Hcaller, Hact.
  rewrite bool_decide_eq_true_2 by done. cbn [negb].
  pose proof (tally_votes_winner g) as Hwin.
  destruct (tally_votes g) as [winner counts]. cbn [fst] in *.
  cbn [vote set_vote close_vote kind]. rewrite Hk.
  rewrite bool_decide_eq_true_2 by done.
  destruct winner as [w|]; eexists; (split; [reflexivity |]);
    cbn [players phase day vote mayor_id set_mayor_id set_vote];
    do 4 (split; [done |]).
  - split; [by intros ? [= <-] |]. split; [done |].
    intros w' Hm _. injection Hm as <-. by apply Hwin.
  - split; [done |]. split; [done |]. intros w' Hm Hne. congruence.
Qed.

(** X23. Closing a day elimination on a tie or with no ballot kills
    nobody; unless the game is already won, night falls with an empty night
    storage. *)
Theorem elimination_tie (it : Interaction) (G : gmap Z GameState)
    (gid : Z) (g : GameState) :
  i_guild it = Some gid → G !! gid = Some g → phase g ≠ Ended →
  i_user it = created_by g → active (vote g) = true →
  kind (vote g) ≠ mayor → (tally_votes g).1 = None →
  ∃ what g',
    lg_vote_end it G = (Accepted what, <[gid := g']> G) ∧
    players g' = players g ∧ active (vote g') = false ∧
    mayor_id g' = mayor_id g ∧
    (check_victory g = None →
     what = vote_applied ∧ phase g' = Night ∧
     wolf_target_id g' = None ∧ protected_id g' = None ∧
     seer_target_id g' = None ∧ witch_heal_target_id g' = None ∧
     witch_kill_target_id g' = None ∧ black_infect_target_id g' = None) ∧
    (is_Some (check_victory g) → what = game_over ∧ phase g' = Ended).
Proof.
  intros Hgid Hg Hph Hcaller Hact Hk Htie.
  unfold lg_vote_end, get_game.
  rewrite Hgid, Hg, (bool_decide_eq_false_2 _ Hph), Hcaller, Hact.
  rewrite bool_decide_eq_true_2 by done. cbn [negb].
  destruct (tally_votes g) as [winner counts]. cbn [fst] in *. subst winner.
  cbn [vote set_vote close_vote kind].
  rewrite (bool_decide_eq_false_2 _ Hk).
  assert (Hcv : check_victory (set_vote (close_vote (vote g)) g)
                = check_victory g) by done.
  rewrite Hcv.
  destruct (check_victory g) as [win|]; do 2 eexists;
    (split; [reflexivity |]); cbn; repeat split; try done.
Qed.

(** ** The phase state machine *)

Lemma game_step_phase (g g' : GameState) :
  game_step g g' → game_inv g → phase g ≠ Ended →
  (phase g' = phase g ∨ phase g' = Ended ∨
   phase g = Lobby ∧ phase g' = Night ∨
   phase g = Night ∧ phase g' = Day ∨
   phase g = Day ∧ phase g' = Night) ∧
  (day g' = day g ∨
   phase g = Night ∧ phase g' ≠ Night ∧ day g' = day g + 1 ∨
   phase g = Lobby ∧ phase g' = Night ∧ day g' = 0).
Proof.
  intros Hstep Hinv Hne.
  destruct Hstep as
    [ uid g Hs _ _ | uid g Hs _ _ | shuffle g Hs _ _
    | g Hph | g Hph | k g Hph Hk | voter cible g Hph Hact Hv Hc
    | g Hph Hact | g | actor_id action_key selected what g Hcb ];
    try (by split; left).
  - (* start *)
    assert (phase g = Lobby) as Hl.
    { destruct (phase g) eqn:E; try done.
      - rewrite (inv_started g Hinv) in Hs by eauto. done.
      - rewrite (inv_started g Hinv) in Hs by eauto. done. }
    split; [right; right; by left | right; right; done].
  - (* resolve_night *)
    assert (phase (apply_cupidon g) = phase g ∧ day (apply_cupidon g) = day g)
      as [-> ->] by (unfold apply_cupidon; repeat case_match; done).
    by split; left.
  - (* finish_night *)
    destruct (finish_game_fields g) as (_ & Hp' & _ & Hd' & _).
    split.
    + destruct Hp' as [-> | ->]; eauto 6.
    + right. left. split; [done |]. split; [| done].
      destruct Hp' as [-> | ->]; done.
  - (* vote end *)
    destruct (inv_vote g Hinv Hact) as ([Hd | ?] & _); [| done].
    destruct (vote_end_game_fields g) as (_ & _ & Hd' & _ & _ & _ & _ & Hp').
    split; [| by left].
    destruct Hp' as [[-> _] | [_ [-> | ->]]]; eauto 6.
  - (* end *)
    split; [right; by left | by left].
  - (* menu *)
    destruct (callback_frame actor_id action_key actor_id selected g)
      as (_ & -> & _ & -> & _).
    by split; left.
Qed.

(** X24. The phases follow lobby, night, day, night, ... and the end: one
    operation on a game that has not ended keeps its phase, ends it, or
    moves it from the lobby to the night, from the night to the day, or
    from the day to the night.  The day number is kept, but for a
    finished night, which adds one, and the start, which sets it to 0. *)
Theorem phase_machine (G G' : gmap Z GameState) (gid : Z) (g : GameState) :
  reachable G → step G G' → G !! gid = Some g → phase g ≠ Ended →
  ∃ g',
    G' !! gid = Some g' ∧
    (phase g' = phase g ∨ phase g' = Ended ∨
     phase g = Lobby ∧ phase g' = Night ∨
     phase g = Night ∧ phase g' = Day ∨
     phase g = Day ∧ phase g' = Night) ∧
    (day g' = day g ∨
     phase g = Night ∧ phase g' ≠ Night ∧ day g' = day g + 1 ∨
     phase g = Lobby ∧ phase g' = Night ∧ day g' = 0).
Proof.
  intros Hr Hstep Hg Hph.
  destruct (reachable_inv G Hr gid g Hg) as [Hinv _].
  destruct (step_cases G G' gid g Hstep Hg)
    as [Hsame | [(g' & Hg' & Hgs) | [? _]]]; [| | done].
  - exists g. split; [done |]. by split; left.
  - exists g'. split; [done |]. by apply game_step_phase.
Qed.

Lemma phase_machine_witness :
  let G' := (run (λ _ l, l) FinishNight (caller 101) first_night).2 in
  let g := game_of first_night in
  (reachable first_night ∧ step first_night G' ∧
   first_night !! 1 = Some g ∧ phase g ≠ Ended) ∧
  ∃ g',
    G' !! 1 = Some g' ∧
    (phase g' = phase g ∨ phase g' = Ended ∨
     phase g = Lobby ∧ phase g' = Night ∨
     phase g = Night ∧ phase g' = Day ∨
     phase g = Day ∧ phase g' = Night) ∧
    (day g' = day g ∨
     phase g = Night ∧ phase g' ≠ Night ∧ day g' = day g + 1 ∨
     phase g = Lobby ∧ phase g' = Night ∧ day g' = 0).
Proof.
  cbn zeta.
  pose proof (step_command first_night (λ _ l, l) FinishNight (caller 101))
    as Hstep.
  assert (Hg : first_night !! 1 = Some (game_of first_night))
    by (vm_compute; reflexivity).
  assert (Hph : phase (game_of first_night) ≠ Ended)
    by (vm_compute; intros H; discriminate H).
  split.
  - split; [apply reachable_first_night |]. split; [exact Hstep |].
    split; [exact Hg | exact Hph].
  - exact (phase_machine first_night _ 1 _ reachable_first_night Hstep Hg Hph).
Defined.

(** ** Commands that cannot be repeated *)

Lemma lg_start_outcome (shuffle : ∀ A : Type, list A → list A)
    (it : Interaction) (G : gmap Z GameState) :
  (∃ r, lg_start shuffle it G = (Rejected r, G)) ∨
  ∃ gid g,
    i_guild it = Some gid ∧ G !! gid = Some g ∧
    lg_start shuffle it G
    = (Accepted game_started, <[gid := start_game shuffle g]> G).
Proof.
  unfold lg_start, get_game, role_distribution.
  destruct (i_guild it) as [gid|]; [| left; eauto].
  destruct (G !! gid) as [g|] eqn:Hg; [| left; eauto].
  case_bool_decide; [left; eauto |].
  destruct (negb (bool_decide _)); [left; eauto |].
  destruct (started g); [left; eauto |].
  cbv zeta.
  destruct (_ || _); [left; eauto |].
  right. exists gid, g. done.
Qed.

Lemma lg_finish_night_outcome (it : Interaction) (G : gmap Z GameState) :
  (∃ r, lg_finish_night it G = (Rejected r, G)) ∨
  ∃ gid g d,
    i_guild it = Some gid ∧ G !! gid = Some g ∧
    lg_finish_night it G = (Accepted d, <[gid := finish_game g]> G).
Proof.
  unfold lg_finish_night, get_game, finish_game.
  destruct (i_guild it) as [gid|]; [| left; eauto].
  destruct (G !! gid) as [g|] eqn:Hg; [| left; eauto].
  case_bool_decide; [left; eauto |].
  destruct (negb (bool_decide (_ = created_by _))); [left; eauto |].
  destruct (negb (bool_decide _)); [left; eauto |].
  right. exists gid, g.
  destruct (finish_night g) as [g1 final]. cbn [fst]. cbv zeta.
  destruct (check_victory g1); eauto.
Qed.

Lemma lg_vote_end_outcome (it : Interaction) (G : gmap Z GameState) :
  (∃ r, lg_vote_end it G = (Rejected r, G)) ∨
  ∃ gid g d,
    i_guild it = Some gid ∧ G !! gid = Some g ∧
    lg_vote_end it G = (Accepted d, <[gid := vote_end_game g]> G).
Proof.
  unfold lg_vote_end, get_game, vote_end_game.
  destruct (i_guild it) as [gid|]; [| left; eauto].
  destruct (G !! gid) as [g|] eqn:Hg; [| left; eauto].
  case_bool_decide; [left; eauto |].
  destruct (negb (bool_decide _)); [left; eauto |].
  destruct (negb (active (vote g))); [left; eauto |].
  right. exists gid, g.
  destruct (tally_votes g) as [w counts]. cbn [fst]. cbv zeta.
  case_bool_decide; [eauto |].
  destruct (check_victory _); eauto.
Qed.

(** X25. Creating, joining, leaving, starting, finishing the night and
    closing the vote cannot be done twice in a row: the same command sent
    again right away is always refused, whatever the two shuffles are.
    (Resolving the night, opening a vote and voting can be repeated.) *)
Theorem one_shot_commands (shuffle shuffle' : ∀ A : Type, list A → list A)
    (c : Command) (it : Interaction) (G : gmap Z GameState) :
  c ∈ [Create; Join; Leave; Start; FinishNight; VoteEnd] →
  is_rejection (run shuffle' c it (run shuffle c it G).2).1 = true.
Proof.
  intros Hc.
  repeat (apply elem_of_cons in Hc as [-> | Hc]);
    [ | | | | | | by apply elem_of_nil in Hc]; cbn [run] in *.
  - (* create *)
    unfold lg_create in *.
    destruct (i_guild it) as [gid|] eqn:Hgid; [| done].
    destruct (i_text_channel it) as [cid|] eqn:Hcid; [| done].
    destruct (G !! gid) as [old|] eqn:Hold.
    + destruct (negb (bool_decide (phase old = Ended))) eqn:E;
        cbn [snd]; [by rewrite Hold, E |].
      by rewrite lookup_insert_eq.
    + cbn [snd]. by rewrite lookup_insert_eq.
  - (* join *)
    unfold lg_join, get_game, contains in *.
    destruct (i_guild it) as [gid|] eqn:Hgid; [| done].
    destruct (G !! gid) as [g|] eqn:Hg; cbn [snd]; [| by rewrite Hg].
    case_bool_decide as Hph; cbn [snd];
      [by rewrite Hg, bool_decide_eq_true_2 |].
    destruct (started g) eqn:Hs; cbn [snd];
      [by rewrite Hg, bool_decide_eq_false_2, Hs |].
    case_bool_decide as Hin; cbn [snd].
    + by rewrite Hg, bool_decide_eq_false_2, Hs, bool_decide_eq_true_2.
    + rewrite lookup_insert_eq. cbn [phase started players set_players].
      rewrite bool_decide_eq_false_2, Hs by done.
      by rewrite bool_decide_eq_true_2 by (rewrite lookup_insert_eq; by eexists).
  - (* leave *)
    unfold lg_leave, get_game, contains in *.
    destruct (i_guild it) as [gid|] eqn:Hgid; [| done].
    destruct (G !! gid) as [g|] eqn:Hg; cbn [snd]; [| by rewrite Hg].
    case_bool_decide as Hph; cbn [snd];
      [by rewrite Hg, bool_decide_eq_true_2 |].
    destruct (started g) eqn:Hs; cbn [snd];
      [by rewrite Hg, bool_decide_eq_false_2, Hs |].
    case_bool_decide as Hin; cbn [negb snd].
    + rewrite lookup_insert_eq. cbn [phase started players set_players].
      rewrite bool_decide_eq_false_2, Hs by done.
      by rewrite bool_decide_eq_false_2
        by (rewrite lookup_delete_eq; by intros [? ?]).
    + by rewrite Hg, bool_decide_eq_false_2, Hs, bool_decide_eq_false_2.
  - (* start *)
    destruct (lg_start_outcome shuffle it G)
      as [[r Hr] | (gid & g & Hgid & Hg & ->)]; cbn [snd].
    + rewrite Hr. cbn [snd].
      destruct (lg_start_outcome shuffle' it G)
        as [[r' ->] | (gid & g & Hgid & Hg & Hacc)]; [done |].
      exfalso. revert Hr Hacc. unfold lg_start, get_game, role_distribution.
      rewrite Hgid, Hg. repeat case_match; done.
    + unfold lg_start, get_game. rewrite Hgid, lookup_insert_eq.
      case_bool_decide; [done |].
      destruct (negb (bool_decide _)); done.
  - (* finish_night *)
    destruct (lg_finish_night_outcome it G)
      as [[r Hr] | (gid & g & d & Hgid & Hg & Hr)]; rewrite Hr; cbn [snd].
    + by rewrite Hr.
    + unfold lg_finish_night, get_game. rewrite Hgid, lookup_insert_eq.
      destruct (finish_game_fields g) as (_ & Hp' & _).
      case_bool_decide; [done |].
      destruct (negb (bool_decide (_ = created_by _))); [done |].
      destruct Hp' as [Hp' | Hp']; [| done].
      rewrite Hp'. by rewrite (bool_decide_eq_false_2 (Day = Night)).
  - (* vote end *)
    destruct (lg_vote_end_outcome it G)
      as [[r Hr] | (gid & g & d & Hgid & Hg & Hr)]; rewrite Hr; cbn [snd].
    + by rewrite Hr.
    + unfold lg_vote_end, get_game. rewrite Hgid, lookup_insert_eq.
      destruct (vote_end_game_fields g) as (Ha' & _).
      case_bool_decide; [done |].
      destruct (negb (bool_decide _)); [done |].
      by rewrite Ha'.
Qed.

Lemma one_shot_commands_witness :
  FinishNight ∈ [Create; Join; Leave; Start; FinishNight; VoteEnd] ∧
  is_rejection
    (run (λ _ l, l) FinishNight (caller 101)
       (run (λ _ l, l) FinishNight (caller 101) first_night).2).1 = true.
Proof.
  assert (H : FinishNight ∈ [Create; Join; Leave; Start; FinishNight; VoteEnd])
    by (rewrite !elem_of_cons; auto 10).
  split; [exact H |].
  exact (one_shot_commands (λ _ l, l) (λ _ l, l) FinishNight (caller 101)
           first_night H).
Defined.

(** ** The room of the game *)

Ltac room_lookup H :=
  unfold get_game, channel;
  destruct (i_guild _) as [gid|] eqn:Hgid; [| done];
  destruct (_ !! gid) as [g|] eqn:Hg; [| done];
  pose proof (H gid g eq_refl Hg) as Hroom;
  simpl (channel_id _).

(** X26. In a guild that still has the room of the game, the lookup
    changes nothing: every command, and the forced end, answers and writes
    what the handler without the lookup does. *)
Theorem room_found_agrees (shuffle : ∀ A : Type, list A → list A)
    (rooms : gset Z) (c : Command) (it : Interaction)
    (G : gmap Z GameState) :
  room_found rooms it G →
  run_in shuffle rooms c it G = run shuffle c it G ∧
  lg_end_in rooms it G = lg_end it G.
Proof.
  intros H. unfold room_found in H. split.
  - destruct c; cbn [run run_in]; try done.
    + unfold lg_start_in, lg_start. room_lookup H.
      by rewrite (bool_decide_eq_true_2 _ Hroom).
    + unfold lg_resolve_night_in, lg_resolve_night. room_lookup H.
      by rewrite (bool_decide_eq_true_2 _ Hroom).
    + unfold lg_finish_night_in, lg_finish_night. room_lookup H.
      by rewrite (bool_decide_eq_true_2 _ Hroom).
    + unfold lg_mayor_start_in, lg_mayor_start, open_vote_in, open_vote.
      room_lookup H. by rewrite (bool_decide_eq_true_2 _ Hroom).
    + unfold lg_dayvote_start_in, lg_dayvote_start, open_vote_in, open_vote.
      room_lookup H. by rewrite (bool_decide_eq_true_2 _ Hroom).
    + unfold lg_vote_end_in, lg_vote_end. room_lookup H.
      by rewrite (bool_decide_eq_true_2 _ Hroom).
  - unfold lg_end_in, lg_end. room_lookup H.
    by rewrite (bool_decide_eq_true_2 _ Hroom).
Qed.

Ltac room_missing Hgid Hg Hroom :=
  unfold get_game, channel; rewrite Hgid, Hg;
  simpl (channel_id _); rewrite (bool_decide_eq_false_2 _ Hroom).

(** X27. In a guild that has lost the room of the game, a command the
    handler without the lookup refuses is refused alike, and creating,
    joining, leaving and voting go on as before.  A command that would be
    accepted raises [AssertionError]: resolving the night, finishing the
    night and closing the vote look the room up first and leave the
    registry as it was; opening a vote and the forced end write first, so
    the vote is open and the game is ended all the same; the start leaves
    the game started, in its first night. *)
Theorem room_gone (shuffle : ∀ A : Type, list A → list A) (rooms : gset Z)
    (c : Command) (it : Interaction) (G : gmap Z GameState) (gid : Z)
    (g : GameState) :
  i_guild it = Some gid → G !! gid = Some g → channel_id g ∉ rooms →
  (is_rejection (run shuffle c it G).1 = true →
   run_in shuffle rooms c it G = run shuffle c it G) ∧
  (c ∈ [Create; Join; Leave] ∨ (∃ cible, c = Vote cible) →
   run_in shuffle rooms c it G = run shuffle c it G) ∧
  (is_accepted (run shuffle c it G).1 = true →
   (c ∈ [ResolveNight; FinishNight; VoteEnd] →
    run_in shuffle rooms c it G = (Raised AssertionError, G)) ∧
   (c ∈ [MayorStart; DayvoteStart] →
    run_in shuffle rooms c it G
      = (Raised AssertionError, (run shuffle c it G).2)) ∧
   (c = Start →
    (run_in shuffle rooms c it G).1 = Raised AssertionError ∧
    ∃ g', (run_in shuffle rooms c it G).2 = <[gid := g']> G ∧
          started g' = true ∧ phase g' = Night ∧ day g' = 0)) ∧
  (is_accepted (lg_end it G).1 = true →
   lg_end_in rooms it G = (Raised AssertionError, (lg_end it G).2)).
Proof.
  intros Hgid Hg Hroom. split; [| split; [| split]].
  - destruct c; cbn [run run_in]; try done.
    + unfold lg_start_in, lg_start. room_missing Hgid Hg Hroom.
      unfold role_distribution. repeat case_match; done.
    + unfold lg_resolve_night_in, lg_resolve_night.
      room_missing Hgid Hg Hroom. repeat case_match; done.
    + unfold lg_finish_night_in, lg_finish_night.
      room_missing Hgid Hg Hroom. repeat case_match; done.
    + unfold lg_mayor_start_in, lg_mayor_start, open_vote_in, open_vote.
      room_missing Hgid Hg Hroom. repeat case_match; done.
    + unfold lg_dayvote_start_in, lg_dayvote_start, open_vote_in, open_vote.
      room_missing Hgid Hg Hroom. repeat case_match; done.
    + unfold lg_vote_end_in, lg_vote_end.
      room_missing Hgid Hg Hroom. repeat case_match; done.
  - intros [Hc | [cible ->]]; [| done].
    repeat (apply elem_of_cons in Hc as [-> | Hc]); try done.
    by apply elem_of_nil in Hc.
  - intros Hacc. split; [| split].
    + intros Hc.
      repeat (apply elem_of_cons in Hc as [-> | Hc]);
        [ | | | by apply elem_of_nil in Hc]; cbn [run run_in] in *;
        revert Hacc.
      * unfold lg_resolve_night_in, lg_resolve_night.
        room_missing Hgid Hg Hroom. repeat case_match; done.
      * unfold lg_finish_night_in, lg_finish_night.
        room_missing Hgid Hg Hroom. repeat case_match; done.
      * unfold lg_vote_end_in, lg_vote_end.
        room_missing Hgid Hg Hroom. repeat case_match; done.
    + intros Hc.
      repeat (apply elem_of_cons in Hc as [-> | Hc]);
        [ | | by apply elem_of_nil in Hc]; cbn [run run_in] in *;
        revert Hacc.
      * unfold lg_mayor_start_in, lg_mayor_start, open_vote_in, open_vote.
        room_missing Hgid Hg Hroom. repeat case_match; done.
      * unfold lg_dayvote_start_in, lg_dayvote_start, open_vote_in, open_vote.
        room_missing Hgid Hg Hroom. repeat case_match; done.
    + intros ->. cbn [run run_in] in *.
      destruct (lg_start_in_cases shuffle rooms it G)
        as [[r Hr] | (gid' & g' & Hgid' & Hg' & Hph & Hc & Hs & Hn)].
      * exfalso. revert Hacc Hr. unfold lg_start_in, lg_start.
        room_missing Hgid Hg Hroom. unfold role_distribution.
        repeat case_match; done.
      * rewrite Hgid in Hgid'. injection Hgid' as <-.
        rewrite Hg in Hg'. injection Hg' as <-.
        rewrite (lg_start_in_passed shuffle rooms it G gid g) by done.
        rewrite (bool_decide_eq_false_2 _ Hroom). cbn [fst snd].
        split; [done |]. exists (deal_game shuffle g). done.
  - unfold lg_end_in, lg_end. room_missing Hgid Hg Hroom.
    repeat case_match; done.
Qed.

(** ** Registries left behind by a failed lookup *)

(** A stored night target can be put back by answering the menu of its
    slot. *)
Lemma reachable_menu (gid : Z) (key : ActionKey) (x : Z) (h : GameState)
    (G : gmap Z GameState) :
  key ≠ other_key →
  reachable (<[gid := h]> G) →
  reachable (<[gid := (callback 0 key 0 [x] h).2]> G).
Proof.
  intros Hkey Hr. eapply rtc_r; [exact Hr |].
  apply (step_menu _ gid 0 key 0 [x] (callback 0 key 0 [x] h).1).
  unfold submit, get_game. rewrite lookup_insert_eq. cbn [mbind option_bind].
  destruct (callback 0 key 0 [x] h) as [r h'] eqn:E. cbn [fst snd].
  by rewrite insert_insert_eq.
Qed.

Lemma reachable_restore (slot : option Z) (key : ActionKey)
    (set : option Z → GameState → GameState) (gid : Z) (h : GameState)
    (G : gmap Z GameState) :
  key ≠ other_key →
  (∀ x, (callback 0 key 0 [x] h).2 = set (Some x) h) →
  reachable (<[gid := h]> G) →
  reachable (<[gid := from_option (λ x, set (Some x) h) h slot]> G).
Proof.
  intros Hkey Hset Hr. destruct slot as [x|]; [| done].
  cbn [from_option]. rewrite <- Hset. by apply reachable_menu.
Qed.

Lemma reachable_before_reset (gid : Z) (d : GameState)
    (G : gmap Z GameState) :
  reachable (<[gid := send_night_actions d]> G) → reachable (<[gid := d]> G).
Proof.
  intros Hr.
  apply (reachable_restore (protected_id d) guard set_protected_id) in Hr;
    [| done | done].
  apply (reachable_restore (seer_target_id d) seer set_seer_target_id) in Hr;
    [| done | done].
  apply (reachable_restore (wolf_target_id d) wolves set_wolf_target_id) in Hr;
    [| done | done].
  apply (reachable_restore (witch_heal_target_id d) witch_heal_key
           set_witch_heal_target_id) in Hr; [| done | done].
  apply (reachable_restore (witch_kill_target_id d) witch_kill_key
           set_witch_kill_target_id) in Hr; [| done | done].
  apply (reachable_restore (black_infect_target_id d) black_infect_key
           set_black_infect_target_id) in Hr; [| done | done].
  match type of Hr with
  | reachable (<[gid := ?t]> G) => replace d with t; [exact Hr |]
  end.
  destruct d as [? ? ? ? ? ? ? ? [?|] [?|] [?|] ? ? [?|] [?|] ? ? ? [?|] ?];
    reflexivity.
Qed.

Lemma lg_start_passed (shuffle : ∀ A : Type, list A → list A)
    (it : Interaction) (G : gmap Z GameState) (gid : Z) (g : GameState) :
  i_guild it = Some gid → G !! gid = Some g → phase g ≠ Ended →
  i_user it = created_by g → started g = false →
  8 ≤ Z.of_nat (size (players g)) ≤ 15 →
  lg_start shuffle it G
    = (Accepted game_started, <[gid := start_game shuffle g]> G).
Proof.
  intros Hg Hgame Hph Hcaller Hs Hn.
  unfold lg_start, get_game, role_distribution.
  rewrite Hg, Hgame, (bool_decide_eq_false_2 _ Hph), Hcaller, Hs.
  rewrite bool_decide_eq_true_2 by done. cbn [negb].
  replace ((_ <? 8) || (_ >? 15)) with false by lia. done.
Qed.

(** What a command leaves in the registry when the room is looked up,
    against what it leaves when it is not. *)
Lemma run_in_state (shuffle : ∀ A : Type, list A → list A) (rooms : gset Z)
    (c : Command) (it : Interaction) (G : gmap Z GameState) :
  (run_in shuffle rooms c it G).2 = (run shuffle c it G).2 ∨
  (run_in shuffle rooms c it G).2 = G ∨
  ∃ gid g,
    (run shuffle c it G).2 = <[gid := start_game shuffle g]> G ∧
    (run_in shuffle rooms c it G).2 = <[gid := deal_game shuffle g]> G.
Proof.
  destruct c; cbn [run run_in]; try (by left).
  - destruct (lg_start_in_cases shuffle rooms it G)
      as [[r Hr] | (gid & g & Hgid & Hg & Hph & Hc & Hs & Hn)];
      [right; left; by rewrite Hr |].
    rewrite (lg_start_in_passed shuffle rooms it G gid g) by done.
    rewrite (lg_start_passed shuffle it G gid g) by done.
    case_bool_decide; [by left |].
    right; right. by exists gid, g.
  - unfold lg_resolve_night_in, lg_resolve_night, get_game, channel.
    repeat case_match; simplify_eq/=; auto.
  - unfold lg_finish_night_in, lg_finish_night, get_game, channel.
    repeat case_match; simplify_eq/=; auto.
  - unfold lg_mayor_start_in, lg_mayor_start, open_vote_in, open_vote,
      get_game, channel.
    repeat case_match; simplify_eq/=; auto.
  - unfold lg_dayvote_start_in, lg_dayvote_start, open_vote_in, open_vote,
      get_game, channel.
    repeat case_match; simplify_eq/=; auto.
  - unfold lg_vote_end_in, lg_vote_end, get_game, channel.
    repeat case_match; simplify_eq/=; auto.
Qed.

Lemma lg_end_in_state (rooms : gset Z) (it : Interaction)
    (G : gmap Z GameState) :
  (lg_end_in rooms it G).2 = (lg_end it G).2.
Proof.
  unfold lg_end_in, lg_end, get_game, channel.
  repeat case_match; simplify_eq/=; done.
Qed.

(** X28. A failed lookup of the room leaves nothing new behind: the
    registry after any command or forced end, in whatever guild, is one
    that the operations without the lookup produce as well.  So what holds
    of every reachable registry holds after a failed lookup too. *)
Theorem failed_lookup_stays_reachable
    (shuffle : ∀ A : Type, list A → list A) (rooms : gset Z) (c : Command)
    (it : Interaction) (G : gmap Z GameState) :
  reachable G →
  reachable (run_in shuffle rooms c it G).2 ∧
  reachable (lg_end_in rooms it G).2.
Proof.
  intros Hr. split.
  - destruct (run_in_state shuffle rooms c it G)
      as [-> | [-> | (gid & g & Hrun & ->)]]; [by apply reachable_run | done |].
    apply reachable_before_reset.
    change (send_night_actions (deal_game shuffle g))
      with (start_game shuffle g).
    rewrite <- Hrun. by apply reachable_run.
  - rewrite lg_end_in_state. eapply rtc_r; [exact Hr | apply step_end].
Qed.

(** ** Sample sessions of the further properties *)

Lemma join_then_leave_witness :
  lg_join (caller 108) lobby7 = (Accepted joined, lobby8) ∧
  lg_leave (caller 108) lobby8 = (Accepted left, lobby7).
Proof.
  assert (H : lg_join (caller 108) lobby7 = (Accepted joined, lobby8))
    by (vm_compute; reflexivity).
  split; [exact H |].
  exact (join_then_leave (caller 108) lobby7 lobby8 H).
Defined.

Lemma vote_again_replaces_witness :
  lg_vote 103 (caller 102) mayor_open
    = (Accepted vote_recorded, (lg_vote 103 (caller 102) mayor_open).2) ∧
  lg_vote 104 (caller 102) (lg_vote 103 (caller 102) mayor_open).2
    = (Accepted vote_recorded, (lg_vote 104 (caller 102) mayor_open).2).
Proof.
  assert (H1 : lg_vote 103 (caller 102) mayor_open
    = (Accepted vote_recorded, (lg_vote 103 (caller 102) mayor_open).2))
    by (vm_compute; reflexivity).
  assert (H2 : lg_vote 104 (caller 102) mayor_open
    = (Accepted vote_recorded, (lg_vote 104 (caller 102) mayor_open).2))
    by (vm_compute; reflexivity).
  split; [exact H1 |].
  exact (vote_again_replaces 103 104 (caller 102) mayor_open _ _ H1 H2).
Defined.

Lemma ended_game_refuses_witness :
  let G' := (lg_end_in ∅ (caller 101) first_night).2 in
  is_rejection (lg_end_in ∅ (caller 101) first_night).1 = false ∧
  run_in (λ _ l, l) {[2]} (Vote 105) (caller 103) G' = (Rejected no_game, G') ∧
  lg_end_in {[2]} (caller 103) G' = (Rejected not_creator, G') ∧
  (lg_end_in {[2]} (caller 101) G').2 = G'.
Proof.
  cbn zeta.
  assert (H : is_rejection (lg_end_in ∅ (caller 101) first_night).1 = false)
    by (vm_compute; reflexivity).
  split; [exact H |].
  destruct (ended_game_refuses (λ _ l, l) ∅ {[2]} (caller 101) (caller 103)
              first_night 1 2 (Vote 105) H eq_refl eq_refl)
    as (Hc & _ & He & _).
  destruct (ended_game_refuses (λ _ l, l) ∅ {[2]} (caller 101) (caller 101)
              first_night 1 2 (Vote 105) H eq_refl eq_refl)
    as (_ & _ & _ & He').
  split; [apply Hc; intros Heq; discriminate Heq |].
  split; [apply He; intros Heq; discriminate Heq |].
  exact (proj1 (He' eq_refl)).
Defined.

Lemma unprotected_victim_dies_witness :
  living (players plain_night) 108 ∧
  ∃ what g',
    lg_finish_night owner_call {[1 := plain_night]}
      = (Accepted what, <[1 := g']> {[1 := plain_night]}) ∧
    alive_in (players g') 108 = false.
Proof.
  assert (Hl : living (players plain_night) 108)
    by (eexists; split; reflexivity).
  split; [exact Hl |].
  destruct (unprotected_victim_dies owner_call {[1 := plain_night]} 1
              plain_night 108)
    as (what & g' & Hrun & _ & Hdead & _);
    [reflexivity | reflexivity | reflexivity | reflexivity | reflexivity
    | lia | exact Hl | intros H; discriminate H
    | left; intros H; discriminate H | left; intros H; discriminate H |].
  exists what, g'. split; [exact Hrun | exact Hdead].
Defined.

Lemma guard_saves_witness :
  (night_effects guarded_night).2 = ∅ ∧ (finish_night guarded_night).2 = ∅.
Proof.
  destruct (guard_saves guarded_night 108) as [Hd Hnone];
    [reflexivity | reflexivity | lia |].
  split.
  - rewrite Hd. reflexivity.
  - apply Hnone. reflexivity.
Defined.

Lemma rev_permutation (A : Type) (l : list A) : rev l ≡ₚ l.
Proof. symmetry. apply Permutation_rev. Qed.

Lemma start_deals_distribution_witness :
  (lg_start_in (λ A, @rev A) ∅ (caller 101) lobby8).1 = Raised AssertionError ∧
  ∃ g',
    (lg_start_in (λ A, @rev A) ∅ (caller 101) lobby8).2 = <[1 := g']> lobby8 ∧
    started g' = true ∧ phase g' = Night ∧
    role <$> player_values g' ≡ₚ Some <$> role_table 8.
Proof.
  assert (Hg : lobby8 !! 1 = Some (game_of lobby8))
    by (vm_compute; reflexivity).
  assert (Hph : phase (game_of lobby8) ≠ Ended)
    by (vm_compute; intros H; discriminate H).
  assert (Hc : i_user (caller 101) = created_by (game_of lobby8))
    by (vm_compute; reflexivity).
  assert (Hs : started (game_of lobby8) = false) by (vm_compute; reflexivity).
  assert (Hn : Z.of_nat (size (players (game_of lobby8))) = 8)
    by (vm_compute; reflexivity).
  assert (Hroom : channel_id (game_of lobby8) ∉ (∅ : gset Z))
    by apply not_elem_of_empty.
  destruct (start_deals_distribution (λ A, @rev A) ∅ (caller 101) lobby8 1
              (game_of lobby8) rev_permutation eq_refl Hg Hph Hc Hs)
    as (g' & Hrun & Hst & Hnight & _ & Hroles & _ & _ & _ & Hgone);
    [rewrite Hn; lia |].
  split; [exact (proj1 (Hgone Hroom)) |].
  exists g'. split; [exact Hrun |]. split; [exact Hst |].
  split; [exact Hnight |].
  rewrite Hn in Hroles. exact Hroles.
Defined.

Lemma fresh_game_has_no_winner_witness :
  reachable lobby8 ∧
  ∃ g',
    lg_start (λ A, @rev A) (caller 101) lobby8
      = (Accepted game_started, <[1 := g']> lobby8) ∧
    check_victory g' = None.
Proof.
  assert (Hg : lobby8 !! 1 = Some (game_of lobby8))
    by (vm_compute; reflexivity).
  assert (Hph : phase (game_of lobby8) ≠ Ended)
    by (vm_compute; intros H; discriminate H).
  assert (Hc : i_user (caller 101) = created_by (game_of lobby8))
    by (vm_compute; reflexivity).
  assert (Hs : started (game_of lobby8) = false) by (vm_compute; reflexivity).
  assert (Hn : Z.of_nat (size (players (game_of lobby8))) = 8)
    by (vm_compute; reflexivity).
  split; [apply reachable_lobby_of |].
  destruct (fresh_game_has_no_winner (λ A, @rev A) (caller 101) lobby8 1
              (game_of lobby8) rev_permutation (reachable_lobby_of _)
              eq_refl Hg Hph Hc Hs)
    as (g' & Hrun & _ & Hcv); [rewrite Hn; lia |].
  exists g'. split; [exact Hrun | exact Hcv].
Defined.

Lemma roster_is_frozen_witness :
  let G' := (run (λ _ l, l) FinishNight (caller 101) first_night).2 in
  step first_night G' ∧
  ∃ g',
    G' !! 1 = Some g' ∧ started g' = true ∧
    ∀ i, is_Some (players g' !! i)
         ↔ is_Some (players (game_of first_night) !! i).
Proof.
  cbn zeta.
  pose proof (step_command first_night (λ _ l, l) FinishNight (caller 101))
    as Hstep.
  assert (Hg : first_night !! 1 = Some (game_of first_night))
    by (vm_compute; reflexivity).
  assert (Hs : started (game_of first_night) = true)
    by (vm_compute; reflexivity).
  assert (Hph : phase (game_of first_night) ≠ Ended)
    by (vm_compute; intros H; discriminate H).
  split; [exact Hstep |].
  destruct (roster_is_frozen first_night _ 1 _ Hstep Hg Hs Hph)
    as (g' & Hg' & Hs' & Hdom & _).
  exists g'. split; [exact Hg' |]. split; [exact Hs' | exact Hdom].
Defined.

Lemma roles_change_by_infection_witness :
  step {[1 := infection_night]} infected_morning ∧
  ∃ p', players (game_of infected_morning) !! 108 = Some p' ∧
        role p' = Some loup_garou ∧ infected p' = true.
Proof.
  assert (Hstep : step {[1 := infection_night]} infected_morning)
    by exact (step_command {[1 := infection_night]} (λ _ l, l) FinishNight
                owner_call).
  assert (Hg' : infected_morning !! 1 = Some (game_of infected_morning))
    by (vm_compute; reflexivity).
  assert (Hp : players infection_night !! 108
               = Some (player 108 villageois true None))
    by (vm_compute; reflexivity).
  assert (Hp' : players (game_of infected_morning) !! 108
    = Some (infect_player (player 108 villageois true None)))
    by (vm_compute; reflexivity).
  split; [exact Hstep |].
  destruct (roles_change_by_infection {[1 := infection_night]}
              infected_morning 1 infection_night (game_of infected_morning)
              108 (player 108 villageois true None)
              (infect_player (player 108 villageois true None)) Hstep
              (lookup_singleton_eq 1 infection_night) eq_refl)
    as [Hr _]; [intros H; discriminate H | exact Hg' | exact Hp | exact Hp' |].
  eexists. split; [exact Hp' |].
  destruct Hr as [Hr | (Hr & Hi & _)]; [discriminate Hr |].
  split; [exact Hr | exact Hi].
Defined.

Lemma one_shot_flags_stay_witness :
  step healed_morning (lg_mayor_start owner_call healed_morning).2 ∧
  witch_heal_used (game_of healed_morning) = true ∧
  ∃ g', (lg_mayor_start owner_call healed_morning).2 !! 1 = Some g' ∧
        witch_heal_used g' = true.
Proof.
  assert (Hstep : step healed_morning
                    (lg_mayor_start owner_call healed_morning).2)
    by exact (step_command healed_morning (λ _ l, l) MayorStart owner_call).
  assert (Hg : healed_morning !! 1 = Some (game_of healed_morning))
    by (vm_compute; reflexivity).
  assert (Hph : phase (game_of healed_morning) ≠ Ended)
    by (vm_compute; intros H; discriminate H).
  assert (Hu : witch_heal_used (game_of healed_morning) = true)
    by (vm_compute; reflexivity).
  split; [exact Hstep |]. split; [exact Hu |].
  destruct (one_shot_flags_stay healed_morning _ 1 _ Hstep Hg Hph)
    as (g' & Hg' & Hh & _).
  exists g'. split; [exact Hg' | exact (Hh Hu)].
Defined.

Lemma select_options_spec_witness :
  let ps := players (night_game table8) in
  map_to_list ps ≡ₚ map_to_list ps ∧
  NoDup (select_options (map_to_list ps) 107 false true) ∧
  ∀ i, i ∈ select_options (map_to_list ps) 107 false true → i ≠ 107.
Proof.
  cbn zeta.
  destruct (select_options_spec (players (night_game table8))
              (map_to_list (players (night_game table8))) 107 false true
              (reflexivity _)) as (Hnd & _ & Hin & _).
  split; [reflexivity |]. split; [exact Hnd |].
  intros i Hi. destruct (Hin i Hi) as (_ & _ & Hs). by apply Hs.
Defined.

Lemma mayor_election_outcome_witness :
  (tally_votes (game_of mayor_round)).1 = Some 103 ∧
  ∃ g',
    lg_vote_end (caller 101) mayor_round
      = (Accepted mayor_vote_closed, <[1 := g']> mayor_round) ∧
    mayor_id g' = Some 103 ∧ players g' = players (game_of mayor_round).
Proof.
  assert (Hg : mayor_round !! 1 = Some (game_of mayor_round))
    by (vm_compute; reflexivity).
  assert (Hph : phase (game_of mayor_round) ≠ Ended)
    by (vm_compute; intros H; discriminate H).
  assert (Hc : i_user (caller 101) = created_by (game_of mayor_round))
    by (vm_compute; reflexivity).
  assert (Ha : active (vote (game_of mayor_round)) = true)
    by (vm_compute; reflexivity).
  assert (Hk : kind (vote (game_of mayor_round)) = mayor)
    by (vm_compute; reflexivity).
  assert (Hw : (tally_votes (game_of mayor_round)).1 = Some 103)
    by (vm_compute; reflexivity).
  split; [exact Hw |].
  destruct (mayor_election_outcome (caller 101) mayor_round 1 _
              eq_refl Hg Hph Hc Ha Hk)
    as (g' & Hrun & Hps & _ & _ & _ & Hm & _).
  exists g'. split; [exact Hrun |]. split; [exact (Hm 103 Hw) | exact Hps].
Defined.

Lemma elimination_tie_witness :
  (tally_votes (game_of tie_round)).1 = None ∧
  ∃ what g',
    lg_vote_end (caller 101) tie_round
      = (Accepted what, <[1 := g']> tie_round) ∧
    players g' = players (game_of tie_round) ∧ phase g' = Night.
Proof.
  assert (Hg : tie_round !! 1 = Some (game_of tie_round))
    by (vm_compute; reflexivity).
  assert (Hph : phase (game_of tie_round) ≠ Ended)
    by (vm_compute; intros H; discriminate H).
  assert (Hc : i_user (caller 101) = created_by (game_of tie_round))
    by (vm_compute; reflexivity).
  assert (Ha : active (vote (game_of tie_round)) = true)
    by (vm_compute; reflexivity).
  assert (Hk : kind (vote (game_of tie_round)) ≠ mayor)
    by (vm_compute; intros H; discriminate H).
  assert (Ht : (tally_votes (game_of tie_round)).1 = None)
    by (vm_compute; reflexivity).
  assert (Hv : check_victory (game_of tie_round) = None)
    by (vm_compute; reflexivity).
  split; [exact Ht |].
  destruct (elimination_tie (caller 101) tie_round 1 _
              eq_refl Hg Hph Hc Ha Hk Ht)
    as (what & g' & Hrun & Hps & _ & _ & Hnone & _).
  exists what, g'. split; [exact Hrun |]. split; [exact Hps |].
  by destruct (Hnone Hv) as (_ & ? & _).
Defined.

Lemma room_found_agrees_witness :
  room_found {[2]} (caller 101) first_night ∧
  run_in (λ _ l, l) {[2]} FinishNight (caller 101) first_night
    = run (λ _ l, l) FinishNight (caller 101) first_night.
Proof.
  assert (Hch : channel_id <$> first_night !! 1 = Some 2)
    by (vm_compute; reflexivity).
  assert (H : room_found {[2]} (caller 101) first_night).
  { intros gid game Hgid Hgame. injection Hgid as <-.
    rewrite Hgame in Hch. injection Hch as ->. by apply elem_of_singleton. }
  split; [exact H |].
  exact (proj1 (room_found_agrees (λ _ l, l) {[2]} FinishNight (caller 101)
                  first_night H)).
Defined.

Lemma room_gone_witness :
  is_accepted (run (λ _ l, l) FinishNight (caller 101) first_night).1 = true ∧
  run_in (λ _ l, l) ∅ FinishNight (caller 101) first_night
    = (Raised AssertionError, first_night).
Proof.
  assert (Hg : first_night !! 1 = Some (game_of first_night))
    by (vm_compute; reflexivity).
  assert (Hroom : channel_id (game_of first_night) ∉ (∅ : gset Z))
    by apply not_elem_of_empty.
  assert (Hacc : is_accepted
            (run (λ _ l, l) FinishNight (caller 101) first_night).1 = true)
    by (vm_compute; reflexivity).
  assert (Hc : FinishNight ∈ [ResolveNight; FinishNight; VoteEnd])
    by (rewrite !elem_of_cons; auto).
  split; [exact Hacc |].
  destruct (room_gone (λ _ l, l) ∅ FinishNight (caller 101) first_night 1
              (game_of first_night) eq_refl Hg Hroom) as (_ & _ & Hthree & _).
  exact (proj1 (Hthree Hacc) Hc).
Defined.

Lemma failed_lookup_stays_reachable_witness :
  reachable lobby8 ∧
  (run_in (λ A, @rev A) ∅ Start (caller 101) lobby8).1
    = Raised AssertionError ∧
  reachable (run_in (λ A, @rev A) ∅ Start (caller 101) lobby8).2.
Proof.
  assert (Hr : reachable lobby8) by apply reachable_lobby_of.
  split; [exact Hr |].
  split; [vm_compute; reflexivity |].
  exact (proj1 (failed_lookup_stays_reachable (λ A, @rev A) ∅ Start
                  (caller 101) lobby8 Hr)).
Defined.
